(** * go-logfile: an asynchronous daily-rotating log writer

    A shallow embedding of [logfile.go] (package main): the per-stream
    writer engine made of [newLogFunc], [openFile], [cleanOldLogs] and
    [runWorker], the two streams [AppLog] and [CommLog] that [init] builds
    and [CloseAllLogs] shuts down, and the parts of the Go runtime and standard
    library it leans on (strings, [time.Format], [os] files, [bufio.Writer],
    buffered channels, [sync.WaitGroup], [defer]/[recover]).

    Go strings are byte sequences; they are modelled by [string] (a list of
    8-bit characters), so [len] is the byte length and [<] the bytewise
    lexicographic order, as in Go. *)

From stdpp Require Import gmap strings list fin_maps.
From Stdlib Require Import ZArith Lia Ascii.

Local Open Scope nat_scope.

(* ===================================================================== *)
(** * Package [strings] and string indexing                              *)
(* ===================================================================== *)

Module GoStrings.

Definition len (s : string) : nat := String.length s.

(** [s[i:j]]; every use in the program is guarded so that
    [i <= j <= len s]. *)
Definition slice (s : string) (i j : nat) : string :=
  String.substring i (j - i) s.

(** [strings.HasPrefix]: [len(s) >= len(prefix) && s[:len(prefix)] == prefix]. *)
Definition HasPrefix (s pre : string) : bool :=
  (len pre <=? len s) && String.eqb (slice s 0 (len pre)) pre.

(** [strings.HasSuffix]: [len(s) >= len(suffix) && s[len(s)-len(suffix):] == suffix]. *)
Definition HasSuffix (s suf : string) : bool :=
  (len suf <=? len s) && String.eqb (slice s (len s - len suf) (len s)) suf.

(** The comparison [a < b] on strings. *)
Definition lt (a b : string) : bool := String.ltb a b.

End GoStrings.

(* ===================================================================== *)
(** * Package [time]: wall-clock readings and their layouts              *)
(* ===================================================================== *)

Module GoTime.

(** A reading of [time.Now()], as the civil fields [Format] prints. *)
Record Time := mkTime {
  year : Z;
  month : nat;
  day : nat;
  hour : nat;
  minute : nat;
  second : nat
}.

Definition digit (n : nat) : ascii := ascii_of_nat (48 + n mod 10).

(** The [w] low decimal digits of [n], most significant first. *)
Fixpoint fixed (w n : nat) : string :=
  match w with
  | 0 => ""
  | S w' => fixed w' (n / 10) +:+ String (digit n) ""
  end.

Fixpoint ndigits_aux (fuel n : nat) : nat :=
  match fuel with
  | 0 => 1
  | S f => if n <? 10 then 1 else S (ndigits_aux f (n / 10))
  end.

(** Number of decimal digits of [n] (1 for 0). *)
Definition ndigits (n : nat) : nat := ndigits_aux n n.

Definition utoa (n : nat) : string := fixed (ndigits n) n.

Fixpoint zeros (k : nat) : string :=
  match k with 0 => "" | S k' => String "0" (zeros k') end.

(** [appendInt(b, x, width)]: a minus sign for negatives, then the
    decimal digits of [|x|] left-padded with zeros to [width]. *)
Definition appendInt (x : Z) (width : nat) : string :=
  let u := Z.abs_nat x in
  (if (x <? 0)%Z then "-" else "") +:+ zeros (width - ndigits u) +:+ utoa u.

(** [t.Format("20060102")] *)
Definition Format_date (t : Time) : string :=
  appendInt (year t) 4 +:+ appendInt (Z.of_nat (month t)) 2
    +:+ appendInt (Z.of_nat (day t)) 2.

(** [t.Format("2006-01-02 15:04:05")] *)
Definition Format_stamp (t : Time) : string :=
  appendInt (year t) 4 +:+ "-" +:+ appendInt (Z.of_nat (month t)) 2 +:+ "-"
    +:+ appendInt (Z.of_nat (day t)) 2 +:+ " "
    +:+ appendInt (Z.of_nat (hour t)) 2 +:+ ":"
    +:+ appendInt (Z.of_nat (minute t)) 2 +:+ ":"
    +:+ appendInt (Z.of_nat (second t)) 2.

Definition is_leap (y : Z) : bool :=
  ((y mod 4 =? 0) && (negb (y mod 100 =? 0) || (y mod 400 =? 0)))%Z.

Definition days_in (y : Z) (m : nat) : nat :=
  match m with
  | 2 => if is_leap y then 29 else 28
  | 4 | 6 | 9 | 11 => 30
  | _ => 31
  end.

(** A reading the clock can produce. *)
Definition valid (t : Time) : bool :=
  (1 <=? month t) && (month t <=? 12) &&
  (1 <=? day t) && (day t <=? days_in (year t) (month t)) &&
  (hour t <? 24) && (minute t <? 60) && (second t <? 60).

Definition with_date (t : Time) (y : Z) (m d : nat) : Time :=
  mkTime y m d (hour t) (minute t) (second t).

(** One calendar day back, same clock time. *)
Definition prev_day (t : Time) : Time :=
  if 1 <? day t then with_date t (year t) (month t) (day t - 1)
  else if 1 <? month t
       then with_date t (year t) (month t - 1) (days_in (year t) (month t - 1))
       else with_date t (year t - 1)%Z 12 31.

(** One calendar day forward, same clock time. *)
Definition next_day (t : Time) : Time :=
  if day t <? days_in (year t) (month t)
  then with_date t (year t) (month t) (day t + 1)
  else if month t <? 12
       then with_date t (year t) (month t + 1) 1
       else with_date t (year t + 1)%Z 1 1.

(** [t.AddDate(0, 0, days)]: the calendar date moved by [days] days
    (the program never passes a year or month offset). *)
Definition AddDate (t : Time) (days : Z) : Time :=
  if (days <? 0)%Z then Nat.iter (Z.to_nat (- days)) prev_day t
  else Nat.iter (Z.to_nat days) next_day t.

End GoTime.

(* ===================================================================== *)
(** * Package [os]: the stream's directory, descriptors, the console      *)
(* ===================================================================== *)

Module GoOS.

Inductive node := Dir | File (data : string).

#[global] Instance node_eq_dec : EqDecision node.
Proof. solve_decision. Defined.

Inductive errno := ENOENT | EACCES | EISDIR | EBADF.

(** The calls the logger issues, in the order it issues them. *)
Inductive syscall :=
| SysMkdirAll
| SysOpen (name : string)
| SysWrite (fd : nat) (data : string)
| SysClose (fd : nat)
| SysSync (fd : nat)
| SysReadDir
| SysRemove (name : string).

(** The lines the logger prints with [fmt.Printf]/[fmt.Println]. *)
Inductive line :=
| LoggerStarted (prefix : string) (retention : Z)
| LoggerClosed (prefix : string)
| OpenFailed (e : errno)
| UnsavedLog (msg : string)
| DateChanged (date : string)
| ExpiredRemoved (name : string).

(** The operating system as the logger of one stream sees it.  [dir] is
    the directory [dirPath] ([None]: it does not exist), keyed by entry
    name, so [filepath.Join(dirPath, name)] addresses entry [name];
    [perm] tells whether the process may create and modify entries
    there; [fds] are the open descriptors and the entry each refers to. *)
Record OS := mkOS {
  dir : option (gmap string node);
  perm : bool;
  fds : gmap nat string;
  next_fd : nat;
  console : list line;
  calls : list syscall
}.

Definition set_dir (d : option (gmap string node)) (o : OS) : OS :=
  mkOS d (perm o) (fds o) (next_fd o) (console o) (calls o).

Definition set_fds (f : gmap nat string) (n : nat) (o : OS) : OS :=
  mkOS (dir o) (perm o) f n (console o) (calls o).

Definition called (c : syscall) (o : OS) : OS :=
  mkOS (dir o) (perm o) (fds o) (next_fd o) (console o) (calls o ++ [c]).

Definition print (l : line) (o : OS) : OS :=
  mkOS (dir o) (perm o) (fds o) (next_fd o) (console o ++ [l]) (calls o).

(** The entry [name] of the directory, if both exist. *)
Definition entry (o : OS) (name : string) : option node :=
  match dir o with
  | Some d => d !! name
  | None => None
  end.

(** Content of the regular file [name], if there is one. *)
Definition content (o : OS) (name : string) : option string :=
  match dir o with
  | Some d => match d !! name with Some (File c) => Some c | _ => None end
  | None => None
  end.

(** [os.MkdirAll(dirPath, 0755)] *)
Definition MkdirAll (o : OS) : option errno * OS :=
  let o := called SysMkdirAll o in
  match dir o with
  | Some _ => (None, o)
  | None => if perm o then (None, set_dir (Some ∅) o) else (Some EACCES, o)
  end.

(** [os.OpenFile(path, os.O_APPEND|os.O_CREATE|os.O_WRONLY, 0644)] *)
Definition OpenFile (name : string) (o : OS) : (errno + nat) * OS :=
  let o := called (SysOpen name) o in
  match dir o with
  | None => (inl ENOENT, o)
  | Some d =>
      if negb (perm o) then (inl EACCES, o)
      else
        let fd := next_fd o in
        match d !! name with
        | Some Dir => (inl EISDIR, o)
        | Some (File _) => (inr fd, set_fds (<[fd := name]> (fds o)) (S fd) o)
        | None =>
            (inr fd, set_fds (<[fd := name]> (fds o)) (S fd)
                       (set_dir (Some (<[name := File ""]> d)) o))
        end
  end.

(** [File.Write] on a descriptor opened with [O_APPEND]: the bytes
    go to the end of the file; a closed descriptor is an error.  Bytes
    written to an entry that was unlinked meanwhile are not visible in
    the directory. *)
Definition Write (fd : nat) (data : string) (o : OS) : bool * OS :=
  let o := called (SysWrite fd data) o in
  match fds o !! fd with
  | None => (false, o)
  | Some name =>
      match dir o with
      | Some d =>
          match d !! name with
          | Some (File c) => (true, set_dir (Some (<[name := File (c +:+ data)]> d)) o)
          | _ => (true, o)
          end
      | None => (true, o)
      end
  end.

(** [File.Close] *)
Definition Close (fd : nat) (o : OS) : OS :=
  let o := called (SysClose fd) o in
  set_fds (delete fd (fds o)) (next_fd o) o.

(** [File.Sync] *)
Definition Sync (fd : nat) (o : OS) : OS := called (SysSync fd) o.

Definition is_dir (n : node) : bool :=
  match n with Dir => true | File _ => false end.

(** [os.ReadDir(dirPath)]: the entries as (name, IsDir) pairs. *)
Definition ReadDir (o : OS) : option (list (string * bool)) * OS :=
  let o := called SysReadDir o in
  match dir o with
  | None => (None, o)
  | Some d => (Some (map (λ e, (e.1, is_dir e.2)) (map_to_list d)), o)
  end.

(** [os.Remove(path)]; the program only passes regular files. *)
Definition Remove (name : string) (o : OS) : bool * OS :=
  let o := called (SysRemove name) o in
  match dir o with
  | Some d =>
      match d !! name with
      | Some (File _) =>
          if perm o then (true, set_dir (Some (delete name d)) o) else (false, o)
      | _ => (false, o)
      end
  | None => (false, o)
  end.

End GoOS.

(* ===================================================================== *)
(** * Package [bufio]: the buffered writer                                *)
(* ===================================================================== *)

Module Bufio.
Import GoOS.

(** [bufio.Writer] over the file [wfd]: the pending bytes and the sticky
    error flag. *)
Record Writer := mkWriter {
  wfd : nat;
  wbuf : string;
  werr : bool
}.

(** [defaultBufSize] *)
Definition bufSize : nat := 4096.

Definition NewWriter (fd : nat) : Writer := mkWriter fd "" false.

Definition Buffered (w : Writer) : nat := String.length (wbuf w).

Definition Available (w : Writer) : nat := bufSize - String.length (wbuf w).

Definition Flush (w : Writer) (o : OS) : Writer * OS :=
  if werr w then (w, o)
  else if Buffered w =? 0 then (w, o)
  else
    match Write (wfd w) (wbuf w) o with
    | (true, o') => (mkWriter (wfd w) "" false, o')
    | (false, o') => (mkWriter (wfd w) (wbuf w) true, o')
    end.

(** A write that bypasses the buffer ([os.File] is an [io.StringWriter]). *)
Definition direct (s : string) (w : Writer) (o : OS) : Writer * OS :=
  match Write (wfd w) s o with
  | (true, o') => (w, o')
  | (false, o') => (mkWriter (wfd w) (wbuf w) true, o')
  end.

(** [Writer.WriteString].  The library loop runs at most twice: a
    string that does not fit either goes straight to the file (empty
    buffer) or tops the buffer up, flushes it, and leaves a remainder
    that meets an empty buffer. *)
Definition WriteString (s : string) (w : Writer) (o : OS) : Writer * OS :=
  if werr w then (w, o)
  else if String.length s <=? Available w
  then (mkWriter (wfd w) (wbuf w +:+ s) (werr w), o)
  else if Buffered w =? 0 then direct s w o
  else
    let n := Available w in
    let '(w1, o1) :=
      Flush (mkWriter (wfd w) (wbuf w +:+ String.substring 0 n s) (werr w)) o in
    let rest := String.substring n (String.length s - n) s in
    if werr w1 then (w1, o1)
    else if String.length rest <=? Available w1
    then (mkWriter (wfd w1) (wbuf w1 +:+ rest) (werr w1), o1)
    else direct rest w1 o1.

End Bufio.

(* ===================================================================== *)
(** * Buffered channels of strings                                        *)
(* ===================================================================== *)

Module Chan.

Record chan := mkChan {
  cbuf : list string;
  ccap : nat;
  cclosed : bool
}.

(** [make(chan string, n)] *)
Definition make (n : nat) : chan := mkChan [] n false.

Inductive send_result :=
| Sent (c : chan)
| SendBlocks
| SendPanics.

(** [c <- v] *)
Definition send (v : string) (c : chan) : send_result :=
  if cclosed c then SendPanics
  else if length (cbuf c) <? ccap c
       then Sent (mkChan (cbuf c ++ [v]) (ccap c) (cclosed c))
       else SendBlocks.

Inductive recv_result :=
| Received (v : string) (c : chan)
| RecvClosed
| RecvBlocks.

(** [v, ok := <-c]; [RecvClosed] is [ok == false]. *)
Definition recv (c : chan) : recv_result :=
  match cbuf c with
  | v :: rest => Received v (mkChan rest (ccap c) (cclosed c))
  | [] => if cclosed c then RecvClosed else RecvBlocks
  end.

(** [close(c)]; closing a closed channel panics ([None]). *)
Definition close (c : chan) : option chan :=
  if cclosed c then None else Some (mkChan (cbuf c) (ccap c) true).

End Chan.

(* ===================================================================== *)
(** * logfile.go: the logger of one stream                                *)
(* ===================================================================== *)

Module Logger.
Import GoStrings GoTime GoOS Bufio.

(** [type internalLogger struct].  [wg] is the counter of the
    [sync.WaitGroup]; [file] and [writer] are the two pointers ([None] is
    [nil]); [retentionDays] is a Go [int]. *)
Record internalLogger := mkLogger {
  msgChan : Chan.chan;
  wg : Z;
  file : option nat;
  writer : option Writer;
  dirPath : string;
  filePrefix : string;
  currentDate : string;
  retentionDays : Z
}.

Definition set_chan (c : Chan.chan) (l : internalLogger) : internalLogger :=
  mkLogger c (wg l) (file l) (writer l) (dirPath l) (filePrefix l)
           (currentDate l) (retentionDays l).

Definition set_wg (n : Z) (l : internalLogger) : internalLogger :=
  mkLogger (msgChan l) n (file l) (writer l) (dirPath l) (filePrefix l)
           (currentDate l) (retentionDays l).

Definition set_file (f : option nat) (l : internalLogger) : internalLogger :=
  mkLogger (msgChan l) (wg l) f (writer l) (dirPath l) (filePrefix l)
           (currentDate l) (retentionDays l).

Definition set_writer (w : option Writer) (l : internalLogger) : internalLogger :=
  mkLogger (msgChan l) (wg l) (file l) w (dirPath l) (filePrefix l)
           (currentDate l) (retentionDays l).

Definition set_currentDate (d : string) (l : internalLogger) : internalLogger :=
  mkLogger (msgChan l) (wg l) (file l) (writer l) (dirPath l) (filePrefix l)
           d (retentionDays l).

Definition newline : string := String "010" "".

(** [fmt.Sprintf("%s_%s.txt", l.filePrefix, dateStr)] *)
Definition fileName (prefix dateStr : string) : string :=
  prefix +:+ "_" +:+ dateStr +:+ ".txt".

(** [fmt.Sprintf("[%s] %s\n", timestamp, msg)] *)
Definition logLine (timestamp msg : string) : string :=
  "[" +:+ timestamp +:+ "] " +:+ msg +:+ newline.

(** [func (l *internalLogger) openFile(t time.Time) error] *)
Definition openFile (t : Time) (l : internalLogger) (o : OS)
  : option errno * internalLogger * OS :=
  let o1 := (MkdirAll o).2 in
  let dateStr := Format_date t in
  let name := fileName (filePrefix l) dateStr in
  match OpenFile name o1 with
  | (inl err, o2) => (Some err, l, o2)
  | (inr f, o2) =>
      (None,
       set_currentDate dateStr (set_writer (Some (NewWriter f)) (set_file (Some f) l)),
       o2)
  end.

(** The name checks of [cleanOldLogs] (lines 131-138): the date
    characters [name[prefixLen : prefixLen+8]] of a name that passes
    them. *)
Definition fileDate (prefix name : string) : option string :=
  if negb (HasPrefix name (prefix +:+ "_")) || negb (HasSuffix name ".txt")
  then None
  else
    let prefixLen := len prefix + 1 in
    if len name <? prefixLen + 8 + 4 then None
    else Some (slice name prefixLen (prefixLen + 8)).

(** The body of the [for _, file := range files] loop of [cleanOldLogs]. *)
Definition sweepEntry (l : internalLogger) (cutoffStr : string)
    (o : OS) (e : string * bool) : OS :=
  let '(name, isDir) := e in
  if isDir then o
  else
    match fileDate (filePrefix l) name with
    | None => o
    | Some fileDateStr =>
        if lt fileDateStr cutoffStr
        then print (ExpiredRemoved name) (Remove name o).2
        else o
    end.

(** [func (l *internalLogger) cleanOldLogs()]; [now] is its reading of
    [time.Now()]. *)
Definition cleanOldLogs (now : Time) (l : internalLogger) (o : OS) : OS :=
  if (retentionDays l <=? 0)%Z then o
  else
    let cutoffStr := Format_date (AddDate now (- retentionDays l)) in
    match ReadDir o with
    | (None, o1) => o1
    | (Some files, o1) => foldl (sweepEntry l cutoffStr) o1 files
    end.

(** [if l.writer != nil { l.writer.Flush() }] *)
Definition flushWriter (l : internalLogger) (o : OS) : internalLogger * OS :=
  match writer l with
  | Some w => let '(w', o') := Flush w o in (set_writer (Some w') l, o')
  | None => (l, o)
  end.

(** [if l.file != nil { l.file.Close() }] *)
Definition closeFile (l : internalLogger) (o : OS) : OS :=
  match file l with
  | Some f => Close f o
  | None => o
  end.

(** What one iteration of the worker loop ends in: back to the [select]
    ([Continue], also for the [continue] statement) or a run-time panic.
    [spawned] tells whether it issued [go l.cleanOldLogs()]. *)
Inductive iteration :=
| Continue (l : internalLogger) (o : OS) (spawned : bool)
| Panics (l : internalLogger) (o : OS) (spawned : bool).

(** Lines 193-194: [l.writer.WriteString(...)]; a nil [l.writer] is a
    nil-pointer dereference. *)
Definition writeLine (now : Time) (msg : string) (l : internalLogger) (o : OS)
    (spawned : bool) : iteration :=
  let timestamp := Format_stamp now in
  match writer l with
  | None => Panics l o spawned
  | Some w =>
      let '(w', o') := WriteString (logLine timestamp msg) w o in
      Continue (set_writer (Some w') l) o' spawned
  end.

(** Line 173: [l.file == nil || today != l.currentDate]. *)
Definition needsRotation (now : Time) (l : internalLogger) : bool :=
  let today := Format_date now in
  bool_decide (file l = None) || negb (String.eqb today (currentDate l)).

(** Lines 175-180: flush and close the old file, then try to open the
    file of [now]. *)
Definition rotate (now : Time) (l : internalLogger) (o : OS)
  : option errno * internalLogger * OS :=
  let '(l1, o1) := flushWriter l o in
  let o2 := closeFile l1 o1 in
  let l2 := set_file None l1 in
  openFile now l2 o2.

(** The [case msg, ok := <-l.msgChan] branch for a delivered message
    ([ok == true]); [now] is its reading of [time.Now()]. *)
Definition onMessage (now : Time) (msg : string) (l : internalLogger) (o : OS)
  : iteration :=
  if needsRotation now l then
    match rotate now l o with
    | (Some err, l3, o3) =>
        Continue l3 (print (UnsavedLog msg) (print (OpenFailed err) o3)) false
    | (None, l3, o3) =>
        writeLine now msg l3 (print (DateChanged (currentDate l3)) o3) true
    end
  else writeLine now msg l o false.

(** The [case <-ticker.C] branch. *)
Definition onTick (l : internalLogger) (o : OS) : internalLogger * OS :=
  match writer l with
  | Some w =>
      if 0 <? Buffered w
      then let '(w', o') := Flush w o in (set_writer (Some w') l, o')
      else (l, o)
  | None => (l, o)
  end.

(** How the loop of [runWorker] is left. *)
Inductive exit_kind := Returned | Panicked.

(** The deferred closure with [recover()]: it acts only when panicking. *)
Definition recoverHandler (k : exit_kind) (l : internalLogger) (o : OS)
  : internalLogger * OS :=
  match k with
  | Returned => (l, o)
  | Panicked =>
      let '(l1, o1) := flushWriter l o in
      (l1, match file l1 with Some f => Sync f o1 | None => o1 end)
  end.

(** [l.wg.Add(n)] *)
Definition wg_Add (n : Z) (l : internalLogger) : internalLogger :=
  set_wg (wg l + n) l.

(** [l.wg.Done()]; a negative counter panics ([None]). *)
Definition wg_Done (l : internalLogger) : option internalLogger :=
  if (wg l - 1 <? 0)%Z then None else Some (set_wg (wg l - 1) l).

(** The deferred calls of [runWorker], last registered first: the
    recovering closure, [ticker.Stop()] (no effect on the logger), then
    [l.wg.Done()]. *)
Definition runWorker_exit (k : exit_kind) (l : internalLogger) (o : OS)
  : option (internalLogger * OS) :=
  let '(l1, o1) := recoverHandler k l o in
  match wg_Done l1 with
  | Some l2 => Some (l2, o1)
  | None => None
  end.

(** ** The running stream: logger, operating system, goroutines *)

Inductive status := Running | Exited (k : exit_kind).

(** [sweeps] counts the [go l.cleanOldLogs()] goroutines that were
    started and have not run yet. *)
Record System := mkSys {
  lg : internalLogger;
  os : OS;
  worker : status;
  sweeps : nat
}.

Inductive init_error :=
| CannotCreateDir (e : errno)
| CannotCreateFile (e : errno).

Inductive init_result :=
| InitPanic (why : init_error) (o : OS)
| InitOk (s : System).

(** [func newLogFunc(dirPath, filePrefix, retentionDays)].  [t_clean] and
    [t_open] are the two readings of [time.Now()]; the returned closures
    [logFn] and [closeFn] are the functions below, applied to the
    stream. *)
Definition newLogFunc (dirPath filePrefix : string) (retentionDays : Z)
    (t_clean t_open : Time) (o : OS) : init_result :=
  match MkdirAll o with
  | (Some err, o1) => InitPanic (CannotCreateDir err) o1
  | (None, o1) =>
      let logger :=
        mkLogger (Chan.make 1000) 0 None None dirPath filePrefix "" retentionDays in
      let o2 := cleanOldLogs t_clean logger o1 in
      match openFile t_open logger o2 with
      | (Some err, _, o3) => InitPanic (CannotCreateFile err) o3
      | (None, l3, o3) =>
          let l4 := wg_Add 1 l3 in
          InitOk (mkSys l4 (print (LoggerStarted filePrefix retentionDays) o3)
                        Running 0)
      end
  end.

(** What a step of one goroutine does to the stream: it completes
    (handing the worker the listed messages), it blocks, or it panics
    without recovery, which ends the process. *)
Inductive outcome :=
| Steps (s : System) (delivered : list (Time * string))
| Blocks
| Crashes.

(** [logFn]: [logger.msgChan <- fmt.Sprintf(format, v...)], on the
    rendered string. *)
Definition logFn (rendered : string) (s : System) : outcome :=
  match Chan.send rendered (msgChan (lg s)) with
  | Chan.Sent c => Steps (mkSys (set_chan c (lg s)) (os s) (worker s) (sweeps s)) []
  | Chan.SendBlocks => Blocks
  | Chan.SendPanics => Crashes
  end.

(** [closeFn] up to its blocking point: [close(logger.msgChan)]. *)
Definition closeFn_close (s : System) : outcome :=
  match Chan.close (msgChan (lg s)) with
  | Some c => Steps (mkSys (set_chan c (lg s)) (os s) (worker s) (sweeps s)) []
  | None => Crashes
  end.

(** [closeFn] from [logger.wg.Wait()] on: it blocks while the counter is
    positive, then flushes, closes and returns. *)
Definition closeFn_wait (s : System) : outcome :=
  if (0 <? wg (lg s))%Z then Blocks
  else
    let '(l1, o1) := flushWriter (lg s) (os s) in
    let o2 := closeFile l1 o1 in
    Steps (mkSys l1 (print (LoggerClosed (filePrefix l1)) o2) (worker s) (sweeps s)) [].

Definition workerExit (k : exit_kind) (s : System)
    (delivered : list (Time * string)) : outcome :=
  match runWorker_exit k (lg s) (os s) with
  | Some (l, o) => Steps (mkSys l o (Exited k) (sweeps s)) delivered
  | None => Crashes
  end.

Definition spawn (b : bool) (n : nat) : nat := if b then S n else n.

(** The worker takes the channel case of its [select]. *)
Definition workerRecv (now : Time) (s : System) : outcome :=
  match worker s with
  | Exited _ => Blocks
  | Running =>
      match Chan.recv (msgChan (lg s)) with
      | Chan.RecvBlocks => Blocks
      | Chan.RecvClosed => workerExit Returned s []
      | Chan.Received msg c =>
          match onMessage now msg (set_chan c (lg s)) (os s) with
          | Continue l o sp =>
              Steps (mkSys l o Running (spawn sp (sweeps s))) [(now, msg)]
          | Panics l o sp =>
              workerExit Panicked (mkSys l o Running (spawn sp (sweeps s)))
                         [(now, msg)]
          end
      end
  end.

(** The worker takes the ticker case of its [select]. *)
Definition workerTick (s : System) : outcome :=
  match worker s with
  | Exited _ => Blocks
  | Running =>
      let '(l, o) := onTick (lg s) (os s) in
      Steps (mkSys l o Running (sweeps s)) []
  end.

(** A started [go l.cleanOldLogs()] runs. *)
Definition sweepRun (now : Time) (s : System) : outcome :=
  match sweeps s with
  | 0 => Blocks
  | S n => Steps (mkSys (lg s) (cleanOldLogs now (lg s) (os s)) (worker s) n) []
  end.

(** The moves of the goroutines around one stream. *)
Inductive action :=
| Emit (rendered : string)
| Recv (now : Time)
| Tick
| Close
| Wait
| Sweep (now : Time).

Definition step (a : action) (s : System) : outcome :=
  match a with
  | Emit m => logFn m s
  | Recv now => workerRecv now s
  | Tick => workerTick s
  | Close => closeFn_close s
  | Wait => closeFn_wait s
  | Sweep now => sweepRun now s
  end.

(** An interleaving in which every move completes; the result carries
    the messages handed to the worker, with the time each was taken. *)
Fixpoint exec (tr : list action) (s : System)
  : option (System * list (Time * string)) :=
  match tr with
  | [] => Some (s, [])
  | a :: tr' =>
      match step a s with
      | Steps s' d =>
          match exec tr' s' with
          | Some (s'', ds) => Some (s'', d ++ ds)
          | None => None
          end
      | _ => None
      end
  end.

(** The rendered messages the queue accepted, in order. *)
Definition accepted (tr : list action) : list string :=
  omap (λ a, match a with Emit m => Some m | _ => None end) tr.

End Logger.

Import GoStrings GoTime GoOS Bufio Logger.

(* ===================================================================== *)
(** * Notions used in the statements, and concrete scenarios              *)
(* ===================================================================== *)

(** What the loop body decides for an entry: a regular file whose name
    passes the checks and whose date characters are below the cutoff. *)
Definition expired (prefix cutoff name : string) (nd : node) : bool :=
  match nd with
  | Dir => false
  | File _ =>
      match fileDate prefix name with
      | Some ds => lt ds cutoff
      | None => false
      end
  end.

(** A stream [AppLog] with 30 days of retention, on the first of March
    2025, over a directory with two dated logs. *)
Definition retention_logger : internalLogger :=
  mkLogger (Chan.make 1000) 0 None None "c:\log" "AppLog" "" 30.

Definition march_first : Time := mkTime 2025 3 1 9 5 7.

Definition retention_dir : gmap string node :=
  <["AppLog_20250129.txt" := File "old"]> (<["AppLog_20250131.txt" := File "new"]> ∅).

Definition retention_os : OS := mkOS (Some retention_dir) true ∅ 3 [] [].

(** The fields of the logger that only [newLogFunc] sets, the channel and
    the wait-group counter are the same in [l'] as in [l]. *)
Definition same_config (l l' : internalLogger) : Prop :=
  msgChan l' = msgChan l ∧ wg l' = wg l ∧ dirPath l' = dirPath l ∧
  filePrefix l' = filePrefix l ∧ retentionDays l' = retentionDays l.

Definition iteration_logger (it : iteration) : internalLogger :=
  match it with Continue l _ _ | Panics l _ _ => l end.

(** What holds of a stream from [newLogFunc] on: the queue keeps its
    capacity, the writer pointer is never nil again, and the counter of
    the wait group tells whether the worker still runs; the worker leaves
    only by [return], with the queue closed and empty. *)
Definition wf (s : System) : Prop :=
  Chan.ccap (msgChan (lg s)) = 1000 ∧
  length (Chan.cbuf (msgChan (lg s))) ≤ 1000 ∧
  is_Some (writer (lg s)) ∧
  match worker s with
  | Running => wg (lg s) = 1%Z
  | Exited Returned =>
      wg (lg s) = 0%Z ∧ Chan.cbuf (msgChan (lg s)) = [] ∧
      Chan.cclosed (msgChan (lg s)) = true
  | Exited Panicked => False
  end.

(** An empty machine: no log directory yet, descriptors from 3 on. *)
Definition fresh_os : OS := mkOS None true ∅ 3 [] [].

(** A logger whose [file] is set while its [writer] is nil: the state in
    which line 194 dereferences a nil pointer. *)
Definition torn_stream : System :=
  mkSys (mkLogger (Chan.mkChan ["x"] 1000 false) 1 (Some 3) None
                  "c:\log" "AppLog" "20250301" 30)
        (mkOS (Some (<["AppLog_20250301.txt" := File ""]> ∅)) true
              (<[3 := "AppLog_20250301.txt"]> ∅) 4 [] [])
        Running 0.

(** The file behind a writer and the bytes it holds or will hold after
    the next flush: its content followed by the buffered bytes. *)
Definition logical (w : Writer) (o : OS) : option (string * string) :=
  match fds o !! wfd w with
  | Some name =>
      match content o name with
      | Some c => Some (name, c +:+ wbuf w)
      | None => None
      end
  | None => None
  end.

(** The same for the logger, when its file and its writer are one healthy
    descriptor. *)
Definition pending (l : internalLogger) (o : OS) : option (string * string) :=
  match file l, writer l with
  | Some f, Some w =>
      if (wfd w =? f) && negb (werr w) then logical w o else None
  | _, _ => None
  end.

(** The lines of the delivered messages, in order. *)
Definition rendered (d : list (Time * string)) : string :=
  foldr (λ e acc, logLine (Format_stamp e.1) e.2 +:+ acc) "" d.


Definition is_wait (a : action) : bool :=
  match a with Wait => true | _ => false end.

(** The write a flush issues: none on a nil, failed or empty writer. *)
Definition flushCalls (w : option Writer) : list syscall :=
  match w with
  | Some w =>
      if werr w || (Buffered w =? 0) then [] else [SysWrite (wfd w) (wbuf w)]
  | None => []
  end.

Definition closeCalls (f : option nat) : list syscall :=
  match f with Some f => [SysClose f] | None => [] end.

Definition iteration_os (it : iteration) : OS :=
  match it with Continue _ o _ | Panics _ o _ => o end.

(** The logger's descriptor, when it has one, is open on the file named
    after [currentDate], behind a healthy writer. *)
Definition tied (l : internalLogger) (o : OS) : Prop :=
  ∀ f, file l = Some f →
    fds o !! f = Some (fileName (filePrefix l) (currentDate l)) ∧
    ∃ w, writer l = Some w ∧ wfd w = f ∧ werr w = false.

(** The stream [AppLog] right after construction on an empty machine on
    the first of March 2025, the same with one queued message, and the
    machine after write permission on the directory was revoked. *)
Definition today_log : string := "AppLog_20250301.txt".

Definition started_os : OS :=
  mkOS (Some {[today_log := File ""]}) true {[3 := today_log]} 4
       [LoggerStarted "AppLog" 30]
       [SysMkdirAll; SysReadDir; SysMkdirAll; SysOpen today_log].

Definition started_logger (queue : list string) : internalLogger :=
  mkLogger (Chan.mkChan queue 1000 false) 1 (Some 3) (Some (NewWriter 3))
           "c:\log" "AppLog" "20250301" 30.

Definition started_stream : System := mkSys (started_logger []) started_os Running 0.

Definition queued_stream : System :=
  mkSys (started_logger ["next day"]) started_os Running 0.

Definition revoked_os : OS :=
  mkOS (dir started_os) false (fds started_os) 4 (console started_os) (calls started_os).

Definition march_second : Time := mkTime 2025 3 2 0 0 1.

(** A started logger with three bytes waiting in its buffer. *)
Definition buffered_logger : internalLogger :=
  mkLogger (Chan.make 1000) 1 (Some 3) (Some (mkWriter 3 "abc" false))
           "c:\log" "AppLog" "20250301" 30.

(** Calendar order of the dates of two clock readings. *)
Definition date_before (a b : Time) : Prop :=
  (year a < year b)%Z ∨
  (year a = year b ∧ (month a < month b ∨ (month a = month b ∧ day a < day b))).

(** All bytes handed to [Write], in the order of the calls. *)
Definition written (cs : list syscall) : string :=
  foldr (λ c acc, match c with SysWrite _ data => data +:+ acc | _ => acc end) "" cs.


(** One stream without the machine it runs on, and the program state
    behind the package-level variables [AppLog]/[CloseAppLog] and
    [CommLog]/[CloseCommLog]: two streams over one machine. *)
Record Stream := mkStream {
  slg : internalLogger;
  sworker : status;
  ssweeps : nat
}.

Record Program := mkProgram {
  appLog : Stream;
  commLog : Stream;
  machine : OS
}.

Definition detach (s : System) : Stream := mkStream (lg s) (worker s) (sweeps s).

Inductive init_outcome :=
| InitPanics (prefix : string) (why : init_error) (o : OS)
| InitDone (p : Program).

(** [func init()].  [t1], [t2] are the clock readings of the first
    [newLogFunc] call and [t3], [t4] those of the second.  The worker of
    [AppLog] already runs during the second call; its queue is empty, and
    a tick on an empty buffer changes nothing ([onTick_idle]). *)
Definition init (t1 t2 t3 t4 : Time) (o : OS) : init_outcome :=
  match newLogFunc "c:\log" "AppLog" 60 t1 t2 o with
  | InitPanic why o1 => InitPanics "AppLog" why o1
  | InitOk sa =>
      match newLogFunc "c:\log" "CommLog" 30 t3 t4 (os sa) with
      | InitPanic why o2 => InitPanics "CommLog" why o2
      | InitOk sc => InitDone (mkProgram (detach sa) (detach sc) (os sc))
      end
  end.

(** The two streams of the program. *)
Inductive which := App | Comm.

#[global] Instance which_eq_dec : EqDecision which.
Proof. solve_decision. Defined.

Definition stream_of (w : which) (p : Program) : Stream :=
  match w with App => appLog p | Comm => commLog p end.

(** Stream [w] of the program together with the machine. *)
Definition attach (w : which) (p : Program) : System :=
  mkSys (slg (stream_of w p)) (machine p) (sworker (stream_of w p))
        (ssweeps (stream_of w p)).

Definition put (w : which) (s : System) (p : Program) : Program :=
  match w with
  | App => mkProgram (detach s) (commLog p) (os s)
  | Comm => mkProgram (appLog p) (detach s) (os s)
  end.

(** A move of a goroutine of stream [m.1]; [None] when it blocks or ends
    the process. *)
Definition pstep (m : which * action) (p : Program) : option Program :=
  match step m.2 (attach m.1 p) with
  | Steps s _ => Some (put m.1 s p)
  | _ => None
  end.

(** An interleaving of the goroutines of both streams. *)
Fixpoint prun (tr : list (which * action)) (p : Program) : option Program :=
  match tr with
  | [] => Some p
  | m :: tr' =>
      match pstep m p with
      | Some p' => prun tr' p'
      | None => None
      end
  end.

(** [func CloseAllLogs()], as the moves of the goroutine that calls it:
    [init] has assigned both closers, so both nil tests pass; each
    closer is [closeFn], split at [wg.Wait()]. *)
Definition CloseAllLogs : list (which * action) :=
  [(Comm, Close); (Comm, Wait); (App, Close); (App, Wait)].

(** The moves of stream [w]'s worker that empty a queue of [n] messages
    and then see the closed channel. *)
Definition drain (w : which) (now : Time) (n : nat) : list (which * action) :=
  repeat (w, Recv now) (S n).

Definition queue (w : which) (p : Program) : list string :=
  Chan.cbuf (msgChan (slg (stream_of w p))).

(** The moves [main] of one goroutine with, before each [Wait], the
    moves of that stream's worker that empty the queue as it is in [p]. *)
Definition with_drains (now : Time) (p : Program) (main : list (which * action))
  : list (which * action) :=
  flat_map (λ m, if is_wait m.2
                 then drain m.1 now (length (queue m.1 p)) ++ [m]
                 else [m]) main.

Definition stream_name (w : which) : string :=
  match w with App => "AppLog" | Comm => "CommLog" end.

(** Both streams are well formed. *)
Definition pwf (p : Program) : Prop := ∀ w, wf (attach w p).

(** What a logger holds of the machine: its descriptors were handed out
    before the next one the machine will hand out, and a descriptor its
    writer still has open is on a file named with its prefix. *)
Definition owns (l : internalLogger) (o : OS) : Prop :=
  (∀ f, file l = Some f → f < next_fd o) ∧
  (∀ w, writer l = Some w →
     wfd w < next_fd o ∧
     ∀ n, fds o !! wfd w = Some n → HasPrefix n (filePrefix l +:+ "_") = true).

(** What code of a stream with prefix [pfx] that holds descriptor [c]
    may do to the machine: hand out new descriptors, close [c], and
    change entries whose name starts with [pfx_]. *)
Definition touches (pfx : string) (c : option nat) (o o' : OS) : Prop :=
  next_fd o ≤ next_fd o' ∧
  (∀ g, g < next_fd o →
     fds o' !! g = fds o !! g ∨ (c = Some g ∧ fds o' !! g = None)) ∧
  (∀ n, HasPrefix n (pfx +:+ "_") = false → entry o' n = entry o n).





Example Format_date_ex :
  GoTime.Format_date (GoTime.mkTime 2025 3 1 9 5 7) = "20250301".
Proof. reflexivity. Qed.

Example Format_stamp_ex :
  GoTime.Format_stamp (GoTime.mkTime 2025 3 1 9 5 7) = "2025-03-01 09:05:07".
Proof. reflexivity. Qed.

Example AddDate_ex :
  GoTime.Format_date (GoTime.AddDate (GoTime.mkTime 2025 3 1 0 0 0) (-30)) = "20250130".
Proof. reflexivity. Qed.

(* ===================================================================== *)
(** * Facts about strings and time layouts                                *)
(* ===================================================================== *)

Section StringFacts.
Local Arguments String.append : simpl nomatch.
Implicit Types a b c s : string.

Lemma str_length_app a b : String.length (a +:+ b) = String.length a + String.length b.
Proof. induction a as [|x a IH]; simpl; [done | by rewrite IH]. Qed.

Lemma str_app_assoc a b c : (a +:+ b) +:+ c = a +:+ (b +:+ c).
Proof. induction a as [|x a IH]; simpl; [done | by rewrite IH]. Qed.

Lemma str_app_empty_r a : a +:+ "" = a.
Proof. induction a as [|x a IH]; simpl; [done | by rewrite IH]. Qed.

Lemma substring_zero_app a b n :
  String.substring 0 (String.length a + n) (a +:+ b) = a +:+ String.substring 0 n b.
Proof. induction a as [|x a IH]; simpl; [done | by rewrite IH]. Qed.

Lemma substring_skip_app a b n m :
  String.substring (String.length a + n) m (a +:+ b) = String.substring n m b.
Proof. induction a as [|x a IH]; simpl; [done | by rewrite IH]. Qed.

Lemma substring_zero_zero s : String.substring 0 0 s = "".
Proof. by destruct s. Qed.

Lemma substring_all s : String.substring 0 (String.length s) s = s.
Proof. induction s as [|x s IH]; simpl; [done | by rewrite IH]. Qed.

Lemma substring_split s n :
  String.substring 0 n s +:+ String.substring n (String.length s - n) s = s.
Proof.
  revert n. induction s as [|x s IH]; intros [|n]; simpl; try done.
  - by rewrite substring_all.
  - by rewrite IH.
Qed.

Lemma ascii_compare_refl x : Ascii.compare x x = Eq.
Proof. unfold Ascii.compare. apply N.compare_refl. Qed.

Lemma compare_refl s : String.compare s s = Eq.
Proof. induction s as [|x s IH]; simpl; [done | by rewrite ascii_compare_refl]. Qed.

(** Two strings that start with parts of equal length compare by those
    parts first. *)
Lemma compare_app a a' b b' :
  String.length a = String.length a' →
  String.compare (a +:+ b) (a' +:+ b') =
    match String.compare a a' with Eq => String.compare b b' | r => r end.
Proof.
  revert a'. induction a as [|x a IH]; intros [|x' a'] Hlen; simpl in *; try done.
  destruct (Ascii.compare x x'); try done. apply IH. lia.
Qed.


Lemma ltb_irrefl a : String.ltb a a = false.
Proof. unfold String.ltb. by rewrite compare_refl. Qed.
End StringFacts.

Section TimeFacts.
Local Arguments String.append : simpl nomatch.

Lemma length_fixed w n : String.length (fixed w n) = w.
Proof.
  revert n. induction w as [|w IH]; intros n; cbn [fixed]; [done|].
  rewrite str_length_app, IH. simpl. lia.
Qed.

Lemma digit_lt a b :
  a < 10 → b < 10 → a < b →
  Ascii.compare (ascii_of_nat (48 + a)) (ascii_of_nat (48 + b)) = Lt.
Proof.
  intros Ha Hb Hab.
  do 10 (destruct a as [|a]; [do 10 (destruct b as [|b]; [first [reflexivity | lia] |]); lia |]).
  lia.
Qed.

Lemma div10_lt n k : n < 10 * k → n / 10 < k.
Proof. intros H. apply Nat.Div0.div_lt_upper_bound. lia. Qed.

(** Fixed-width decimal rendering is strictly monotone for the byte
    order. *)
Lemma fixed_lt w n m :
  n < m → m < 10 ^ w → String.compare (fixed w n) (fixed w m) = Lt.
Proof.
  revert n m. induction w as [|w IH]; intros n m Hnm Hm.
  { simpl in Hm. lia. }
  rewrite Nat.pow_succ_r' in Hm. cbn [fixed].
  rewrite compare_app by (by rewrite !length_fixed).
  pose proof (Nat.div_mod_eq n 10) as Hn10.
  pose proof (Nat.div_mod_eq m 10) as Hm10.
  pose proof (Nat.mod_upper_bound n 10) as Hnb.
  pose proof (Nat.mod_upper_bound m 10) as Hmb.
  destruct (decide (n / 10 < m / 10)) as [Hlt|Hge].
  - rewrite IH; [done | done |]. by apply div10_lt.
  - assert (n / 10 = m / 10) as Heq by lia.
    rewrite Heq, compare_refl. unfold digit.
    change (String.compare (String ?x "") (String ?y "")) with
      (match Ascii.compare x y with Eq => Eq | r => r end).
    rewrite digit_lt; [done | lia | lia | lia].
Qed.

Lemma fixed_zero w : fixed w 0 = zeros w.
Proof.
  induction w as [|w IH]; cbn [fixed]; [done|].
  change (0 / 10) with 0. rewrite IH. clear IH.
  induction w as [|w IH]; simpl; [done | by rewrite IH].
Qed.

Lemma fixed_pad j k n : n < 10 ^ k → fixed (j + k) n = zeros j +:+ fixed k n.
Proof.
  revert n. induction k as [|k IH]; intros n Hn.
  - simpl in Hn. assert (n = 0) as -> by lia.
    rewrite Nat.add_0_r, fixed_zero. simpl. by rewrite str_app_empty_r.
  - rewrite Nat.add_succ_r. cbn [fixed]. rewrite Nat.pow_succ_r' in Hn.
    rewrite IH, str_app_assoc; [done|]. by apply div10_lt.
Qed.

Lemma ndigits_aux_bound f n : n ≤ f → n < 10 ^ ndigits_aux f n.
Proof.
  revert n. induction f as [|f IH]; intros n Hn; cbn [ndigits_aux].
  - simpl. lia.
  - destruct (Nat.ltb_spec n 10) as [Hlt|Hge]; [simpl; lia|].
    pose proof (Nat.div_mod_eq n 10). pose proof (Nat.mod_upper_bound n 10).
    assert (n / 10 ≤ f) as Hdiv by lia.
    specialize (IH _ Hdiv). rewrite Nat.pow_succ_r'. lia.
Qed.

Lemma ndigits_aux_le f n w : 0 < w → n < 10 ^ w → ndigits_aux f n ≤ w.
Proof.
  revert n w. induction f as [|f IH]; intros n w Hw Hn; cbn [ndigits_aux]; [lia|].
  destruct (Nat.ltb_spec n 10) as [Hlt|Hge]; [lia|].
  destruct w as [|[|w]]; [lia | simpl in Hn; lia |].
  rewrite Nat.pow_succ_r' in Hn.
  pose proof (div10_lt _ _ Hn) as Hdiv.
  specialize (IH (n / 10) (S w)). lia.
Qed.

(** Within its width, [appendInt] is the fixed-width rendering. *)
Lemma appendInt_fixed w n :
  0 < w → n < 10 ^ w → appendInt (Z.of_nat n) w = fixed w n.
Proof.
  intros Hw Hn. unfold appendInt, utoa.
  replace (Z.of_nat n <? 0)%Z with false by (symmetry; apply Z.ltb_ge; lia).
  rewrite Zabs2Nat.id.
  pose proof (ndigits_aux_le n n w Hw Hn) as Hle.
  pose proof (ndigits_aux_bound n n (Nat.le_refl n)) as Hb.
  fold (ndigits n) in *.
  change ("" +:+ ?x) with x.
  rewrite <- fixed_pad by done. f_equal. lia.
Qed.
End TimeFacts.

Section CalendarFacts.
Implicit Types t : Time.

Lemma days_in_bounds y m : 28 ≤ days_in y m ≤ 31.
Proof.
  unfold days_in. destruct (is_leap y).
  all: do 12 (destruct m as [|m]; [lia|]); lia.
Qed.

Lemma valid_spec t :
  valid t = true →
  1 ≤ month t ≤ 12 ∧ 1 ≤ day t ≤ days_in (year t) (month t) ∧
  hour t < 24 ∧ minute t < 60 ∧ second t < 60.
Proof.
  unfold valid. rewrite !andb_true_iff, !Nat.leb_le, !Nat.ltb_lt. lia.
Qed.






Lemma lt_pow4 y : (0 ≤ y ≤ 9999)%Z → Z.to_nat y < 10 ^ 4.
Proof.
  intros Hy. apply Nat2Z.inj_lt. rewrite Z2Nat.id, Nat2Z.inj_pow by lia.
  change (Z.of_nat 10 ^ Z.of_nat 4)%Z with 10000%Z. lia.
Qed.

Lemma lt_pow2 n : n < 100 → n < 10 ^ 2.
Proof. change (10 ^ 2) with 100. lia. Qed.

(** Dates of four-digit years print as eight fixed-width digits. *)
Lemma Format_date_fixed t :
  valid t = true → (0 ≤ year t ≤ 9999)%Z →
  Format_date t =
    fixed 4 (Z.to_nat (year t)) +:+ fixed 2 (month t) +:+ fixed 2 (day t).
Proof.
  intros (Hm & Hd & _)%valid_spec Hy. unfold Format_date.
  pose proof (days_in_bounds (year t) (month t)).
  rewrite <- (Z2Nat.id (year t)) at 1 by lia.
  rewrite !appendInt_fixed; [done | lia | apply lt_pow2; lia | lia | apply lt_pow2; lia | lia | by apply lt_pow4].
Qed.


(** Year, month, day in fixed width compare like the triple. *)
Lemma date_compare y m d y' m' d' :
  y' < 10 ^ 4 → m' < 100 → d' < 100 →
  y < y' ∨ (y = y' ∧ (m < m' ∨ (m = m' ∧ d < d'))) →
  String.compare (fixed 4 y +:+ fixed 2 m +:+ fixed 2 d)
                 (fixed 4 y' +:+ fixed 2 m' +:+ fixed 2 d') = Lt.
Proof.
  intros Hy Hm Hd Hlt.
  rewrite !compare_app by (by rewrite !length_fixed).
  destruct Hlt as [Hlt | [-> [Hlt | [-> Hlt]]]].
  - by rewrite fixed_lt.
  - rewrite compare_refl, fixed_lt; [done | done | by apply lt_pow2].
  - rewrite !compare_refl, fixed_lt; [done | done | by apply lt_pow2].
Qed.

End CalendarFacts.

Section SliceFacts.
Implicit Types a b c s : string.

Lemma substring_prefix a b : String.substring 0 (String.length a) (a +:+ b) = a.
Proof.
  rewrite <- (Nat.add_0_r (String.length a)).
  by rewrite substring_zero_app, substring_zero_zero, str_app_empty_r.
Qed.

Lemma substring_suffix a b :
  String.substring (String.length a) (String.length b) (a +:+ b) = b.
Proof.
  rewrite <- (Nat.add_0_r (String.length a)).
  by rewrite substring_skip_app, substring_all.
Qed.

Lemma substring_mid a b c :
  String.substring (String.length a) (String.length b) (a +:+ b +:+ c) = b.
Proof.
  rewrite <- (Nat.add_0_r (String.length a)).
  by rewrite substring_skip_app, substring_prefix.
Qed.

Lemma HasPrefix_app a b : HasPrefix (a +:+ b) a = true.
Proof.
  unfold HasPrefix, slice, len. rewrite str_length_app, Nat.sub_0_r, substring_prefix.
  rewrite String.eqb_refl, andb_true_r. apply Nat.leb_le. lia.
Qed.

Lemma HasSuffix_app a b : HasSuffix (a +:+ b) b = true.
Proof.
  unfold HasSuffix, slice, len. rewrite str_length_app.
  replace (String.length a + String.length b - String.length b) with (String.length a) by lia.
  replace (String.length a + String.length b - String.length a) with (String.length b) by lia.
  rewrite substring_suffix, String.eqb_refl, andb_true_r. apply Nat.leb_le. lia.
Qed.

End SliceFacts.

(* ===================================================================== *)
(** * The retention sweep                                                 *)
(* ===================================================================== *)

Section SweepFacts.
Variables (l : internalLogger) (cutoff : string).

Lemma sweepEntry_dir o d name nd :
  dir o = Some d → perm o = true → d !! name = Some nd →
  let o' := sweepEntry l cutoff o (name, is_dir nd) in
  perm o' = true ∧ fds o' = fds o ∧
  dir o' = Some (if expired (filePrefix l) cutoff name nd then delete name d else d).
Proof.
  intros Hd Hp Hn. unfold sweepEntry, expired.
  destruct nd as [|c]; simpl; [done|].
  destruct (fileDate (filePrefix l) name) as [ds|]; [|done].
  destruct (lt ds cutoff); [|done].
  unfold Remove. simpl. rewrite Hd, Hn, Hp. done.
Qed.

Lemma sweep_fold es : ∀ o d,
  dir o = Some d → perm o = true → NoDup es.*1 →
  (∀ name nd, (name, nd) ∈ es → d !! name = Some nd) →
  ∃ d', dir (foldl (sweepEntry l cutoff) o (map (λ e, (e.1, is_dir e.2)) es)) = Some d' ∧
    ∀ name, d' !! name =
      match d !! name with
      | Some nd =>
          if bool_decide ((name, nd) ∈ es) && expired (filePrefix l) cutoff name nd
          then None else Some nd
      | None => None
      end.
Proof.
  induction es as [|[n nd] es IH]; intros o d Hd Hp Hnd Hin.
  - exists d. split; [done|]. intros name. destruct (d !! name); [|done].
    rewrite bool_decide_eq_false_2; [done | set_solver].
  - simpl in Hnd. apply NoDup_cons in Hnd as [Hnotin Hnd].
    assert (d !! n = Some nd) as Hn by (apply Hin; set_solver).
    destruct (sweepEntry_dir o d n nd Hd Hp Hn) as (Hp' & _ & Hd').
    cbn [map foldl fst snd].
    destruct (IH _ _ Hd' Hp' Hnd) as (d' & Hres & Hlook).
    { intros name nd' Hel.
      assert (name ≠ n) as Hne.
      { intros ->. apply Hnotin. apply list_elem_of_fmap. by exists (n, nd'). }
      destruct (expired _ _ n nd); [rewrite lookup_delete_ne by done|];
        apply Hin; set_solver. }
    exists d'. split; [done|]. intros name. rewrite Hlook.
    destruct (decide (name = n)) as [->|Hne].
    + rewrite Hn. destruct (expired (filePrefix l) cutoff n nd) eqn:He.
      * rewrite lookup_delete_eq. rewrite bool_decide_eq_true_2 by set_solver. done.
      * rewrite Hn, He, !andb_false_r. done.
    + assert ((if expired (filePrefix l) cutoff n nd then delete n d else d) !! name
              = d !! name) as ->.
      { destruct (expired _ _ n nd); [by rewrite lookup_delete_ne | done]. }
      destruct (d !! name) as [nd'|]; [|done].
      assert (bool_decide ((name, nd') ∈ (n, nd) :: es) = bool_decide ((name, nd') ∈ es)) as ->.
      { apply bool_decide_ext. rewrite elem_of_cons.
        split; [intros [?|?]; [congruence | done] | by right]. }
      done.
Qed.

(** The sweep over a listed directory removes exactly the expired
    entries and leaves every other entry as it was. *)
Lemma sweep_listing o d :
  dir o = Some d → perm o = true →
  ∃ d', dir (foldl (sweepEntry l cutoff) o
               (map (λ e, (e.1, is_dir e.2)) (map_to_list d))) = Some d' ∧
    ∀ name, d' !! name =
      match d !! name with
      | Some nd => if expired (filePrefix l) cutoff name nd then None else Some nd
      | None => None
      end.
Proof.
  intros Hd Hp.
  destruct (sweep_fold (map_to_list d) o d Hd Hp) as (d' & Hres & Hlook).
  - apply NoDup_fst_map_to_list.
  - intros name nd. apply elem_of_map_to_list.
  - exists d'. split; [done|]. intros name. rewrite Hlook.
    destruct (d !! name) as [nd|] eqn:Hn; [|done].
    rewrite bool_decide_eq_true_2; [done | by apply elem_of_map_to_list].
Qed.
End SweepFacts.





(** C4. The sweep removes regular files whose names are not of the shape
    [prefix_YYYYMMDD.txt]: a name with extra characters between the date
    and the extension, and a name whose date characters are not digits. *)
Theorem cleanOldLogs_removes_misnamed :
  let o := mkOS (Some (<["AppLog_20200101_backup.txt" := File "notes"]>
                         (<["AppLog_1999XXXX.txt" := File "data"]> ∅)))
                true ∅ 3 [] [] in
  let o' := cleanOldLogs march_first retention_logger o in
  entry o "AppLog_20200101_backup.txt" = Some (File "notes") ∧
  entry o "AppLog_1999XXXX.txt" = Some (File "data") ∧
  entry o' "AppLog_20200101_backup.txt" = None ∧
  entry o' "AppLog_1999XXXX.txt" = None ∧
  calls o' = [SysReadDir; SysRemove "AppLog_1999XXXX.txt";
              SysRemove "AppLog_20200101_backup.txt"].
Proof. vm_compute. repeat split; reflexivity. Qed.

Section FrameFacts.
Implicit Types (l : internalLogger) (o : OS).

Lemma same_config_refl l : same_config l l.
Proof. by repeat split. Qed.

Lemma same_config_trans l1 l2 l3 :
  same_config l1 l2 → same_config l2 l3 → same_config l1 l3.
Proof. unfold same_config. intros (?&?&?&?&?) (?&?&?&?&?). repeat split; congruence. Qed.

Lemma flushWriter_config l o :
  same_config l (flushWriter l o).1 ∧ file (flushWriter l o).1 = file l ∧
  currentDate (flushWriter l o).1 = currentDate l ∧
  (is_Some (writer l) → is_Some (writer (flushWriter l o).1)) ∧
  (writer l = None → flushWriter l o = (l, o)).
Proof.
  unfold flushWriter. destruct (writer l) as [w|] eqn:Hw.
  - destruct (Flush w o) as [w' o']. simpl. repeat split; eauto. done.
  - simpl. rewrite Hw. repeat split; eauto.
Qed.

Lemma openFile_config t l o :
  same_config l (openFile t l o).1.2 ∧
  (is_Some (writer l) → is_Some (writer (openFile t l o).1.2)).
Proof.
  unfold openFile. destruct (OpenFile _ _) as [[e|f] o2]; simpl; [by repeat split|].
  repeat split; eauto.
Qed.

Lemma rotate_config now l o :
  same_config l (rotate now l o).1.2 ∧
  (is_Some (writer l) → is_Some (writer (rotate now l o).1.2)).
Proof.
  unfold rotate.
  destruct (flushWriter_config l o) as (Hc & _ & _ & Hw & _).
  destruct (flushWriter l o) as [l1 o1]. simpl in *.
  destruct (openFile_config now (set_file None l1) (closeFile l1 o1)) as (Hc' & Hw').
  split.
  - eapply same_config_trans; [exact Hc|].
    eapply same_config_trans; [|exact Hc']. by repeat split.
  - intros H. apply Hw'. simpl. by apply Hw.
Qed.

Lemma writeLine_config now msg l o sp :
  same_config l (iteration_logger (writeLine now msg l o sp)) ∧
  (is_Some (writer l) →
   ∃ l' o', writeLine now msg l o sp = Continue l' o' sp ∧ is_Some (writer l')).
Proof.
  unfold writeLine. destruct (writer l) as [w|].
  - destruct (WriteString _ w o) as [w' o']. simpl. split; [by repeat split|].
    intros _. eauto.
  - simpl. split; [by repeat split|]. by intros [? ?].
Qed.

(** One message never touches the channel, the counter or the
    configuration; with a writer in place it cannot panic. *)
Lemma onMessage_config now msg l o :
  same_config l (iteration_logger (onMessage now msg l o)) ∧
  (is_Some (writer l) →
   ∃ l' o' sp, onMessage now msg l o = Continue l' o' sp ∧ is_Some (writer l')).
Proof.
  unfold onMessage. destruct (needsRotation now l).
  - destruct (rotate_config now l o) as (Hc & Hw).
    destruct (rotate now l o) as [[[e|] l3] o3]; simpl in *.
    + split; [done|]. intros H. eexists _, _, _. split; [reflexivity | by apply Hw].
    + destruct (writeLine_config now msg l3
                  (print (DateChanged (currentDate l3)) o3) true) as (Hc' & Hw').
      split; [by eapply same_config_trans|].
      intros H. destruct (Hw' (Hw H)) as (l' & o' & -> & ?). eauto.
  - destruct (writeLine_config now msg l o false) as (Hc' & Hw').
    split; [done|]. intros H. destruct (Hw' H) as (l' & o' & -> & ?). eauto.
Qed.

Lemma onTick_config l o :
  same_config l (onTick l o).1 ∧
  (is_Some (writer l) → is_Some (writer (onTick l o).1)).
Proof.
  unfold onTick. destruct (writer l) as [w|] eqn:Hw.
  - destruct (0 <? Buffered w).
    + destruct (Flush w o) as [w' o']. simpl. repeat split; eauto.
    + simpl. rewrite Hw. split; [apply same_config_refl | done].
  - simpl. split; [apply same_config_refl | by intros [? ?]].
Qed.
End FrameFacts.

Section SystemFacts.
Implicit Types (s : System) (tr : list action).

Lemma runWorker_exit_config k l o l' o' :
  runWorker_exit k l o = Some (l', o') →
  msgChan l' = msgChan l ∧ wg l' = (wg l - 1)%Z ∧ (0 < wg l)%Z ∧
  (is_Some (writer l) → is_Some (writer l')).
Proof.
  unfold runWorker_exit, recoverHandler, wg_Done. intros H.
  destruct k.
  - destruct (Z.ltb_spec (wg l - 1) 0); simplify_eq. simpl. repeat split; auto; lia.
  - destruct (flushWriter_config l o) as ((Hc & Hg & _) & _ & _ & Hw & _).
    destruct (flushWriter l o) as [l1 o1]. simpl in *.
    destruct (Z.ltb_spec (wg l1 - 1) 0); simplify_eq. simpl.
    repeat split; auto; lia.
Qed.

Lemma runWorker_exit_runs k l o :
  (0 < wg l)%Z → ∃ l' o', runWorker_exit k l o = Some (l', o').
Proof.
  intros Hwg. unfold runWorker_exit, recoverHandler, wg_Done.
  destruct k.
  - destruct (Z.ltb_spec (wg l - 1) 0); [lia | eauto].
  - destruct (flushWriter_config l o) as ((_ & Hg & _) & _).
    destruct (flushWriter l o) as [l1 o1]. simpl in *.
    destruct (Z.ltb_spec (wg l1 - 1) 0); [lia | eauto].
Qed.

Lemma closeFn_wait_config s s' d :
  closeFn_wait s = Steps s' d →
  same_config (lg s) (lg s') ∧ worker s' = worker s ∧ d = [] ∧
  (is_Some (writer (lg s)) → is_Some (writer (lg s'))).
Proof.
  unfold closeFn_wait. destruct (0 <? wg (lg s))%Z; [done|].
  destruct (flushWriter_config (lg s) (os s)) as (Hc & _ & _ & Hw & _).
  destruct (flushWriter (lg s) (os s)) as [l1 o1]. intros ?; simplify_eq. done.
Qed.

(** Every completed move keeps the stream well formed. *)
Lemma step_wf a s s' d : wf s → step a s = Steps s' d → wf s'.
Proof.
  intros (Hcap & Hlen & Hw & Hst) Hstep. destruct a; simpl in Hstep.
  - (* Emit *)
    unfold logFn, Chan.send in Hstep.
    destruct (Chan.cclosed (msgChan (lg s))) eqn:Hcl; [done|].
    destruct (Nat.ltb_spec (length (Chan.cbuf (msgChan (lg s))))
                           (Chan.ccap (msgChan (lg s)))); [|done].
    simplify_eq. unfold wf. simpl. rewrite length_app. simpl.
    repeat split; [done | lia | done |].
    destruct (worker s) as [|[|]]; [done | | done]. destruct Hst as (_ & _ & ?). congruence.
  - (* Recv *)
    unfold workerRecv in Hstep. destruct (worker s) eqn:Hwk; [|done].
    unfold Chan.recv in Hstep.
    destruct (Chan.cbuf (msgChan (lg s))) as [|msg rest] eqn:Hbuf.
    + destruct (Chan.cclosed (msgChan (lg s))) eqn:Hcl; [|done].
      unfold workerExit in Hstep.
      destruct (runWorker_exit Returned (lg s) (os s)) as [[l o]|] eqn:Hex; [|done].
      apply runWorker_exit_config in Hex as (Hch & Hwg & _ & Hw').
      simplify_eq. unfold wf. simpl. rewrite Hch, Hbuf, Hcl.
      repeat split; auto; simpl; lia.
    + set (l0 := set_chan _ (lg s)) in Hstep.
      destruct (onMessage_config now msg l0 (os s)) as ((Hch & Hwg & _) & Hok).
      destruct (Hok Hw) as (l' & o' & sp & Heq & Hw').
      rewrite Heq in Hstep, Hch, Hwg. simpl in Hch, Hwg. simplify_eq.
      unfold wf. simpl. rewrite Hch, Hwg. simpl. simpl in Hlen.
      repeat split; auto; lia.
  - (* Tick *)
    unfold workerTick in Hstep. destruct (worker s) eqn:Hwk; [|done].
    destruct (onTick_config (lg s) (os s)) as ((Hch & Hwg & _) & Hw').
    destruct (onTick (lg s) (os s)) as [l o]. simplify_eq. simpl in *.
    unfold wf. simpl. rewrite Hch, Hwg. auto.
  - (* Close *)
    unfold closeFn_close, Chan.close in Hstep.
    destruct (Chan.cclosed (msgChan (lg s))) eqn:Hcl; [done|].
    simplify_eq. unfold wf. simpl. repeat split; auto.
    destruct (worker s) as [|[|]]; [done | | done]. destruct Hst as (_ & _ & ?). congruence.
  - (* Wait *)
    apply closeFn_wait_config in Hstep as ((Hch & Hwg & _) & Hwk & _ & Hw').
    unfold wf. rewrite Hch, Hwg, Hwk. auto.
  - (* Sweep *)
    unfold sweepRun in Hstep. destruct (sweeps s); [done|]. simplify_eq. done.
Qed.

(** The queue is first in, first out: what was queued and what a move
    accepts is what the move hands to the worker and what stays queued. *)
Lemma step_queue a s s' d :
  step a s = Steps s' d →
  Chan.cbuf (msgChan (lg s)) ++ accepted [a]
  = d.*2 ++ Chan.cbuf (msgChan (lg s')).
Proof.
  intros Hstep. destruct a; simpl in Hstep; unfold accepted; simpl.
  - unfold logFn, Chan.send in Hstep.
    destruct (Chan.cclosed _); [done|]. destruct (_ <? _); [|done]. by simplify_eq.
  - rewrite app_nil_r. unfold workerRecv in Hstep. destruct (worker s); [|done].
    unfold Chan.recv in Hstep.
    destruct (Chan.cbuf (msgChan (lg s))) as [|msg rest] eqn:Hbuf.
    + destruct (Chan.cclosed _); [|done]. unfold workerExit in Hstep.
      destruct (runWorker_exit _ _ _) as [[l o]|] eqn:Hex; [|done].
      apply runWorker_exit_config in Hex as (Hch & _). simplify_eq. simpl.
      by rewrite Hch, Hbuf.
    + set (l0 := set_chan _ (lg s)) in Hstep.
      destruct (onMessage_config now msg l0 (os s)) as ((Hch & _) & _).
      destruct (onMessage now msg l0 (os s)) as [l o sp|l o sp]; simpl in Hch.
      * simplify_eq. simpl. by rewrite Hch.
      * unfold workerExit in Hstep. simpl in Hstep.
        destruct (runWorker_exit _ _ _) as [[l1 o1]|] eqn:Hex; [|done].
        apply runWorker_exit_config in Hex as (Hch1 & _). simplify_eq. simpl.
        by rewrite Hch1, Hch.
  - rewrite app_nil_r. unfold workerTick in Hstep. destruct (worker s); [|done].
    destruct (onTick_config (lg s) (os s)) as ((Hch & _) & _).
    destruct (onTick _ _) as [l o]. simplify_eq. simpl in *. by rewrite Hch.
  - rewrite app_nil_r. unfold closeFn_close, Chan.close in Hstep.
    destruct (Chan.cclosed _); [done|]. by simplify_eq.
  - rewrite app_nil_r.
    apply closeFn_wait_config in Hstep as ((Hch & _) & _ & -> & _). by rewrite Hch.
  - rewrite app_nil_r. unfold sweepRun in Hstep. destruct (sweeps s); [done|].
    by simplify_eq.
Qed.

Lemma exec_cons a tr s r :
  exec (a :: tr) s = Some r →
  ∃ s1 d1 d2, step a s = Steps s1 d1 ∧ exec tr s1 = Some (r.1, d2) ∧ r.2 = d1 ++ d2.
Proof.
  simpl. destruct (step a s) as [s1 d1| |] eqn:Hs; [|done..].
  destruct (exec tr s1) as [[s2 d2]|] eqn:He; [|done]. intros [= <-].
  by exists s1, d1, d2.
Qed.

Lemma exec_wf tr : ∀ s s' d, wf s → exec tr s = Some (s', d) → wf s'.
Proof.
  induction tr as [|a tr IH]; intros s s' d Hwf Hex.
  - simpl in Hex. by simplify_eq.
  - apply exec_cons in Hex as (s1 & d1 & d2 & Hstep & Hex & _).
    eapply IH; [|exact Hex]. by eapply step_wf.
Qed.

Lemma accepted_cons a tr : accepted (a :: tr) = accepted [a] ++ accepted tr.
Proof. unfold accepted. simpl. by destruct a. Qed.

Lemma exec_queue tr : ∀ s s' d,
  exec tr s = Some (s', d) →
  Chan.cbuf (msgChan (lg s)) ++ accepted tr = d.*2 ++ Chan.cbuf (msgChan (lg s')).
Proof.
  induction tr as [|a tr IH]; intros s s' d Hex.
  - simpl in Hex. simplify_eq. simpl. by rewrite app_nil_r.
  - apply exec_cons in Hex as (s1 & d1 & d2 & Hstep & Hex & Hd). simpl in Hd, Hex. subst d.
    rewrite accepted_cons, fmap_app, (assoc_L (++)), (step_queue _ _ _ _ Hstep).
    rewrite <- !(assoc_L (++)). f_equal. by apply IH.
Qed.
End SystemFacts.

Section LifecycleFacts.
Implicit Types (s : System) (tr : list action) (l : internalLogger) (o : OS).

(** A successful [openFile] leaves the logger attached to an open
    descriptor on the existing regular file named after the date of [t]. *)
Lemma openFile_ok t l o l' o' :
  openFile t l o = (None, l', o') →
  ∃ f, l' = set_currentDate (Format_date t)
              (set_writer (Some (NewWriter f)) (set_file (Some f) l)) ∧
       fds o' !! f = Some (fileName (filePrefix l) (Format_date t)) ∧
       is_Some (content o' (fileName (filePrefix l) (Format_date t))).
Proof.
  unfold openFile, OpenFile, content.
  set (name := fileName (filePrefix l) (Format_date t)). intros H.
  destruct (dir (called (SysOpen name) (MkdirAll o).2)) as [d|] eqn:Hd; [|done].
  destruct (negb _); [done|].
  destruct (d !! name) as [[|c]|] eqn:Hn; [done | |]; simplify_eq; eexists;
    (split; [reflexivity|]); simpl.
  - rewrite lookup_insert_eq. split; [done|]. simpl in Hd. rewrite Hd, Hn. eauto.
  - rewrite lookup_insert_eq. split; [done|]. rewrite lookup_insert_eq. eauto.
Qed.

Lemma newLogFunc_wf dirPath prefix ret tc to o s :
  newLogFunc dirPath prefix ret tc to o = InitOk s → wf s.
Proof.
  unfold newLogFunc. destruct (MkdirAll o) as [[e|] o1]; [done|].
  set (logger := mkLogger _ _ _ _ _ _ _ _).
  destruct (openFile to logger _) as [[[e|] l3] o3] eqn:Hop; [done|].
  apply openFile_ok in Hop as (f & -> & _). intros [= <-].
  unfold wf. simpl. repeat split; eauto. lia.
Qed.

Lemma step_closed a s s' d :
  Chan.cclosed (msgChan (lg s)) = true → step a s = Steps s' d →
  Chan.cclosed (msgChan (lg s')) = true ∧ accepted [a] = [].
Proof.
  intros Hcl Hstep. destruct a; simpl in Hstep; unfold accepted; simpl.
  - unfold logFn, Chan.send in Hstep. by rewrite Hcl in Hstep.
  - split; [|done]. unfold workerRecv in Hstep. destruct (worker s); [|done].
    unfold Chan.recv in Hstep.
    destruct (Chan.cbuf (msgChan (lg s))) as [|msg rest] eqn:Hbuf.
    + rewrite Hcl in Hstep. unfold workerExit in Hstep.
      destruct (runWorker_exit _ _ _) as [[l o]|] eqn:Hex; [|done].
      apply runWorker_exit_config in Hex as (Hch & _). simplify_eq. simpl.
      by rewrite Hch.
    + set (l0 := set_chan _ (lg s)) in Hstep.
      destruct (onMessage_config now msg l0 (os s)) as ((Hch & _) & _).
      destruct (onMessage now msg l0 (os s)) as [l o sp|l o sp]; simpl in Hch.
      * simplify_eq. simpl. by rewrite Hch.
      * unfold workerExit in Hstep. simpl in Hstep.
        destruct (runWorker_exit _ _ _) as [[l1 o1]|] eqn:Hex; [|done].
        apply runWorker_exit_config in Hex as (Hch1 & _). simplify_eq. simpl.
        by rewrite Hch1, Hch.
  - split; [|done]. unfold workerTick in Hstep. destruct (worker s); [|done].
    destruct (onTick_config (lg s) (os s)) as ((Hch & _) & _).
    destruct (onTick _ _) as [l o]. simplify_eq. simpl in *. by rewrite Hch.
  - unfold closeFn_close, Chan.close in Hstep. by rewrite Hcl in Hstep.
  - split; [|done].
    apply closeFn_wait_config in Hstep as ((Hch & _) & _). by rewrite Hch.
  - split; [|done]. unfold sweepRun in Hstep. destruct (sweeps s); [done|].
    by simplify_eq.
Qed.

Lemma exec_closed tr : ∀ s s' d,
  Chan.cclosed (msgChan (lg s)) = true → exec tr s = Some (s', d) →
  Chan.cclosed (msgChan (lg s')) = true ∧ accepted tr = [].
Proof.
  induction tr as [|a tr IH]; intros s s' d Hcl Hex.
  - simpl in Hex. by simplify_eq.
  - apply exec_cons in Hex as (s1 & d1 & d2 & Hstep & Hex & _). simpl in Hex.
    destruct (step_closed _ _ _ _ Hcl Hstep) as (Hcl1 & Ha).
    destruct (IH _ _ _ Hcl1 Hex) as (Hcl2 & Htr).
    by rewrite accepted_cons, Ha, Htr.
Qed.

(** Once the worker has left, no move brings it back or touches the
    counter of the wait group. *)
Lemma step_exited a s s' d k :
  worker s = Exited k → step a s = Steps s' d →
  worker s' = Exited k ∧ wg (lg s') = wg (lg s).
Proof.
  intros Hwk Hstep. destruct a; simpl in Hstep.
  - unfold logFn in Hstep. destruct (Chan.send _ _); [|done..]. by simplify_eq.
  - unfold workerRecv in Hstep. by rewrite Hwk in Hstep.
  - unfold workerTick in Hstep. by rewrite Hwk in Hstep.
  - unfold closeFn_close in Hstep. destruct (Chan.close _); [|done]. by simplify_eq.
  - apply closeFn_wait_config in Hstep as ((_ & Hwg & _) & Hw & _). by rewrite Hw.
  - unfold sweepRun in Hstep. destruct (sweeps s); [done|]. by simplify_eq.
Qed.

Lemma exec_exited tr : ∀ s s' d k,
  worker s = Exited k → exec tr s = Some (s', d) →
  worker s' = Exited k ∧ wg (lg s') = wg (lg s).
Proof.
  induction tr as [|a tr IH]; intros s s' d k Hwk Hex.
  - simpl in Hex. by simplify_eq.
  - apply exec_cons in Hex as (s1 & d1 & d2 & Hstep & Hex & _). simpl in Hex.
    destruct (step_exited _ _ _ _ _ Hwk Hstep) as (Hwk1 & Hwg1).
    destruct (IH _ _ _ _ Hwk1 Hex) as (Hwk2 & Hwg2). split; [done | congruence].
Qed.

Lemma closeFn_wait_returns s :
  (wg (lg s) ≤ 0)%Z → ∃ s', closeFn_wait s = Steps s' [].
Proof.
  intros Hwg. unfold closeFn_wait.
  destruct (Z.ltb_spec 0 (wg (lg s))); [lia|].
  destruct (flushWriter (lg s) (os s)) as [l1 o1]. eauto.
Qed.
(** What a stream looks like when [newLogFunc] returns. *)
Lemma newLogFunc_started dirPath prefix ret tc topen o s :
  newLogFunc dirPath prefix ret tc topen o = InitOk s →
  worker s = Running ∧ wg (lg s) = 1%Z ∧ msgChan (lg s) = Chan.make 1000 ∧
  currentDate (lg s) = Format_date topen ∧ sweeps s = 0 ∧
  filePrefix (lg s) = prefix ∧ retentionDays (lg s) = ret ∧
  ∃ f, file (lg s) = Some f ∧ writer (lg s) = Some (NewWriter f) ∧
       fds (os s) !! f = Some (fileName prefix (Format_date topen)) ∧
       is_Some (content (os s) (fileName prefix (Format_date topen))).
Proof.
  unfold newLogFunc. destruct (MkdirAll o) as [[e|] o1]; [done|].
  set (logger := mkLogger _ _ _ _ _ _ _ _).
  destruct (openFile topen logger _) as [[[e|] l3] o3] eqn:Hop; [done|].
  apply openFile_ok in Hop as (f & -> & Hfd & Hc). intros [= <-]. simpl.
  split_and!; try done. by exists f.
Qed.

End LifecycleFacts.

(** C8. Construction is fail-fast.  It panics exactly when [os.MkdirAll]
    on the directory fails or when the first [openFile] (after the startup
    sweep) fails; otherwise it returns a running stream: the worker is
    started, the wait group counts it, the queue is an empty open channel
    of capacity 1000, no sweep is pending, today's file exists and is
    open behind an empty writer, and an emit is accepted. *)
Theorem newLogFunc_fail_fast (dirPath prefix : string) (ret : Z)
    (tc topen : Time) (o : OS) :
  let logger := mkLogger (Chan.make 1000) 0 None None dirPath prefix "" ret in
  let name := fileName prefix (Format_date topen) in
  let opened := openFile topen logger (cleanOldLogs tc logger (MkdirAll o).2) in
  match newLogFunc dirPath prefix ret tc topen o with
  | InitPanic (CannotCreateDir e) _ => (MkdirAll o).1 = Some e
  | InitPanic (CannotCreateFile e) _ =>
      (MkdirAll o).1 = None ∧ opened.1.1 = Some e
  | InitOk s =>
      (MkdirAll o).1 = None ∧ opened.1.1 = None ∧
      worker s = Running ∧ wg (lg s) = 1%Z ∧ msgChan (lg s) = Chan.make 1000 ∧
      currentDate (lg s) = Format_date topen ∧ sweeps s = 0 ∧
      (∃ f, file (lg s) = Some f ∧ writer (lg s) = Some (NewWriter f) ∧
            fds (os s) !! f = Some name ∧ is_Some (content (os s) name)) ∧
      (∀ m, ∃ s', logFn m s = Steps s' [])
  end.
Proof.
  intros logger name opened. unfold newLogFunc. subst opened.
  destruct (MkdirAll o) as [[e|] o1]; [done|]. fold logger. simpl.
  destruct (openFile topen logger (cleanOldLogs tc logger o1)) as [[[e|] l3] o3] eqn:Hop;
    [done|].
  apply openFile_ok in Hop as (f & -> & Hfd & Hc). simpl.
  repeat split; try done.
  - exists f. by repeat split.
  - intros m. by eexists.
Qed.

(** C10. After [closeFn] has closed the queue, every emit panics in its
    caller (send on a closed channel), whatever moves came in between; no
    message is accepted, none is dropped silently and no emit blocks. *)
Theorem emit_after_close_panics (s s1 s2 : System) (d1 d2 : list (Time * string))
    (tr : list action) (m : string) :
  closeFn_close s = Steps s1 d1 →
  exec tr s1 = Some (s2, d2) →
  logFn m s2 = Crashes ∧ accepted tr = [].
Proof.
  intros Hclose Hex.
  assert (Chan.cclosed (msgChan (lg s1)) = true) as Hcl.
  { unfold closeFn_close, Chan.close in Hclose.
    destruct (Chan.cclosed (msgChan (lg s))); [done|]. by simplify_eq. }
  destruct (exec_closed _ _ _ _ Hcl Hex) as (Hcl2 & Hacc).
  split; [|done]. unfold logFn, Chan.send. by rewrite Hcl2.
Qed.

(** C9. The deferred calls of the worker run on every way out: from any
    state with a positive counter, leaving by return or by panic performs
    [wg.Done].  So when the worker of a started stream dies in its
    recovery boundary the counter is 0, it stays 0, and the wait of
    [closeFn] returns, whether the queue was closed before or is closed
    afterwards. *)
Theorem worker_panic_releases_shutdown :
  (∀ k l o, (0 < wg l)%Z →
     ∃ l' o', runWorker_exit k l o = Some (l', o') ∧ wg l' = (wg l - 1)%Z) ∧
  (∀ s now s1 d,
     worker s = Running → wg (lg s) = 1%Z →
     workerRecv now s = Steps s1 d → worker s1 = Exited Panicked →
     wg (lg s1) = 0%Z ∧
     (∀ tr s2 d2, exec tr s1 = Some (s2, d2) → ∃ s3, closeFn_wait s2 = Steps s3 []) ∧
     (Chan.cclosed (msgChan (lg s1)) = false →
      ∃ s2 s3, closeFn_close s1 = Steps s2 [] ∧ closeFn_wait s2 = Steps s3 [])).
Proof.
  split.
  { intros k l o Hwg. destruct (runWorker_exit_runs k l o Hwg) as (l' & o' & Hex).
    exists l', o'. split; [done|]. by apply runWorker_exit_config in Hex as (_ & ? & _). }
  intros s now s1 d Hrun Hwg Hstep Hdead.
  assert (wg (lg s1) = 0%Z) as Hzero.
  { unfold workerRecv in Hstep. rewrite Hrun in Hstep.
    destruct (Chan.recv (msgChan (lg s))) as [msg c| |]; [| |done].
    - set (l0 := set_chan c (lg s)) in Hstep.
      destruct (onMessage_config now msg l0 (os s)) as ((_ & Hg & _) & _).
      destruct (onMessage now msg l0 (os s)) as [l o sp|l o sp]; simpl in Hg.
      + by simplify_eq.
      + unfold workerExit in Hstep. simpl in Hstep.
        destruct (runWorker_exit _ _ _) as [[l1 o1]|] eqn:Hex; [|done].
        apply runWorker_exit_config in Hex as (_ & Hg1 & _). simplify_eq. simpl. lia.
    - unfold workerExit in Hstep.
      destruct (runWorker_exit _ _ _) as [[l1 o1]|]; [|done]. by simplify_eq. }
  split; [done|]. split.
  - intros tr s2 d2 Hex.
    destruct (exec_exited _ _ _ _ _ Hdead Hex) as (_ & Hwg2).
    apply closeFn_wait_returns. lia.
  - intros Hopen. unfold closeFn_close, Chan.close. rewrite Hopen.
    eexists. edestruct closeFn_wait_returns as (s3 & Hs3); [|eauto].
    simpl. lia.
Qed.

Lemma emit_after_close_panics_witness :
  ∃ s0 s1 s2,
    newLogFunc "c:\log" "AppLog" 30 march_first march_first fresh_os = InitOk s0 ∧
    closeFn_close s0 = Steps s1 [] ∧
    exec [Recv march_first; Wait] s1 = Some (s2, []) ∧
    logFn "late" s2 = Crashes ∧ accepted [Recv march_first; Wait] = [].
Proof.
  eexists _, _, _. split; [vm_compute; reflexivity|].
  lazymatch goal with
  | |- closeFn_close ?a = _ ∧ _ =>
      split; [vm_compute; reflexivity|];
      lazymatch goal with
      | |- exec _ ?b = _ ∧ _ =>
          split; [vm_compute; reflexivity|];
          apply (emit_after_close_panics a b _ [] [] [Recv march_first; Wait] "late");
          vm_compute; reflexivity
      end
  end.
Defined.

Lemma worker_panic_releases_shutdown_witness :
  ∃ s1, workerRecv march_first torn_stream = Steps s1 [(march_first, "x")] ∧
        worker s1 = Exited Panicked ∧ wg (lg s1) = 0%Z ∧
        ∃ s2 s3, closeFn_close s1 = Steps s2 [] ∧ closeFn_wait s2 = Steps s3 [].
Proof.
  eexists. split; [vm_compute; reflexivity|]. split; [vm_compute; reflexivity|].
  lazymatch goal with
  | |- wg (lg ?a) = _ ∧ _ =>
      destruct (proj2 worker_panic_releases_shutdown torn_stream march_first a
                  [(march_first, "x")]) as (Hwg & _ & Hclose);
      [vm_compute; reflexivity.. | split; [exact Hwg | apply Hclose; vm_compute; reflexivity]]
  end.
Defined.

(** C7. The queue of a constructed stream has capacity 1000 and never
    holds more.  In every interleaving the accepted messages are, in
    order, those handed to the worker followed by those still queued: none
    is dropped, none is handed over twice.  An emit on the full open queue
    blocks (it neither panics nor loses the message); with room it is
    accepted at the tail; and whenever the queue is not empty the worker's
    receive completes and takes exactly the head. *)
Theorem queue_delivery (dirPath prefix : string) (ret : Z) (tc topen : Time)
    (o : OS) (s0 s : System) (tr : list action) (d : list (Time * string)) :
  newLogFunc dirPath prefix ret tc topen o = InitOk s0 →
  exec tr s0 = Some (s, d) →
  let q := msgChan (lg s) in
  Chan.ccap q = 1000 ∧ length (Chan.cbuf q) ≤ 1000 ∧
  accepted tr = d.*2 ++ Chan.cbuf q ∧
  (∀ m, Chan.cclosed q = false → length (Chan.cbuf q) = 1000 → logFn m s = Blocks) ∧
  (∀ m, Chan.cclosed q = false → length (Chan.cbuf q) < 1000 →
     ∃ s', logFn m s = Steps s' [] ∧
           msgChan (lg s') = Chan.mkChan (Chan.cbuf q ++ [m]) 1000 false) ∧
  (∀ now m rest, Chan.cbuf q = m :: rest →
     ∃ s', workerRecv now s = Steps s' [(now, m)] ∧
           msgChan (lg s') = Chan.mkChan rest 1000 (Chan.cclosed q)).
Proof.
  intros Hinit Hex q.
  pose proof (exec_wf _ _ _ _ (newLogFunc_wf _ _ _ _ _ _ _ Hinit) Hex)
    as (Hcap & Hlen & Hw & Hst).
  pose proof (exec_queue _ _ _ _ Hex) as Hq.
  assert (Chan.cbuf (msgChan (lg s0)) = []) as Hempty.
  { destruct (newLogFunc_started _ _ _ _ _ _ _ Hinit) as (_ & _ & -> & _). done. }
  rewrite Hempty in Hq. simpl in Hq. fold q in Hcap, Hlen, Hq.
  split; [done|]. split; [done|]. split; [done|]. split; [|split].
  - intros m Hcl Hfull. unfold logFn, Chan.send. fold q.
    rewrite Hcl, Hcap, Hfull. done.
  - intros m Hcl Hroom. unfold logFn, Chan.send. fold q. rewrite Hcl, Hcap.
    destruct (Nat.ltb_spec (length (Chan.cbuf q)) 1000); [|lia].
    eexists. split; [reflexivity|]. done.
  - intros now m rest Hbuf. unfold workerRecv.
    destruct (worker s) as [|[|]]; [| |done].
    + unfold Chan.recv. fold q. rewrite Hbuf.
      set (l0 := set_chan _ (lg s)).
      destruct (onMessage_config now m l0 (os s)) as ((Hch & _) & Hok).
      destruct (Hok Hw) as (l' & o' & sp & Heq & _).
      rewrite Heq in Hch |- *. simpl in Hch. eexists. split; [reflexivity|].
      simpl. by rewrite Hch, Hcap.
    + destruct Hst as (_ & Hnil & _). fold q in Hnil. congruence.
Qed.

Lemma queue_delivery_witness :
  ∃ s0 s d,
    newLogFunc "c:\log" "AppLog" 30 march_first march_first fresh_os = InitOk s0 ∧
    exec [Emit "a"; Emit "b"; Recv march_first] s0 = Some (s, d) ∧
    accepted [Emit "a"; Emit "b"; Recv march_first] = d.*2 ++ Chan.cbuf (msgChan (lg s)) ∧
    d.*2 = ["a"] ∧ Chan.cbuf (msgChan (lg s)) = ["b"].
Proof.
  eexists _, _, _. split; [vm_compute; reflexivity|].
  lazymatch goal with
  | |- exec _ ?a0 = _ ∧ _ =>
      split; [vm_compute; reflexivity|];
      split; [|split; vm_compute; reflexivity];
      lazymatch goal with
      | |- _ = ?x.*2 ++ Chan.cbuf (msgChan (lg ?a)) =>
          apply (queue_delivery "c:\log" "AppLog" 30 march_first march_first fresh_os
                   a0 a [Emit "a"; Emit "b"; Recv march_first] x);
          vm_compute; reflexivity
      end
  end.
Defined.

Section WriterFacts.
Implicit Types (w : Writer) (o : OS).

Lemma Write_open f data o name c :
  fds o !! f = Some name → content o name = Some c →
  ∃ o', Write f data o = (true, o') ∧
        content o' name = Some (c +:+ data) ∧ fds o' = fds o ∧
        next_fd o' = next_fd o ∧ perm o' = perm o ∧ console o' = console o ∧
        calls o' = calls o ++ [SysWrite f data] ∧
        (∀ n, n ≠ name → entry o' n = entry o n).
Proof.
  unfold Write, content, entry. intros Hf Hc. simpl. rewrite Hf.
  destruct (dir o) as [d|] eqn:Hd; [|done].
  destruct (d !! name) as [[|c']|] eqn:Hn; simplify_eq.
  eexists. split; [reflexivity|]. simpl. rewrite lookup_insert_eq.
  repeat split; try done. intros n Hne. by rewrite lookup_insert_ne.
Qed.

Lemma logical_inv w o name txt :
  logical w o = Some (name, txt) →
  ∃ c, fds o !! wfd w = Some name ∧ content o name = Some c ∧ txt = c +:+ wbuf w.
Proof.
  unfold logical. destruct (fds o !! wfd w) as [n|]; [|done].
  destruct (content o n) as [c|] eqn:Hc; [|done]. intros [= <- <-]. eauto.
Qed.

Lemma logical_intro w o name c :
  fds o !! wfd w = Some name → content o name = Some c →
  logical w o = Some (name, c +:+ wbuf w).
Proof. unfold logical. by intros -> ->. Qed.

(** A flush moves the buffered bytes to the end of the file. *)
Lemma Flush_logical w o name txt :
  werr w = false → logical w o = Some (name, txt) →
  ∃ o', Flush w o = (mkWriter (wfd w) "" false, o') ∧
        content o' name = Some txt ∧ fds o' = fds o ∧ next_fd o' = next_fd o ∧
        perm o' = perm o ∧ console o' = console o.
Proof.
  intros He (c & Hf & Hc & ->)%logical_inv. unfold Flush, Buffered. rewrite He.
  destruct (wbuf w) as [|x b] eqn:Hb.
  - simpl. exists o. rewrite str_app_empty_r. destruct w; simpl in *; subst. done.
  - cbn [String.length Nat.eqb].
    destruct (Write_open (wfd w) (String x b) o name c Hf Hc)
      as (o' & -> & Hc' & Hf' & Hn & Hp & Hco & _).
    exists o'. done.
Qed.

(** [WriteString] appends to the logical content, and only there. *)
Lemma WriteString_logical s w o name txt :
  werr w = false → logical w o = Some (name, txt) →
  ∃ w' o', WriteString s w o = (w', o') ∧ wfd w' = wfd w ∧ werr w' = false ∧
           logical w' o' = Some (name, txt +:+ s) ∧ fds o' = fds o ∧
           next_fd o' = next_fd o ∧ perm o' = perm o ∧ console o' = console o.
Proof.
  intros He Hl. pose proof Hl as (c & Hf & Hc & ->)%logical_inv.
  unfold WriteString. rewrite He.
  destruct (String.length s <=? Available w).
  { eexists _, _. split; [reflexivity|]. simpl. unfold logical. simpl.
    rewrite Hf, Hc. by rewrite str_app_assoc. }
  destruct (Buffered w =? 0) eqn:Hz.
  { unfold direct.
    destruct (Write_open (wfd w) s o name c Hf Hc)
      as (o' & -> & Hc' & Hf' & Hn & Hp & Hco & _).
    exists w, o'. split; [done|]. unfold logical. rewrite Hf', Hf, Hc'.
    apply Nat.eqb_eq in Hz. unfold Buffered in Hz.
    destruct (wbuf w); [|done]. by rewrite !str_app_empty_r. }
  set (n := Available w).
  set (w0 := mkWriter (wfd w) (wbuf w +:+ String.substring 0 n s) false).
  destruct (Flush_logical w0 o name (c +:+ wbuf w0)) as (o1 & -> & Hc1 & Hf1 & Hn1 & Hp1 & Hco1);
    [done | by apply logical_intro |].
  cbn [werr wfd wbuf].
  set (rest := String.substring n (String.length s - n) s).
  assert (c +:+ wbuf w0 +:+ rest = (c +:+ wbuf w) +:+ s) as Hsplit.
  { subst w0 rest. cbn [wbuf]. rewrite !str_app_assoc. by rewrite substring_split. }
  destruct (String.length rest <=? Available _).
  { eexists _, _. split; [reflexivity|]. simpl. unfold logical. simpl.
    rewrite Hf1, Hf, Hc1. rewrite <- Hsplit. by rewrite !str_app_assoc. }
  unfold direct. simpl.
  assert (fds o1 !! wfd w = Some name) as Hf1' by (by rewrite Hf1).
  destruct (Write_open (wfd w) rest o1 name _ Hf1' Hc1)
    as (o2 & -> & Hc2 & Hf2 & Hn2 & Hp2 & Hco2 & _).
  eexists _, _. split; [reflexivity|]. simpl. unfold logical. simpl.
  rewrite Hf2, Hf1, Hf, Hc2. rewrite <- Hsplit.
  repeat split; try congruence. by rewrite str_app_empty_r, !str_app_assoc.
Qed.
End WriterFacts.

Section DrainFacts.
Variables (name date0 c0 : string).
Implicit Types (s : System) (tr : list action) (d : list (Time * string)).




End DrainFacts.

Section StartFacts.
Implicit Types (l : internalLogger) (o : OS).

Lemma sweepEntry_absent l cutoff o e n :
  entry o n = None → entry (sweepEntry l cutoff o e) n = None.
Proof.
  intros Hn. unfold sweepEntry. destruct e as [name isDir].
  destruct isDir; [done|].
  destruct (fileDate (filePrefix l) name) as [ds|]; [|done].
  destruct (lt ds cutoff); [|done].
  unfold Remove, entry in *. cbn [dir called print perm snd].
  destruct (dir o) as [d|] eqn:Hd; [|by cbn; rewrite Hd].
  destruct (d !! name) as [[|c]|]; [by cbn; rewrite Hd | | by cbn; rewrite Hd].
  destruct (perm o); [|by cbn; rewrite Hd]. cbn.
  destruct (decide (n = name)) as [->|Hne];
    [by rewrite lookup_delete_eq | by rewrite lookup_delete_ne].
Qed.

(** The sweep creates nothing. *)
Lemma cleanOldLogs_absent now l o n :
  entry o n = None → entry (cleanOldLogs now l o) n = None.
Proof.
  intros Hn. unfold cleanOldLogs. destruct (retentionDays l <=? 0)%Z; [done|].
  unfold ReadDir. cbn [dir called].
  destruct (dir o) as [d|] eqn:Hd; [|by unfold entry in *; simpl; rewrite Hd].
  assert (entry (called SysReadDir o) n = None) as Hn' by done.
  revert Hn'. generalize (called SysReadDir o).
  generalize (map (λ e : string * node, (e.1, is_dir e.2)) (map_to_list d)).
  intros es. induction es as [|e es IH]; intros o0 H0; [done|].
  simpl. apply IH. by apply sweepEntry_absent.
Qed.

(** Opening a name that has no entry creates the empty file. *)
Lemma openFile_creates t l o l' o' :
  openFile t l o = (None, l', o') →
  entry o (fileName (filePrefix l) (Format_date t)) = None →
  content o' (fileName (filePrefix l) (Format_date t)) = Some "".
Proof.
  unfold openFile, OpenFile, MkdirAll, content, entry.
  set (name := fileName (filePrefix l) (Format_date t)). cbn [dir called perm snd].
  destruct (dir o) as [d|] eqn:Hd; cbn [dir called perm set_dir snd]; intros H Hn.
  - rewrite Hd in H. destruct (negb (perm o)); [done|]. rewrite Hn in H.
    simplify_eq. simpl. by rewrite lookup_insert_eq.
  - destruct (perm o) eqn:Hp; cbn [dir called perm set_dir snd] in H.
    + rewrite Hp in H. cbn [negb] in H. rewrite lookup_empty in H.
      simplify_eq. simpl. by rewrite lookup_insert_eq.
    + by rewrite Hd in H.
Qed.
End StartFacts.



Section CallFacts.
Implicit Types (w : Writer) (l : internalLogger) (o : OS).

Lemma Write_frame f data o :
  calls (Write f data o).2 = calls o ++ [SysWrite f data] ∧
  fds (Write f data o).2 = fds o ∧ next_fd (Write f data o).2 = next_fd o ∧
  perm (Write f data o).2 = perm o ∧ console (Write f data o).2 = console o ∧
  (is_Some (fds o !! f) → (Write f data o).1 = true).
Proof.
  unfold Write. cbn [fds called dir].
  destruct (fds o !! f) as [name|]; [|by split_and!; try done; intros [? ?]].
  destruct (dir o) as [d|]; [|done].
  destruct (d !! name) as [[|c]|]; done.
Qed.

Lemma Flush_frame w o :
  calls (Flush w o).2 = calls o ++ flushCalls (Some w) ∧
  fds (Flush w o).2 = fds o ∧ next_fd (Flush w o).2 = next_fd o ∧
  perm (Flush w o).2 = perm o ∧ console (Flush w o).2 = console o ∧
  wfd (Flush w o).1 = wfd w ∧
  (werr w = false → is_Some (fds o !! wfd w) →
   werr (Flush w o).1 = false ∧ wbuf (Flush w o).1 = "") ∧
  flushCalls (Some (Flush w o).1) = [].
Proof.
  unfold Flush, flushCalls. destruct (werr w) eqn:He.
  { simpl. rewrite He, app_nil_r. by split_and!. }
  destruct (Buffered w =? 0) eqn:Hz.
  { simpl. rewrite He, Hz, app_nil_r. split_and!; try done.
    intros _ _. split; [done|]. apply Nat.eqb_eq in Hz. unfold Buffered in Hz.
    by destruct (wbuf w). }
  simpl. destruct (Write_frame (wfd w) (wbuf w) o) as (Hc & Hf & Hn & Hp & Hco & Hok).
  destruct (Write (wfd w) (wbuf w) o) as [[|] o']; simpl in *; split_and!; try done.
  intros _ Hs. by specialize (Hok Hs).
Qed.

Lemma flushWriter_frame l o :
  calls (flushWriter l o).2 = calls o ++ flushCalls (writer l) ∧
  fds (flushWriter l o).2 = fds o ∧ next_fd (flushWriter l o).2 = next_fd o ∧
  perm (flushWriter l o).2 = perm o ∧ console (flushWriter l o).2 = console o ∧
  flushCalls (writer (flushWriter l o).1) = [].
Proof.
  unfold flushWriter. destruct (writer l) as [w|] eqn:Hw.
  - destruct (Flush_frame w o) as (Hc & Hf & Hn & Hp & Hco & _ & _ & Hfl).
    destruct (Flush w o) as [w' o']. simpl in *. done.
  - simpl. rewrite Hw, app_nil_r. done.
Qed.

Lemma WriteString_frame s w o :
  fds (WriteString s w o).2 = fds o ∧ next_fd (WriteString s w o).2 = next_fd o ∧
  perm (WriteString s w o).2 = perm o ∧ console (WriteString s w o).2 = console o ∧
  wfd (WriteString s w o).1 = wfd w ∧
  (∃ rest, calls (WriteString s w o).2 = calls o ++ rest) ∧
  (werr w = false → is_Some (fds o !! wfd w) → werr (WriteString s w o).1 = false).
Proof.
  assert (∀ s' w' o', fds (direct s' w' o').2 = fds o' ∧
            next_fd (direct s' w' o').2 = next_fd o' ∧
            perm (direct s' w' o').2 = perm o' ∧ console (direct s' w' o').2 = console o' ∧
            wfd (direct s' w' o').1 = wfd w' ∧
            calls (direct s' w' o').2 = calls o' ++ [SysWrite (wfd w') s'] ∧
            (werr w' = false → is_Some (fds o' !! wfd w') → werr (direct s' w' o').1 = false))
    as Hdirect.
  { intros s' w' o'. unfold direct.
    destruct (Write_frame (wfd w') s' o') as (Hc & Hf & Hn & Hp & Hco & Hok).
    destruct (Write (wfd w') s' o') as [[|] o'']; simpl in *; split_and!; try done.
    intros _ Hs. by specialize (Hok Hs). }
  unfold WriteString. destruct (werr w) eqn:He.
  { simpl. split_and!; try done. exists []. by rewrite app_nil_r. }
  destruct (String.length s <=? Available w).
  { simpl. split_and!; try done. exists []. by rewrite app_nil_r. }
  destruct (Buffered w =? 0).
  { destruct (Hdirect s w o) as (?&?&?&?&?&?&Hk). split_and!; try done; eauto. }
  set (w0 := mkWriter _ _ _).
  destruct (Flush_frame w0 o) as (Hc & Hf & Hn & Hp & Hco & Hfd & Hok & _).
  destruct (Flush w0 o) as [w1 o1]. simpl in Hc, Hf, Hn, Hp, Hco, Hfd, Hok.
  destruct (werr w1) eqn:He1.
  { simpl. split_and!; try done; eauto. intros _ Hs.
    destruct (Hok eq_refl Hs) as (? & _). congruence. }
  destruct (String.length _ <=? Available w1).
  { simpl. split_and!; try done; eauto. }
  set (rest := String.substring _ _ _).
  destruct (Hdirect rest w1 o1) as (Hf2 & Hn2 & Hp2 & Hco2 & Hfd2 & Hc2 & Hk2).
  split_and!; try congruence.
  - exists (flushCalls (Some w0) ++ [SysWrite (wfd w1) rest]).
    rewrite Hc2, Hc. by rewrite (assoc_L (++)).
  - intros _ Hs. apply Hk2; [done|]. by rewrite Hfd, Hf.
Qed.

(** What the rotation asks of the operating system, in order: the
    buffered bytes, the close, [MkdirAll], and one [OpenFile] for the
    date of [now]. *)
Lemma rotate_frame now l o :
  calls (rotate now l o).2
  = calls o ++ flushCalls (writer l) ++ closeCalls (file l)
      ++ [SysMkdirAll; SysOpen (fileName (filePrefix l) (Format_date now))] ∧
  console (rotate now l o).2 = console o ∧
  (∀ err, (rotate now l o).1.1 = Some err →
     (rotate now l o).1.2 = set_file None (flushWriter l o).1) ∧
  (∀ f, file l = Some f → f ≠ next_fd o → fds (rotate now l o).2 !! f = None).
Proof.
  unfold rotate.
  destruct (flushWriter_frame l o) as (Hc & Hf & Hn & Hp & Hco & _).
  destruct (flushWriter_config l o) as ((_ & _ & _ & Hpre & _) & Hfile & _).
  destruct (flushWriter l o) as [l1 o1]. simpl in *.
  unfold openFile, OpenFile, MkdirAll, closeFile. cbn [filePrefix set_file].
  rewrite Hfile, Hpre.
  set (name := fileName (filePrefix l) (Format_date now)).
  assert (calls (match file l with Some f => GoOS.Close f o1 | None => o1 end)
          = calls o ++ flushCalls (writer l) ++ closeCalls (file l)) as Hcalls.
  { destruct (file l); simpl; rewrite Hc; by rewrite <- ?(assoc_L (++)), ?app_nil_r. }
  assert (console (match file l with Some f => GoOS.Close f o1 | None => o1 end)
          = console o) as Hcons by (by destruct (file l)).
  assert (∀ f, file l = Some f →
            fds (match file l with Some f => GoOS.Close f o1 | None => o1 end) !! f = None
            ∧ next_fd (match file l with Some f => GoOS.Close f o1 | None => o1 end)
              = next_fd o) as Hclosed.
  { intros f ->. simpl. by rewrite lookup_delete_eq. }
  revert Hcalls Hcons Hclosed.
  generalize (match file l with Some f => GoOS.Close f o1 | None => o1 end).
  intros o2 Hcalls Hcons Hclosed.
  assert (∀ (o3 : OS) (x : list syscall), calls o3 = calls o2 ++ x →
            calls o3 = calls o ++ flushCalls (writer l) ++ closeCalls (file l) ++ x) as Hx.
  { intros o3 x ->. rewrite Hcalls. by rewrite <- !(assoc_L (++)). }
  cbn [dir called perm].
  destruct (dir o2) as [d|] eqn:Hd; cbn [snd dir called perm set_dir].
  - rewrite Hd. destruct (perm o2); cbn [negb].
    + destruct (d !! name) as [[|c]|]; cbn [fst snd]; split_and!;
        try done; try (apply Hx; simpl; by rewrite <- (assoc_L (++)));
        intros f Hfl Hne; destruct (Hclosed f Hfl) as (Hnone & Hnext); simpl;
        rewrite ?lookup_insert_ne by congruence; done.
    + cbn [fst snd]. split_and!; try done.
      * apply Hx. simpl. by rewrite <- (assoc_L (++)).
      * intros f Hfl _. by destruct (Hclosed f Hfl).
  - destruct (perm o2) eqn:Hp2; cbn [snd dir called perm set_dir].
    + rewrite Hp2. cbn [negb]. rewrite lookup_empty. cbn [fst snd]. split_and!; try done.
      * apply Hx. simpl. by rewrite <- (assoc_L (++)).
      * intros f Hfl Hne; destruct (Hclosed f Hfl) as (Hnone & Hnext); simpl.
        rewrite lookup_insert_ne by congruence. done.
    + rewrite Hd. cbn [fst snd]. split_and!; try done.
      * apply Hx. simpl. by rewrite <- (assoc_L (++)).
      * intros f Hfl _. by destruct (Hclosed f Hfl).
Qed.
End CallFacts.

Section MessageFacts.
Implicit Types (w : Writer) (l : internalLogger) (o : OS).

Lemma writeLine_calls now msg l o sp :
  ∃ rest, calls (iteration_os (writeLine now msg l o sp)) = calls o ++ rest.
Proof.
  unfold writeLine. destruct (writer l) as [w|].
  - destruct (WriteString_frame (logLine (Format_stamp now) msg) w o)
      as (_ & _ & _ & _ & _ & Hc & _).
    destruct (WriteString _ w o) as [w' o']. exact Hc.
  - exists []. simpl. by rewrite app_nil_r.
Qed.

Lemma needsRotation_nil now l : file l = None → needsRotation now l = true.
Proof. intros Hf. unfold needsRotation. by rewrite bool_decide_eq_true_2. Qed.
End MessageFacts.

(** C2. When the rotation check of a message has to open a file and the
    open fails, the iteration ends in [continue]: the console gets the
    error and the unsaved message, no sweep is started, the only calls
    made are the flush of what was buffered before, the close, [MkdirAll]
    and that single [OpenFile]; the message reaches neither the file nor
    the buffer; the logger is left without a file.  A tick then opens
    nothing, and every later message starts with one new open attempt for
    its own date. *)
Theorem open_failure_skips_message (l l3 : internalLogger) (o o3 : OS)
    (now : Time) (msg : string) (err : errno) :
  needsRotation now l = true →
  rotate now l o = (Some err, l3, o3) →
  ∃ o', onMessage now msg l o = Continue l3 o' false ∧
    console o' = console o ++ [OpenFailed err; UnsavedLog msg] ∧
    calls o' = calls o ++ flushCalls (writer l) ++ closeCalls (file l)
                 ++ [SysMkdirAll; SysOpen (fileName (filePrefix l) (Format_date now))] ∧
    file l3 = None ∧ writer l3 = writer (flushWriter l o).1 ∧
    (∀ o2, file (onTick l3 o2).1 = None ∧ calls (onTick l3 o2).2 = calls o2) ∧
    (∀ now' msg' o2,
       needsRotation now' l3 = true ∧
       ∃ rest, calls (iteration_os (onMessage now' msg' l3 o2))
               = calls o2 ++ [SysMkdirAll;
                              SysOpen (fileName (filePrefix l) (Format_date now'))]
                   ++ rest).
Proof.
  intros Hneed Hrot.
  destruct (rotate_frame now l o) as (Hcalls & Hcons & Hfail & _).
  rewrite Hrot in Hcalls, Hcons, Hfail. simpl in Hcalls, Hcons, Hfail.
  specialize (Hfail err eq_refl).
  destruct (flushWriter_frame l o) as (_ & _ & _ & _ & _ & Hclean).
  destruct (rotate_config now l o) as ((_ & _ & _ & Hpre & _) & _).
  rewrite Hrot in Hpre. simpl in Hpre.
  assert (file l3 = None) as Hnil by (by rewrite Hfail).
  assert (writer l3 = writer (flushWriter l o).1) as Hwr by (by rewrite Hfail).
  eexists. split; [unfold onMessage; by rewrite Hneed, Hrot|].
  split; [simpl; by rewrite Hcons, <- (assoc_L (++))|].
  split; [exact Hcalls|]. split; [done|]. split; [done|]. split.
  - intros o2. unfold onTick. rewrite Hwr.
    destruct (writer (flushWriter l o).1) as [w|] eqn:Hw; [|done].
    destruct (0 <? Buffered w); [|done].
    destruct (Flush_frame w o2) as (Hc & _).
    destruct (Flush w o2) as [w' o']. simpl in *.
    rewrite Hnil, Hc. unfold flushCalls in Hclean |- *. rewrite Hclean.
    by rewrite app_nil_r.
  - intros now' msg' o2. split; [by apply needsRotation_nil|].
    unfold onMessage. rewrite (needsRotation_nil now' l3 Hnil).
    destruct (rotate_frame now' l3 o2) as (Hc2 & _).
    rewrite Hnil, Hwr, Hclean, Hpre in Hc2. simpl in Hc2.
    destruct (rotate now' l3 o2) as [[[e|] l4] o4]; simpl in Hc2.
    + exists []. simpl. by rewrite Hc2.
    + destruct (writeLine_calls now' msg' l4 (print (DateChanged (currentDate l4)) o4) true)
        as (rest & Hrest).
      exists rest. rewrite Hrest. simpl. rewrite Hc2. by rewrite <- (assoc_L (++)).
Qed.

Lemma WriteString_new s f o :
  ∃ w' o', WriteString s (NewWriter f) o = (w', o') ∧
    fds o' = fds o ∧ console o' = console o ∧
    calls o' = calls o ++ (if String.length s <=? bufSize then [] else [SysWrite f s]).
Proof.
  unfold WriteString, NewWriter, Available, Buffered. cbn [werr wbuf wfd String.length].
  rewrite Nat.sub_0_r. destruct (String.length s <=? bufSize).
  - eexists _, _. split; [reflexivity|]. by rewrite app_nil_r.
  - cbn [Nat.eqb]. unfold direct. cbn [wfd].
    destruct (Write_frame f s o) as (Hc & Hf & _ & _ & Hco & _).
    destruct (Write f s o) as [[|] o']; eexists _, _; (split; [reflexivity|]); done.
Qed.

Lemma rotate_ok now l o l3 o3 :
  rotate now l o = (None, l3, o3) →
  ∃ f', l3 = set_currentDate (Format_date now)
               (set_writer (Some (NewWriter f'))
                  (set_file (Some f') (set_file None (flushWriter l o).1))) ∧
        fds o3 !! f' = Some (fileName (filePrefix l) (Format_date now)) ∧
        is_Some (content o3 (fileName (filePrefix l) (Format_date now))).
Proof.
  unfold rotate.
  destruct (flushWriter_config l o) as ((_ & _ & _ & Hpre & _) & _).
  destruct (flushWriter l o) as [l1 o1]. simpl in Hpre. intros Hop.
  apply openFile_ok in Hop as (f' & -> & Hfd & Hc). exists f'. split; [done|].
  simpl in Hfd, Hc. rewrite Hpre in Hfd, Hc. done.
Qed.

Lemma Format_stamp_fixed t :
  valid t = true → (0 ≤ year t ≤ 9999)%Z →
  Format_stamp t =
    fixed 4 (Z.to_nat (year t)) +:+ "-" +:+ fixed 2 (month t) +:+ "-"
      +:+ fixed 2 (day t) +:+ " " +:+ fixed 2 (hour t) +:+ ":"
      +:+ fixed 2 (minute t) +:+ ":" +:+ fixed 2 (second t).
Proof.
  intros (Hm & Hd & Hh & Hmi & Hs)%valid_spec Hy. unfold Format_stamp.
  pose proof (days_in_bounds (year t) (month t)).
  rewrite <- (Z2Nat.id (year t)) at 1 by lia.
  rewrite !appendInt_fixed; first done; first [lia | apply lt_pow2; lia | by apply lt_pow4].
Qed.

(** C5. A message that arrives while no file is open, or on another date
    than [currentDate], makes the worker flush what is buffered, close
    the old descriptor, and ask for the file of the current date, in that
    order.  When the open succeeds the iteration completes with the
    message written through the new descriptor, [currentDate] is the new
    date, the change is printed, and the retention sweep is only started:
    the worker's step makes no directory listing or removal, one more
    sweep is pending, and it runs as a move of its own. *)
Theorem rotation_on_message (s : System) (now : Time) (msg : string) (c : Chan.chan) :
  worker s = Running →
  Chan.recv (msgChan (lg s)) = Chan.Received msg c →
  needsRotation now (lg s) = true →
  let l := set_chan c (lg s) in
  let name := fileName (filePrefix l) (Format_date now) in
  let line := logLine (Format_stamp now) msg in
  let asked :=
    calls (os s) ++ flushCalls (writer l) ++ closeCalls (file l)
      ++ [SysMkdirAll; SysOpen name] in
  calls (rotate now l (os s)).2 = asked ∧
  (∀ f, file l = Some f → f ≠ next_fd (os s) →
        fds (rotate now l (os s)).2 !! f = None) ∧
  ((rotate now l (os s)).1.1 = None →
     ∃ s' f',
       workerRecv now s = Steps s' [(now, msg)] ∧ worker s' = Running ∧
       currentDate (lg s') = Format_date now ∧
       file (lg s') = Some f' ∧ fds (os s') !! f' = Some name ∧
       sweeps s' = S (sweeps s) ∧
       console (os s') = console (os s) ++ [DateChanged (Format_date now)] ∧
       calls (os s')
       = asked ++ (if String.length line <=? bufSize then [] else [SysWrite f' line]) ∧
       ∀ now', ∃ s'', sweepRun now' s' = Steps s'' [] ∧
                      os s'' = cleanOldLogs now' (lg s') (os s')).
Proof.
  intros Hrun Hrecv Hneed l name line asked.
  destruct (rotate_frame now l (os s)) as (Hcalls & Hcons & _ & Hclosed).
  split; [exact Hcalls|]. split; [exact Hclosed|].
  intros Hok. unfold workerRecv. rewrite Hrun, Hrecv. fold l.
  unfold onMessage.
  assert (needsRotation now l = true) as -> by exact Hneed.
  destruct (rotate now l (os s)) as [[e l3] o3] eqn:Hrot. simpl in Hok, Hcalls, Hcons.
  subst e.
  apply rotate_ok in Hrot as (f' & -> & Hfd & _). fold name in Hfd.
  unfold writeLine. cbn [writer set_currentDate set_writer currentDate].
  fold line.
  destruct (WriteString_new line f' (print (DateChanged (Format_date now)) o3))
    as (w' & o' & -> & Hf' & Hco' & Hc').
  eexists _, f'. split; [reflexivity|]. simpl.
  split_and!; try done.
  - by rewrite Hf'.
  - rewrite Hco'. simpl. by rewrite Hcons.
  - rewrite Hc'. simpl. by rewrite Hcalls.
  - intros now'. by eexists.
Qed.

(** C6. A message that is kept (the iteration did not end in the open
    failure) adds exactly one line, [[YYYY-MM-DD HH:MM:SS] message] and a
    newline with the message bytes as they are, to the logical content of
    one file (its bytes followed by the buffered ones), and that file is
    [prefix_YYYYMMDD.txt] for the date [currentDate] holds: the date of
    the open that produced the descriptor, which is also the date of the
    message. *)
Theorem persisted_line (l l' : internalLogger) (o o' : OS) (now : Time)
    (msg : string) (sp : bool) :
  valid now = true → (0 ≤ year now ≤ 9999)%Z →
  tied l o →
  onMessage now msg l o = Continue l' o' sp →
  let line := logLine (Format_stamp now) msg in
  let name := fileName (filePrefix l) (Format_date now) in
  line = "[" +:+ (fixed 4 (Z.to_nat (year now)) +:+ "-" +:+ fixed 2 (month now) +:+ "-"
                  +:+ fixed 2 (day now) +:+ " " +:+ fixed 2 (hour now) +:+ ":"
                  +:+ fixed 2 (minute now) +:+ ":" +:+ fixed 2 (second now))
             +:+ "] " +:+ msg +:+ newline ∧
  name = filePrefix l +:+ "_"
           +:+ (fixed 4 (Z.to_nat (year now)) +:+ fixed 2 (month now)
                +:+ fixed 2 (day now)) +:+ ".txt" ∧
  (needsRotation now l = false →
     ∀ name0 txt, pending l o = Some (name0, txt) →
       name0 = name ∧ currentDate l' = Format_date now ∧
       pending l' o' = Some (name, txt +:+ line)) ∧
  (sp = true →
     ∃ c0, content (rotate now l o).2 name = Some c0 ∧
           currentDate l' = Format_date now ∧
           pending l' o' = Some (name, c0 +:+ line)).
Proof.
  intros Hv Hy Htied Hstep line name.
  split; [subst line; unfold logLine; by rewrite Format_stamp_fixed|].
  split; [subst name; unfold fileName; by rewrite Format_date_fixed|].
  unfold onMessage in Hstep. split.
  - intros Hno name0 txt Hpend. rewrite Hno in Hstep.
    unfold pending in Hpend.
    destruct (file l) as [f|] eqn:Hfile; [|done].
    destruct (writer l) as [w|] eqn:Hwr; [|done].
    destruct (Nat.eqb_spec (wfd w) f) as [Hfd|]; [|done].
    destruct (werr w) eqn:Herr; [done|]. simpl in Hpend.
    assert (currentDate l = Format_date now) as Hcur.
    { unfold needsRotation in Hno. apply orb_false_iff in Hno as (_ & Hno).
      apply negb_false_iff, String.eqb_eq in Hno. done. }
    assert (name0 = name) as ->.
    { destruct (Htied f Hfile) as (Hname & _).
      apply logical_inv in Hpend as (c & Hfds & _). rewrite Hfd, Hname, Hcur in Hfds.
      by simplify_eq. }
    unfold writeLine in Hstep. rewrite Hwr in Hstep.
    destruct (WriteString_logical line w o name txt Herr Hpend)
      as (w' & o'' & Hws & Hfd' & Herr' & Hlog & _).
    fold line in Hstep. rewrite Hws in Hstep. simplify_eq.
    split; [done|]. split; [done|].
    unfold pending. cbn [file writer set_writer]. rewrite Hfile, Hfd', Herr'.
    by rewrite Nat.eqb_refl.
  - intros ->. destruct (needsRotation now l).
    + destruct (rotate now l o) as [[[e|] l3] o3] eqn:Hrot; [done|].
      apply rotate_ok in Hrot as (f' & -> & Hfd & [c0 Hc0]). fold name in Hfd, Hc0.
      exists c0. split; [done|].
      unfold writeLine in Hstep. cbn [writer set_currentDate set_writer currentDate] in Hstep.
      fold line in Hstep.
      destruct (WriteString_logical line (NewWriter f')
                  (print (DateChanged (Format_date now)) o3) name c0 eq_refl)
        as (w' & o'' & Hws & Hfd' & Herr' & Hlog & _).
      { unfold logical. cbn [wfd NewWriter fds print]. rewrite Hfd.
        change (content (print _ o3) name) with (content o3 name). rewrite Hc0.
        simpl. by rewrite str_app_empty_r. }
      rewrite Hws in Hstep. simplify_eq. split; [done|].
      unfold pending. cbn [file writer set_writer set_currentDate set_file].
      rewrite Hfd', Herr'. simpl. by rewrite Nat.eqb_refl.
    + unfold writeLine in Hstep. destruct (writer l); [|done].
      destruct (WriteString _ _ _). by simplify_eq.
Qed.

Example newLogFunc_fresh :
  newLogFunc "c:\log" "AppLog" 30 march_first march_first fresh_os = InitOk started_stream.
Proof. vm_compute. reflexivity. Qed.

Lemma open_failure_skips_message_witness :
  ∃ l3 o', onMessage march_second "lost" (started_logger []) revoked_os
           = Continue l3 o' false ∧
           console o' = console revoked_os ++ [OpenFailed EACCES; UnsavedLog "lost"] ∧
           calls o' = calls revoked_os
                        ++ [SysClose 3; SysMkdirAll; SysOpen "AppLog_20250302.txt"] ∧
           file l3 = None.
Proof.
  eassert (rotate march_second (started_logger []) revoked_os = (Some EACCES, _, _))
    as Hrot by (vm_compute; reflexivity).
  destruct (open_failure_skips_message (started_logger []) _ revoked_os _
              march_second "lost" EACCES ltac:(vm_compute; reflexivity) Hrot)
    as (o' & Hstep & Hcons & Hcalls & Hfile & _).
  eexists _, o'. split; [exact Hstep|]. split; [exact Hcons|].
  split; [exact Hcalls | exact Hfile].
Defined.

Lemma rotation_on_message_witness :
  ∃ s' f', workerRecv march_second queued_stream = Steps s' [(march_second, "next day")] ∧
           currentDate (lg s') = "20250302" ∧ file (lg s') = Some f' ∧
           fds (os s') !! f' = Some "AppLog_20250302.txt" ∧ sweeps s' = 1.
Proof.
  destruct (rotation_on_message queued_stream march_second "next day"
              (Chan.mkChan [] 1000 false)) as (_ & _ & Hok).
  - reflexivity.
  - vm_compute. reflexivity.
  - vm_compute. reflexivity.
  - destruct Hok as (s' & f' & Hstep & _ & Hdate & Hfile & Hfds & Hsw & _).
    + vm_compute. reflexivity.
    + exists s', f'. split; [exact Hstep|]. split; [exact Hdate|].
      split; [exact Hfile|]. split; [exact Hfds | exact Hsw].
Defined.

Lemma started_tied : tied (started_logger []) started_os.
Proof.
  intros f [= <-]. split; [vm_compute; reflexivity|].
  eexists. split; [reflexivity|]. split; reflexivity.
Defined.

Lemma persisted_line_witness :
  ∃ l' o', onMessage march_first "Hello 5" (started_logger []) started_os
           = Continue l' o' false ∧
           pending l' o'
           = Some ("AppLog_20250301.txt", "[2025-03-01 09:05:07] Hello 5" +:+ newline).
Proof.
  eexists _, _. split; [vm_compute; reflexivity|].
  lazymatch goal with
  | |- pending ?a ?b = _ =>
      destruct (persisted_line (started_logger []) a started_os b march_first "Hello 5"
                  false eq_refl ltac:(vm_compute; split; discriminate) started_tied)
        as (_ & _ & Hsame & _)
  end.
  - vm_compute. reflexivity.
  - destruct (Hsame ltac:(vm_compute; reflexivity) today_log ""
                ltac:(vm_compute; reflexivity)) as (_ & _ & Hp).
    exact Hp.
Defined.

Section ExtraWriterFacts.
Implicit Types (w : Writer) (l : internalLogger) (o : OS).

Lemma pending_inv l o name txt :
  pending l o = Some (name, txt) →
  ∃ f w, file l = Some f ∧ writer l = Some w ∧ wfd w = f ∧ werr w = false ∧
         logical w o = Some (name, txt).
Proof.
  unfold pending. destruct (file l) as [f|]; [|done].
  destruct (writer l) as [w|]; [|done].
  destruct (Nat.eqb_spec (wfd w) f) as [Hfd|]; [|done].
  destruct (werr w) eqn:He; [done|]. simpl. intros H. by exists f, w.
Qed.

Lemma pending_intro l o f w :
  file l = Some f → writer l = Some w → wfd w = f → werr w = false →
  pending l o = logical w o.
Proof.
  intros Hf Hw Hfd He. unfold pending. by rewrite Hf, Hw, Hfd, He, Nat.eqb_refl.
Qed.

Lemma flushWriter_pending l o name txt :
  pending l o = Some (name, txt) →
  ∃ f o', flushWriter l o = (set_writer (Some (mkWriter f "" false)) l, o') ∧
          file l = Some f ∧ fds o' = fds o ∧ fds o !! f = Some name ∧
          content o' name = Some txt ∧ next_fd o' = next_fd o ∧ perm o' = perm o ∧
          console o' = console o.
Proof.
  intros (f & w & Hf & Hw & Hfd & He & Hl)%pending_inv.
  destruct (Flush_logical w o name txt He Hl) as (o' & Hfl & Hc & Hfds & Hn & Hp & Hco).
  apply logical_inv in Hl as (c & Hopen & _ & _).
  exists f, o'. unfold flushWriter. rewrite Hw, Hfl, Hfd. rewrite Hfd in Hopen. done.
Qed.
End ExtraWriterFacts.

(** X1. The ticker branch makes buffered bytes durable: after a tick on a
    healthy logger the file holds everything that was written to the
    writer and the buffer is empty; with nothing buffered the tick makes
    no system call at all. *)
Theorem tick_flushes (l : internalLogger) (o : OS) (name txt : string) :
  pending l o = Some (name, txt) →
  content (onTick l o).2 name = Some txt ∧
  pending (onTick l o).1 (onTick l o).2 = Some (name, txt) ∧
  (∃ w', writer (onTick l o).1 = Some w' ∧ wbuf w' = "") ∧
  (∀ w, writer l = Some w → wbuf w = "" → onTick l o = (l, o)).
Proof.
  intros Hp. pose proof Hp as (f & w & Hf & Hw & Hfd & He & Hl)%pending_inv.
  destruct (flushWriter_pending l o name txt Hp)
    as (f' & o' & Hfl & Hf' & Hfds & Hopen & Hc & _).
  assert (f' = f) as -> by congruence.
  unfold flushWriter in Hfl. rewrite Hw in Hfl.
  unfold onTick. rewrite Hw. unfold Buffered.
  destruct (wbuf w) as [|x b] eqn:Hb; cbn [String.length Nat.ltb Nat.leb].
  - cbn [fst snd]. split_and!; [| exact Hp | by exists w | done].
    apply logical_inv in Hl as (c & _ & Hc0 & ->).
    by rewrite Hb, str_app_empty_r.
  - destruct (Flush w o) as [w1 o1]. simplify_eq. simpl. split_and!; try done.
    + rewrite (pending_intro _ o' (wfd w) (mkWriter (wfd w) "" false)) by done.
      unfold logical. simpl. rewrite Hfds, Hopen, Hc. by rewrite str_app_empty_r.
    + by eexists.
    + intros w0 [= <-] Hnil. congruence.
Qed.

Lemma tick_flushes_witness :
  content (onTick buffered_logger started_os).2 "AppLog_20250301.txt" = Some "abc".
Proof.
  apply (tick_flushes buffered_logger started_os "AppLog_20250301.txt" "abc").
  vm_compute. reflexivity.
Defined.

(** X2. The recovery boundary saves what was buffered: when the worker
    leaves by panic with a healthy logger, the deferred closure flushes
    the buffer to the file and syncs the descriptor before [wg.Done]. *)
Theorem recover_flushes_and_syncs (l : internalLogger) (o : OS) (name txt : string) :
  pending l o = Some (name, txt) → (0 < wg l)%Z →
  ∃ l' o' f, runWorker_exit Panicked l o = Some (l', o') ∧
    file l = Some f ∧ content o' name = Some txt ∧
    last (calls o') = Some (SysSync f) ∧ wg l' = (wg l - 1)%Z.
Proof.
  intros Hp Hwg.
  destruct (flushWriter_pending l o name txt Hp)
    as (f & o' & Hfl & Hf & Hfds & Hopen & Hc & _).
  unfold runWorker_exit, recoverHandler, wg_Done. rewrite Hfl. cbn [file set_writer wg].
  rewrite Hf. destruct (Z.ltb_spec (wg l - 1) 0); [lia|].
  eexists _, _, f. split; [reflexivity|]. split_and!; try done.
  simpl. by rewrite last_snoc.
Qed.

Lemma recover_flushes_and_syncs_witness :
  ∃ l' o', runWorker_exit Panicked buffered_logger started_os = Some (l', o') ∧
           content o' "AppLog_20250301.txt" = Some "abc" ∧ wg l' = 0%Z.
Proof.
  destruct (recover_flushes_and_syncs buffered_logger started_os
              "AppLog_20250301.txt" "abc") as (l' & o' & f & Hex & _ & Hc & _ & Hwg).
  - vm_compute. reflexivity.
  - reflexivity.
  - exists l', o'. split; [exact Hex|]. split; [exact Hc | exact Hwg].
Defined.

Section KeepFacts.
Implicit Types (w : Writer) (l : internalLogger) (o : OS).

Lemma content_entry o n c : content o n = Some c ↔ entry o n = Some (File c).
Proof.
  unfold content, entry. destruct (dir o) as [d|]; [|done].
  destruct (d !! n) as [[|c']|]; split; intros; simplify_eq; done.
Qed.

Lemma MkdirAll_entry o n : entry (MkdirAll o).2 n = entry o n.
Proof.
  unfold MkdirAll, entry. cbn [dir called perm].
  destruct (dir o) as [d|] eqn:Hd; cbn [snd dir called]; [by rewrite Hd|].
  destruct (perm o); cbn [snd dir called set_dir]; [done | by rewrite Hd].
Qed.

Lemma OpenFile_entry name o n nd :
  entry o n = Some nd → entry (OpenFile name o).2 n = Some nd.
Proof.
  unfold OpenFile, entry. cbn [dir called perm].
  destruct (dir o) as [d|] eqn:Hd; [|done]. intros Hn.
  destruct (negb (perm o)); cbn [snd dir called]; [by rewrite Hd|].
  destruct (d !! name) as [[|c]|] eqn:Hname; cbn [snd dir called set_fds set_dir];
    rewrite ?Hd; try done.
  rewrite lookup_insert_ne; [done|]. intros ->. congruence.
Qed.

Lemma openFile_entry t l o n nd :
  entry o n = Some nd → entry (openFile t l o).2 n = Some nd.
Proof.
  intros Hn. unfold openFile.
  pose proof (OpenFile_entry (fileName (filePrefix l) (Format_date t)) (MkdirAll o).2 n nd)
    as Hk. rewrite MkdirAll_entry in Hk. specialize (Hk Hn).
  destruct (OpenFile _ _) as [[e|f] o2]; exact Hk.
Qed.
End KeepFacts.

(** X3. [openFile] opens for append and never truncates or removes: every
    entry of the directory is still there afterwards, a missing file is
    created empty, and on failure the logger is returned as it was
    ([file], [writer] and [currentDate] are only set after a successful
    open). *)
Theorem openFile_appends (t : Time) (l : internalLogger) (o : OS) :
  (∀ n nd, entry o n = Some nd → entry (openFile t l o).2 n = Some nd) ∧
  (∀ e, (openFile t l o).1.1 = Some e → (openFile t l o).1.2 = l) ∧
  ((openFile t l o).1.1 = None →
   entry o (fileName (filePrefix l) (Format_date t)) = None →
   content (openFile t l o).2 (fileName (filePrefix l) (Format_date t)) = Some "").
Proof.
  split; [intros n nd; apply openFile_entry|]. split.
  - intros e. unfold openFile. by destruct (OpenFile _ _) as [[e'|f] o2].
  - intros Hok Habs. destruct (openFile t l o) as [[e l'] o'] eqn:Hop.
    simpl in Hok. subst e. simpl. by eapply openFile_creates.
Qed.

Lemma openFile_appends_witness :
  entry (openFile march_second (started_logger []) started_os).2 "AppLog_20250301.txt"
  = Some (File "") ∧
  content (openFile march_second (started_logger []) started_os).2 "AppLog_20250302.txt"
  = Some "".
Proof.
  destruct (openFile_appends march_second (started_logger []) started_os)
    as (Hkeep & _ & Hnew).
  split.
  - apply Hkeep. vm_compute. reflexivity.
  - apply Hnew; vm_compute; reflexivity.
Defined.

(** X4. Rotation loses no buffered byte: whatever the outcome of the open,
    after the rotation the file that was being written holds everything
    written to it so far, and the logger's buffer is empty. *)
Theorem rotation_keeps_old_bytes (l : internalLogger) (o : OS) (now : Time)
    (name txt : string) :
  pending l o = Some (name, txt) →
  content (rotate now l o).2 name = Some txt ∧
  ∃ w', writer (rotate now l o).1.2 = Some w' ∧ wbuf w' = "".
Proof.
  intros Hp.
  destruct (flushWriter_pending l o name txt Hp)
    as (f & o' & Hfl & Hf & Hfds & Hopen & Hc & _).
  unfold rotate. rewrite Hfl.
  set (l2 := set_file None _). set (o2 := closeFile _ o').
  assert (content o2 name = Some txt) as Hc2.
  { subst o2. unfold closeFile. by destruct (file _). }
  split.
  - apply content_entry. apply openFile_entry. by apply content_entry.
  - unfold openFile. destruct (OpenFile _ _) as [[e|f'] o3]; simpl; by eexists.
Qed.

Lemma rotation_keeps_old_bytes_witness :
  content (rotate march_second buffered_logger started_os).2 "AppLog_20250301.txt"
  = Some "abc".
Proof.
  apply (rotation_keeps_old_bytes buffered_logger started_os march_second
           "AppLog_20250301.txt" "abc").
  vm_compute. reflexivity.
Defined.

Section SweepKeepFacts.
Variables (l : internalLogger) (cutoff : string).
Implicit Types (o : OS).

Lemma sweepEntry_frame o e :
  fds (sweepEntry l cutoff o e) = fds o ∧
  next_fd (sweepEntry l cutoff o e) = next_fd o ∧
  perm (sweepEntry l cutoff o e) = perm o ∧
  (perm o = false ∨ dir o = None → dir (sweepEntry l cutoff o e) = dir o).
Proof.
  unfold sweepEntry. destruct e as [name isDir]. destruct isDir; [done|].
  destruct (fileDate (filePrefix l) name) as [ds|]; [|done].
  destruct (lt ds cutoff); [|done].
  unfold Remove. cbn [dir called perm].
  destruct (dir o) as [d|] eqn:Hd; [|done].
  destruct (d !! name) as [[|c]|]; [done | | done].
  destruct (perm o) eqn:Hp; [|done]. simpl. split_and!; try done.
  intros [?|?]; done.
Qed.

Lemma sweepEntry_keeps o e n nd :
  entry o n = Some nd → expired (filePrefix l) cutoff n nd = false →
  entry (sweepEntry l cutoff o e) n = Some nd.
Proof.
  intros Hn Hexp. unfold sweepEntry. destruct e as [name isDir].
  destruct isDir; [done|].
  destruct (fileDate (filePrefix l) name) as [ds|] eqn:Hfd; [|done].
  destruct (lt ds cutoff) eqn:Hlt; [|done].
  unfold Remove, entry in *. cbn [dir called perm print snd].
  destruct (dir o) as [d|] eqn:Hd; [|done].
  destruct (d !! name) as [[|c]|] eqn:Hname; cbn; rewrite ?Hd; try done.
  destruct (perm o); cbn; rewrite ?Hd; [|done].
  rewrite lookup_delete_ne; [done|]. intros ->.
  rewrite Hname in Hn. simplify_eq. unfold expired in Hexp. by rewrite Hfd, Hlt in Hexp.
Qed.

Lemma sweep_fold_frame es : ∀ o,
  fds (foldl (sweepEntry l cutoff) o es) = fds o ∧
  next_fd (foldl (sweepEntry l cutoff) o es) = next_fd o ∧
  perm (foldl (sweepEntry l cutoff) o es) = perm o ∧
  (perm o = false ∨ dir o = None → dir (foldl (sweepEntry l cutoff) o es) = dir o) ∧
  (∀ n nd, entry o n = Some nd → expired (filePrefix l) cutoff n nd = false →
     entry (foldl (sweepEntry l cutoff) o es) n = Some nd).
Proof.
  induction es as [|e es IH]; intros o; [done|]. simpl.
  destruct (sweepEntry_frame o e) as (Hf & Hn & Hp & Hd).
  destruct (IH (sweepEntry l cutoff o e)) as (Hf' & Hn' & Hp' & Hd' & Hk').
  split_and!; try congruence.
  - intros H. rewrite Hd'; [by apply Hd|]. rewrite Hp. destruct H as [?|H0]; [by left|].
    right. by rewrite Hd by (by right).
  - intros n nd H1 H2. apply Hk'; [|done]. by apply sweepEntry_keeps.
Qed.
End SweepKeepFacts.

Section CleanFacts.
Implicit Types (l : internalLogger) (o : OS) (d : gmap string node).

Lemma cleanOldLogs_frame now l o :
  let cutoff := Format_date (AddDate now (- retentionDays l)) in
  fds (cleanOldLogs now l o) = fds o ∧ next_fd (cleanOldLogs now l o) = next_fd o ∧
  perm (cleanOldLogs now l o) = perm o ∧
  (perm o = false ∨ dir o = None → dir (cleanOldLogs now l o) = dir o) ∧
  (∀ n nd, entry o n = Some nd → expired (filePrefix l) cutoff n nd = false →
     entry (cleanOldLogs now l o) n = Some nd).
Proof.
  intros cutoff. unfold cleanOldLogs. destruct (retentionDays l <=? 0)%Z; [done|].
  unfold ReadDir. cbn [dir called]. fold cutoff.
  destruct (dir o) as [d|] eqn:Hd.
  2:{ simpl. split_and!; try done. }
  destruct (sweep_fold_frame l cutoff
              (map (λ e : string * node, (e.1, is_dir e.2)) (map_to_list d))
              (called SysReadDir o)) as (Hf & Hn & Hp & Hdd & Hk).
  split_and!; [done | done | done | |].
  - intros [Hpf|?]; [|done]. rewrite Hdd; [done | by left].
  - intros n nd Hn' He. apply Hk; [|done]. unfold entry in *. simpl.
    rewrite Hd in Hn' |- *. done.
Qed.

Lemma cleanOldLogs_listing now l o d :
  (0 < retentionDays l)%Z → dir o = Some d → perm o = true →
  ∃ d', dir (cleanOldLogs now l o) = Some d' ∧
    ∀ name, d' !! name =
      match d !! name with
      | Some nd =>
          if expired (filePrefix l) (Format_date (AddDate now (- retentionDays l))) name nd
          then None else Some nd
      | None => None
      end.
Proof.
  intros Hpos Hd Hp.
  destruct (sweep_listing l (Format_date (AddDate now (- retentionDays l)))
              (called SysReadDir o) d Hd Hp) as (d' & Hres & Hlook).
  exists d'. split; [|done]. unfold cleanOldLogs, ReadDir.
  replace (retentionDays l <=? 0)%Z with false by (symmetry; apply Z.leb_gt; lia).
  cbn [dir called]. rewrite Hd. exact Hres.
Qed.
End CleanFacts.

(** X5. What the sweep leaves alone.  It never touches descriptors or
    permissions; it removes nothing when it may not modify the directory;
    and every entry survives that is a directory, or whose name lacks the
    prefix and underscore, lacks the [.txt] suffix, is shorter than
    prefix + 13 bytes, or whose eight date bytes are not below the
    cutoff. *)
Theorem sweep_leaves_alone (l : internalLogger) (now : Time) (o : OS) :
  let cutoff := Format_date (AddDate now (- retentionDays l)) in
  let o' := cleanOldLogs now l o in
  fds o' = fds o ∧ next_fd o' = next_fd o ∧ perm o' = perm o ∧
  (perm o = false → dir o' = dir o) ∧
  (∀ n nd, entry o n = Some nd →
     nd = Dir ∨ HasPrefix n (filePrefix l +:+ "_") = false ∨
     HasSuffix n ".txt" = false ∨ len n < len (filePrefix l) + 13 ∨
     (∃ ds, fileDate (filePrefix l) n = Some ds ∧ lt ds cutoff = false) →
     entry o' n = Some nd).
Proof.
  intros cutoff o'.
  destruct (cleanOldLogs_frame now l o) as (Hf & Hn & Hp & Hd & Hk).
  split_and!; try done; [intros H; apply Hd; by left|].
  intros n nd Hent Hwhy. apply Hk; [done|]. unfold expired.
  destruct nd as [|c]; [done|]. unfold fileDate.
  destruct Hwhy as [?|[Hpre|[Hsuf|[Hlen|(ds & Hfd & Hlt)]]]]; [done | | | |].
  - by rewrite Hpre.
  - rewrite Hsuf. by rewrite orb_true_r.
  - destruct (negb _ || negb _); [done|].
    replace (len n <? len (filePrefix l) + 1 + 8 + 4) with true; [done|].
    symmetry. apply Nat.ltb_lt. lia.
  - fold (fileDate (filePrefix l) n). rewrite Hfd. exact Hlt.
Qed.

Lemma sweep_leaves_alone_witness :
  let o := mkOS (Some (<["AppLog_20200101.txt" := Dir]>
                         (<["CommLog_20200101.txt" := File "c"]>
                            (<["AppLog_2020.txt" := File "s"]> ∅))))
                true ∅ 3 [] [] in
  let o' := cleanOldLogs march_first retention_logger o in
  entry o' "AppLog_20200101.txt" = Some Dir ∧
  entry o' "CommLog_20200101.txt" = Some (File "c") ∧
  entry o' "AppLog_2020.txt" = Some (File "s").
Proof.
  intros o o'.
  destruct (sweep_leaves_alone retention_logger march_first o) as (_ & _ & _ & _ & Hk).
  split; [|split].
  - apply Hk; [vm_compute; reflexivity | by left].
  - apply Hk; [vm_compute; reflexivity | right; left; vm_compute; reflexivity].
  - apply Hk; [vm_compute; reflexivity |].
    right; right; right; left. vm_compute. lia.
Defined.

(** X6. Sweeping twice with the same clock removes nothing more than
    sweeping once. *)
Theorem sweep_idempotent (l : internalLogger) (now : Time) (o : OS) :
  dir (cleanOldLogs now l (cleanOldLogs now l o)) = dir (cleanOldLogs now l o).
Proof.
  destruct (Z.leb_spec (retentionDays l) 0) as [Hle|Hpos].
  { unfold cleanOldLogs.
    by replace (retentionDays l <=? 0)%Z with true by (symmetry; apply Z.leb_le; lia). }
  destruct (cleanOldLogs_frame now l o) as (_ & _ & Hp & Hd & _).
  destruct (dir o) as [d|] eqn:Hdir.
  2:{ destruct (cleanOldLogs_frame now l (cleanOldLogs now l o)) as (_ & _ & _ & Hd2 & _).
      apply Hd2. right. rewrite Hd by (by right). done. }
  destruct (perm o) eqn:Hperm.
  2:{ destruct (cleanOldLogs_frame now l (cleanOldLogs now l o)) as (_ & _ & _ & Hd2 & _).
      apply Hd2. left. congruence. }
  destruct (cleanOldLogs_listing now l o d Hpos Hdir Hperm) as (d' & Hres & Hlook).
  destruct (cleanOldLogs_listing now l (cleanOldLogs now l o) d' Hpos Hres)
    as (d'' & Hres2 & Hlook2); [congruence|].
  rewrite Hres2, Hres. f_equal. apply map_eq. intros n. rewrite Hlook2.
  destruct (d' !! n) as [nd|] eqn:Hn; [|done].
  rewrite Hlook in Hn. destruct (d !! n) as [nd0|]; [|done].
  destruct (expired _ _ n nd0) eqn:He; [done|]. simplify_eq. by rewrite He.
Qed.

Section NameFacts.
Local Arguments String.append : simpl nomatch.
Implicit Types a b s : string.

Lemma length_substring s n m :
  n + m ≤ String.length s → String.length (String.substring n m s) = m.
Proof.
  revert n m. induction s as [|x s IH]; intros [|n] [|m] H; simpl in *; try lia.
  - rewrite (IH 0 m); lia.
  - apply (IH n 0). lia.
  - apply (IH n (S m)). lia.
Qed.

Lemma HasPrefix_inv s p : HasPrefix s p = true → ∃ r, s = p +:+ r.
Proof.
  unfold HasPrefix, slice, len. rewrite Nat.sub_0_r.
  intros (Hle & Heq%String.eqb_eq)%andb_true_iff.
  exists (String.substring (String.length p) (String.length s - String.length p) s).
  rewrite <- (substring_split s (String.length p)) at 1. by rewrite Heq.
Qed.

Lemma HasSuffix_inv s q : HasSuffix s q = true → ∃ r, s = r +:+ q.
Proof.
  unfold HasSuffix, slice, len.
  intros (Hle%Nat.leb_le & Heq%String.eqb_eq)%andb_true_iff.
  exists (String.substring 0 (String.length s - String.length q) s).
  rewrite <- (substring_split s (String.length s - String.length q)) at 1.
  by rewrite Heq.
Qed.

Lemma app_inv_tail_length a a' b b' :
  a +:+ b = a' +:+ b' → String.length b = String.length b' → a = a' ∧ b = b'.
Proof.
  revert a'. induction a as [|x a IH]; intros [|x' a'] Heq Hlen; simpl in *.
  - done.
  - subst b. simpl in Hlen. rewrite str_length_app in Hlen. lia.
  - subst b'. simpl in Hlen. rewrite str_length_app in Hlen. lia.
  - injection Heq as -> Heq. destruct (IH a' Heq Hlen) as [-> ->]. done.
Qed.
End NameFacts.

(** X7. The names the sweep considers are exactly those of the form
    [prefix_] + eight bytes + anything + [.txt]; the eight bytes are what
    it compares with the cutoff.  Neither digits nor an empty middle part
    are required. *)
Theorem fileDate_accepts (prefix name ds : string) :
  fileDate prefix name = Some ds ↔
  ∃ mid, name = prefix +:+ "_" +:+ ds +:+ mid +:+ ".txt" ∧ String.length ds = 8.
Proof.
  split.
  - unfold fileDate.
    destruct (HasPrefix name (prefix +:+ "_")) eqn:Hpre; [|done].
    destruct (HasSuffix name ".txt") eqn:Hsuf; [|done]. cbn [negb orb].
    destruct (Nat.ltb_spec (len name) (len prefix + 1 + 8 + 4)) as [|Hlen]; [done|].
    intros [= <-].
    apply HasPrefix_inv in Hpre as (r & ->). apply HasSuffix_inv in Hsuf as (r' & Hr').
    unfold len in Hlen. rewrite !str_length_app in Hlen. cbn [String.length] in Hlen.
    assert (12 ≤ String.length r) as Hr by lia.
    unfold slice, len.
    replace (String.length prefix + 1) with (String.length (prefix +:+ "_") + 0)
      by (rewrite str_length_app; simpl; lia).
    replace (String.length (prefix +:+ "_") + 0 + 8 - (String.length (prefix +:+ "_") + 0))
      with 8 by lia.
    rewrite substring_skip_app.
    set (ds := String.substring 0 8 r).
    set (tl := String.substring 8 (String.length r - 8) r).
    assert (r = ds +:+ tl) as Hsplit by (symmetry; apply substring_split).
    assert (String.length ds = 8) as Hds by (apply length_substring; lia).
    assert (4 ≤ String.length tl) as Htl.
    { pose proof (f_equal String.length Hsplit) as H.
      rewrite str_length_app in H. lia. }
    set (mid := String.substring 0 (String.length tl - 4) tl).
    set (ext := String.substring (String.length tl - 4) (String.length tl - (String.length tl - 4)) tl).
    assert (tl = mid +:+ ext) as Htlsplit by (symmetry; apply substring_split).
    assert (String.length ext = 4) as Hext.
    { subst ext. rewrite length_substring; lia. }
    assert (ext = ".txt") as Hdot.
    { rewrite Hsplit, Htlsplit in Hr'.
      rewrite <- !str_app_assoc in Hr'.
      by apply app_inv_tail_length in Hr' as [_ ?]. }
    exists mid. split; [|done].
    rewrite <- Hdot, <- Htlsplit, <- Hsplit. by rewrite str_app_assoc.
  - intros (mid & -> & Hlen). unfold fileDate.
    rewrite <- (str_app_assoc prefix "_"), HasPrefix_app.
    rewrite <- (str_app_assoc ds mid), <- (str_app_assoc (prefix +:+ "_")), HasSuffix_app.
    cbn [negb orb]. unfold len, slice.
    rewrite !str_length_app, Hlen.
    change (String.length "_") with 1. change (String.length ".txt") with 4.
    destruct (Nat.ltb_spec (String.length prefix + 1 + (8 + String.length mid) + 4)
                           (String.length prefix + 1 + 8 + 4)); [lia|].
    rewrite !str_app_assoc.
    rewrite <- (str_app_assoc prefix "_").
    replace (String.length prefix + 1) with (String.length (prefix +:+ "_"))
      by (rewrite str_length_app; done).
    replace (String.length (prefix +:+ "_") + 8 - String.length (prefix +:+ "_"))
      with (String.length ds) by lia.
    by rewrite substring_mid.
Qed.

Lemma fileDate_accepts_witness :
  fileDate "AppLog" "AppLog_1999XXXX_old.txt" = Some "1999XXXX".
Proof.
  apply (fileDate_accepts "AppLog" "AppLog_1999XXXX_old.txt" "1999XXXX").
  exists "_old". split; reflexivity.
Defined.

Section OrderFacts.
Implicit Types a b c t : Time.





Lemma Format_date_before a b :
  valid a = true → valid b = true →
  (0 ≤ year a ≤ 9999)%Z → (0 ≤ year b ≤ 9999)%Z →
  date_before a b → String.compare (Format_date a) (Format_date b) = Lt.
Proof.
  intros Ha Hb Hya Hyb Hlt. rewrite !Format_date_fixed by done.
  destruct (valid_spec b Hb) as (Hm & Hd & _).
  pose proof (days_in_bounds (year b) (month b)).
  apply date_compare; [by apply lt_pow4 | lia | lia |].
  unfold date_before in Hlt.
  destruct Hlt as [Hlt | [Heq Hlt]]; [left; apply Z2Nat.inj_lt; lia|].
  right. split; [by rewrite Heq | exact Hlt].
Qed.
Lemma Format_date_lt_iff (a b : Time) :
  valid a = true → valid b = true →
  (0 ≤ year a ≤ 9999)%Z → (0 ≤ year b ≤ 9999)%Z →
  (lt (Format_date a) (Format_date b) = true ↔ date_before a b).
Proof.
  intros Ha Hb Hya Hyb. unfold lt, String.ltb. split.
  - intros Hlt.
    destruct (valid_spec a Ha) as (Hma & Hda & _).
    destruct (valid_spec b Hb) as (Hmb & Hdb & _).
    destruct (decide (date_before a b)) as [|Hnot]; [done|].
    destruct (decide (date_before b a)) as [Hba|Hnba].
    + rewrite String.compare_antisym, (Format_date_before b a) in Hlt by done. done.
    + assert (year a = year b ∧ month a = month b ∧ day a = day b) as (Hy & Hm & Hd)
        by (unfold date_before in *; lia).
      rewrite !Format_date_fixed in Hlt by done.
      rewrite Hy, Hm, Hd, compare_refl in Hlt. done.
  - intros Hlt. by rewrite Format_date_before.
Qed.
End OrderFacts.

(** X8. The comparison of line 141 is a date comparison: for clock
    readings with four-digit years, the YYYYMMDD string of one is bytewise
    below that of the other exactly when its date is earlier. *)
Theorem Format_date_order (a b : Time) :
  valid a = true → valid b = true →
  (0 ≤ year a ≤ 9999)%Z → (0 ≤ year b ≤ 9999)%Z →
  (lt (Format_date a) (Format_date b) = true ↔ date_before a b).
Proof. exact (Format_date_lt_iff a b). Qed.

Lemma Format_date_order_witness :
  lt (Format_date (mkTime 2024 12 31 23 59 59)) (Format_date (mkTime 2025 1 1 0 0 0)) = true.
Proof.
  apply (Format_date_order (mkTime 2024 12 31 23 59 59) (mkTime 2025 1 1 0 0 0));
    [reflexivity | reflexivity | simpl; lia | simpl; lia |].
  left. simpl. lia.
Defined.



Section TiedFacts.
Implicit Types (w : Writer) (l : internalLogger) (o : OS) (s : System).







End TiedFacts.



(** X11. The recovery boundary is never entered by the program's own
    faults: from construction on, in every interleaving, [l.writer] is
    not nil (so line 194 cannot dereference nil), the worker never leaves
    by panic, its moves never crash the process, and the counter of the
    wait group is 1 while it runs and 0 once it has returned. *)
Theorem worker_never_panics (dirPath prefix : string) (ret : Z) (tc topen : Time)
    (o : OS) (s0 s : System) (tr : list action) (d : list (Time * string)) :
  newLogFunc dirPath prefix ret tc topen o = InitOk s0 →
  exec tr s0 = Some (s, d) →
  is_Some (writer (lg s)) ∧
  worker s ≠ Exited Panicked ∧
  (worker s = Running → wg (lg s) = 1%Z) ∧
  (worker s = Exited Returned → wg (lg s) = 0%Z) ∧
  (∀ now, workerRecv now s ≠ Crashes) ∧ workerTick s ≠ Crashes.
Proof.
  intros Hinit Hex.
  pose proof (exec_wf _ _ _ _ (newLogFunc_wf _ _ _ _ _ _ _ Hinit) Hex)
    as (Hcap & Hlen & Hw & Hst).
  split; [done|]. split; [by intros H; rewrite H in Hst|].
  split; [by intros H; rewrite H in Hst|].
  split; [intros H; rewrite H in Hst; by destruct Hst|]. split.
  - intros now. unfold workerRecv. destruct (worker s) eqn:Hwk; [|done].
    destruct (Chan.recv _) as [msg c| |]; [| |done].
    + destruct (onMessage_config now msg (set_chan c (lg s)) (os s)) as (_ & Hok).
      destruct (Hok Hw) as (l' & o' & sp & -> & _). done.
    + unfold workerExit.
      destruct (runWorker_exit_runs Returned (lg s) (os s)) as (l' & o' & ->); [lia|done].
  - unfold workerTick. destruct (worker s); [|done]. by destruct (onTick _ _).
Qed.

Lemma worker_never_panics_witness :
  ∃ s d, exec [Emit "a"; Recv march_second; Tick; Close; Recv march_second] started_stream
         = Some (s, d) ∧
         worker s ≠ Exited Panicked ∧ is_Some (writer (lg s)).
Proof.
  eexists _, _. split; [vm_compute; reflexivity|].
  lazymatch goal with
  | |- worker ?a ≠ _ ∧ _ =>
      destruct (worker_never_panics "c:\log" "AppLog" 30 march_first march_first fresh_os
                  started_stream a
                  [Emit "a"; Recv march_second; Tick; Close; Recv march_second]
                  [(march_second, "a")]) as (Hw & Hnp & _)
  end.
  - vm_compute. reflexivity.
  - vm_compute. reflexivity.
  - split; [exact Hnp | exact Hw].
Defined.

(** X12. [closeFn] returns only after the drain: in every interleaving from
    construction, its wait blocks while the worker runs, and when it
    completes the queue is closed and empty, the worker has left by
    [return], and every accepted message has been handed to the worker. *)
Theorem shutdown_waits_for_drain (dirPath prefix : string) (ret : Z) (tc topen : Time)
    (o : OS) (s0 s : System) (tr : list action) (d : list (Time * string)) :
  newLogFunc dirPath prefix ret tc topen o = InitOk s0 →
  exec tr s0 = Some (s, d) →
  (worker s = Running → closeFn_wait s = Blocks) ∧
  (∀ s' d', closeFn_wait s = Steps s' d' →
     worker s = Exited Returned ∧
     Chan.cbuf (msgChan (lg s)) = [] ∧ Chan.cclosed (msgChan (lg s)) = true ∧
     d.*2 = accepted tr).
Proof.
  intros Hinit Hex.
  pose proof (exec_wf _ _ _ _ (newLogFunc_wf _ _ _ _ _ _ _ Hinit) Hex)
    as (Hcap & Hlen & Hw & Hst).
  pose proof (exec_queue _ _ _ _ Hex) as Hq.
  destruct (newLogFunc_started _ _ _ _ _ _ _ Hinit) as (_ & _ & Hch & _).
  rewrite Hch in Hq. simpl in Hq.
  unfold closeFn_wait. split.
  - intros Hrun. rewrite Hrun in Hst. by rewrite Hst.
  - intros s' d'. destruct (Z.ltb_spec 0 (wg (lg s))) as [|Hwg]; [done|]. intros _.
    destruct (worker s) as [|[|]]; [lia | | done].
    destruct Hst as (_ & Hnil & Hcl). rewrite Hnil, app_nil_r in Hq. done.
Qed.

Lemma shutdown_waits_for_drain_witness :
  ∃ s d, exec [Emit "a"; Close] started_stream = Some (s, d) ∧ closeFn_wait s = Blocks.
Proof.
  eexists _, _. split; [vm_compute; reflexivity|].
  lazymatch goal with
  | |- closeFn_wait ?a = _ =>
      apply (shutdown_waits_for_drain "c:\log" "AppLog" 30 march_first march_first fresh_os
               started_stream a [Emit "a"; Close] [])
  end; vm_compute; reflexivity.
Defined.

(** X13. [closeFn] may be called once: after its [close(msgChan)], in every
    interleaving, a second call panics on closing the closed channel. *)
Theorem closeFn_twice_panics (s s1 s2 : System) (d1 d2 : list (Time * string))
    (tr : list action) :
  closeFn_close s = Steps s1 d1 →
  exec tr s1 = Some (s2, d2) →
  closeFn_close s2 = Crashes ∧ Close ∉ tr.
Proof.
  intros Hclose Hex.
  assert (Chan.cclosed (msgChan (lg s1)) = true) as Hcl.
  { unfold closeFn_close, Chan.close in Hclose.
    destruct (Chan.cclosed (msgChan (lg s))); [done|]. by simplify_eq. }
  split.
  - destruct (exec_closed _ _ _ _ Hcl Hex) as (Hcl2 & _).
    unfold closeFn_close, Chan.close. by rewrite Hcl2.
  - clear Hclose. revert s1 s2 d2 Hcl Hex.
    induction tr as [|a tr IH]; intros s1 s2 d2 Hcl Hex; [by apply not_elem_of_nil|].
    apply exec_cons in Hex as (s3 & d3 & d4 & Hstep & Hex & _). simpl in Hex.
    destruct (step_closed _ _ _ _ Hcl Hstep) as (Hcl3 & _).
    apply not_elem_of_cons. split; [|by eapply IH].
    intros <-. simpl in Hstep. unfold closeFn_close, Chan.close in Hstep.
    by rewrite Hcl in Hstep.
Qed.

Lemma closeFn_twice_panics_witness :
  ∃ s1 s2, closeFn_close started_stream = Steps s1 [] ∧
           exec [Recv march_first; Wait] s1 = Some (s2, []) ∧
           closeFn_close s2 = Crashes.
Proof.
  eexists _, _. split; [vm_compute; reflexivity|].
  lazymatch goal with
  | |- exec ?tr ?a = _ ∧ _ =>
      split; [vm_compute; reflexivity|];
      lazymatch goal with
      | |- closeFn_close ?b = _ =>
          apply (closeFn_twice_panics started_stream a b [] [] tr)
      end
  end; vm_compute; reflexivity.
Defined.

Section WrittenFacts.
Implicit Types (w : Writer) (l : internalLogger) (o : OS) (s : System).

Lemma written_app a b : written (a ++ b) = written a +:+ written b.
Proof.
  induction a as [|c a IH]; simpl; [done|].
  destruct c; rewrite ?IH; try done. by rewrite str_app_assoc.
Qed.





Lemma sweepEntry_written l cutoff o e :
  written (calls (sweepEntry l cutoff o e)) = written (calls o) ∧
  ∃ ext, console (sweepEntry l cutoff o e) = console o ++ ext ∧
         ∀ err, OpenFailed err ∉ ext.
Proof.
  assert (∃ ext : list line, console o = console o ++ ext ∧ ∀ err, OpenFailed err ∉ ext)
    as Hsame by (exists []; rewrite app_nil_r; split; [done | intros; apply not_elem_of_nil]).
  unfold sweepEntry. destruct e as [name isDir]. destruct isDir; [done|].
  destruct (fileDate (filePrefix l) name) as [ds|]; [|done].
  destruct (lt ds cutoff); [|done].
  assert (calls (Remove name o).2 = calls o ++ [SysRemove name] ∧
          console (Remove name o).2 = console o) as (Hc & Hco).
  { unfold Remove. cbn [dir called perm]. destruct (dir o) as [d|]; [|done].
    destruct (d !! name) as [[|c]|]; [done | | done]. by destruct (perm o). }
  simpl. rewrite Hc, Hco, written_app. simpl. rewrite str_app_empty_r. split; [done|].
  eexists. split; [reflexivity|]. intros err Hin. apply list_elem_of_singleton in Hin. done.
Qed.

Lemma cleanOldLogs_written now l o :
  written (calls (cleanOldLogs now l o)) = written (calls o) ∧
  ∃ ext, console (cleanOldLogs now l o) = console o ++ ext ∧ ∀ err, OpenFailed err ∉ ext.
Proof.
  assert (∀ es o0, written (calls (foldl (sweepEntry l
             (Format_date (AddDate now (- retentionDays l)))) o0 es)) = written (calls o0) ∧
           ∃ ext, console (foldl (sweepEntry l
             (Format_date (AddDate now (- retentionDays l)))) o0 es) = console o0 ++ ext ∧
             ∀ err, OpenFailed err ∉ ext) as Hfold.
  { induction es as [|e es IH]; intros o0.
    - simpl. split; [done|]. exists []. rewrite app_nil_r. split; [done|].
      intros; apply not_elem_of_nil.
    - simpl. destruct (IH (sweepEntry l (Format_date (AddDate now (- retentionDays l))) o0 e))
        as (Hw & ext & Hc & Hno).
      destruct (sweepEntry_written l (Format_date (AddDate now (- retentionDays l))) o0 e)
        as (Hw' & ext' & Hc' & Hno').
      split; [congruence|]. exists (ext' ++ ext). rewrite Hc, Hc'.
      split; [by rewrite (assoc_L (++))|].
      intros err [?|?]%elem_of_app; [by apply (Hno' err) | by apply (Hno err)]. }
  unfold cleanOldLogs. destruct (retentionDays l <=? 0)%Z.
  { split; [done|]. exists []. rewrite app_nil_r. split; [done|].
    intros; apply not_elem_of_nil. }
  unfold ReadDir. cbn [dir called]. destruct (dir o) as [d|].
  - destruct (Hfold (map (λ e : string * node, (e.1, is_dir e.2)) (map_to_list d))
                (called SysReadDir o)) as (Hw & ext & Hc & Hno).
    split; [|by exists ext]. rewrite Hw. simpl. rewrite written_app. simpl.
    by rewrite str_app_empty_r.
  - simpl. rewrite written_app. simpl. rewrite str_app_empty_r. split; [done|].
    exists []. rewrite app_nil_r. split; [done|]. intros; apply not_elem_of_nil.
Qed.
End WrittenFacts.

Section StreamFacts.
Implicit Types (w : Writer) (l : internalLogger) (o : OS) (s : System).

Lemma console_same (o o' : OS) :
  console o' = console o → ∃ ext : list line, console o' = console o ++ ext.
Proof. intros ->. exists []. by rewrite app_nil_r. Qed.

Lemma writeLine_console now msg l o sp :
  console (iteration_os (writeLine now msg l o sp)) = console o.
Proof.
  unfold writeLine. destruct (writer l) as [w|]; [|done].
  destruct (WriteString_frame (logLine (Format_stamp now) msg) w o) as (_ & _ & _ & Hc & _).
  by destruct (WriteString _ w o).
Qed.

Lemma onMessage_console now msg l o :
  ∃ ext, console (iteration_os (onMessage now msg l o)) = console o ++ ext.
Proof.
  unfold onMessage. destruct (needsRotation now l).
  - destruct (rotate_frame now l o) as (_ & Hc & _).
    destruct (rotate now l o) as [[[e|] l3] o3]; simpl in Hc.
    + eexists. simpl. rewrite Hc, <- (assoc_L (++)). reflexivity.
    + eexists. rewrite writeLine_console. simpl. rewrite Hc. reflexivity.
  - apply console_same, writeLine_console.
Qed.

Lemma runWorker_exit_console k l o l' o' :
  runWorker_exit k l o = Some (l', o') → console o' = console o.
Proof.
  unfold runWorker_exit, recoverHandler. destruct k.
  - destruct (wg_Done l); [|done]. by intros [= _ <-].
  - destruct (flushWriter_frame l o) as (_ & _ & _ & _ & Hc & _).
    destruct (flushWriter l o) as [l1 o1]. simpl in Hc.
    destruct (wg_Done l1); [|done]. intros [= _ <-]. by destruct (file l1).
Qed.

Lemma step_console a s s' d :
  step a s = Steps s' d → ∃ ext, console (os s') = console (os s) ++ ext.
Proof.
  intros Hstep. destruct a; simpl in Hstep.
  - unfold logFn in Hstep. destruct (Chan.send _ _); [|done..]. simplify_eq.
    by apply console_same.
  - unfold workerRecv in Hstep. destruct (worker s); [|done].
    destruct (Chan.recv _) as [msg c| |]; [| |done].
    + destruct (onMessage_console now msg (set_chan c (lg s)) (os s)) as (ext & Hc).
      destruct (onMessage _ _ _ _) as [l o sp|l o sp]; simpl in Hc.
      * simplify_eq. by exists ext.
      * unfold workerExit in Hstep. simpl in Hstep.
        destruct (runWorker_exit _ _ _) as [[l1 o1]|] eqn:Hex; [|done].
        apply runWorker_exit_console in Hex. simplify_eq. simpl. exists ext. congruence.
    + unfold workerExit in Hstep.
      destruct (runWorker_exit _ _ _) as [[l1 o1]|] eqn:Hex; [|done].
      apply runWorker_exit_console in Hex. simplify_eq. by apply console_same.
  - unfold workerTick in Hstep. destruct (worker s); [|done].
    assert (console (onTick (lg s) (os s)).2 = console (os s)) as Hc.
    { unfold onTick. destruct (writer (lg s)) as [w|]; [|done].
      destruct (0 <? Buffered w); [|done].
      destruct (Flush_frame w (os s)) as (_ & _ & _ & _ & Hc & _).
      by destruct (Flush w (os s)). }
    destruct (onTick _ _) as [l o]. simplify_eq. by apply console_same.
  - unfold closeFn_close in Hstep. destruct (Chan.close _); [|done]. simplify_eq.
    by apply console_same.
  - unfold closeFn_wait in Hstep. destruct (_ <? _)%Z; [done|].
    destruct (flushWriter_frame (lg s) (os s)) as (_ & _ & _ & _ & Hc & _).
    destruct (flushWriter _ _) as [l1 o1]. simplify_eq. simpl in *.
    eexists. f_equal. unfold closeFile. destruct (file l1); simpl; exact Hc.
  - unfold sweepRun in Hstep. destruct (sweeps s); [done|]. simplify_eq. simpl.
    destruct (cleanOldLogs_written now (lg s) (os s)) as (_ & ext & Hc & _). by exists ext.
Qed.


End StreamFacts.

Section StreamInvFacts.
Variable (w0 : string).
Implicit Types (s : System) (tr : list action) (d : list (Time * string)).


End StreamInvFacts.



Section InitFacts.
Implicit Types (l : internalLogger) (o : OS).

Lemma openFile_fd t l o l' o' :
  openFile t l o = (None, l', o') →
  file l' = Some (next_fd o) ∧ next_fd o' = S (next_fd o) ∧
  ∀ g, g ≠ next_fd o → fds o' !! g = fds o !! g.
Proof.
  unfold openFile, OpenFile.
  set (name := fileName (filePrefix l) (Format_date t)).
  assert (next_fd (MkdirAll o).2 = next_fd o ∧ fds (MkdirAll o).2 = fds o) as (Hn & Hf).
  { unfold MkdirAll. cbn [dir called perm]. destruct (dir o); [done|]. by destruct (perm o). }
  cbn [dir called perm next_fd fds].
  destruct (dir (MkdirAll o).2) as [d|]; [|done].
  destruct (negb _); [done|].
  destruct (d !! name) as [[|c]|]; [done | |]; intros [= <- <-]; simpl;
    rewrite Hn, Hf; (split_and!; [done | done |]); intros g Hg;
    by rewrite lookup_insert_ne.
Qed.

Lemma AppLog_not_CommLog n :
  HasPrefix n "AppLog_" = true → HasPrefix n "CommLog_" = false.
Proof.
  intros (r & ->)%HasPrefix_inv. unfold HasPrefix, slice, len.
  apply andb_false_iff. right. reflexivity.
Qed.

Lemma CommLog_not_AppLog n :
  HasPrefix n "CommLog_" = true → HasPrefix n "AppLog_" = false.
Proof.
  intros (r & ->)%HasPrefix_inv. unfold HasPrefix, slice, len.
  apply andb_false_iff. right. reflexivity.
Qed.

Lemma fileDate_other_prefix x : fileDate "CommLog" (fileName "AppLog" x) = None.
Proof.
  unfold fileDate. change ("CommLog" +:+ "_") with "CommLog_".
  rewrite AppLog_not_CommLog; [done|].
  change (fileName "AppLog" x) with ("AppLog_" +:+ (x +:+ ".txt")).
  apply HasPrefix_app.
Qed.

Lemma onTick_idle l o w :
  writer l = Some w → wbuf w = "" → onTick l o = (l, o).
Proof. intros Hw Hb. unfold onTick, Buffered. by rewrite Hw, Hb. Qed.

Lemma expired_no_prefix p cutoff n nd :
  HasPrefix n (p +:+ "_") = false → expired p cutoff n nd = false.
Proof.
  intros H. unfold expired. destruct nd as [|c]; [done|]. unfold fileDate. by rewrite H.
Qed.
End InitFacts.

(** X15. [init] gives two streams that share [c:\log] without disturbing
    each other: [AppLog] keeps 60 days and [CommLog] 30; when [init]
    returns both workers run, the two descriptors differ and both are
    open on their own file, the file of [AppLog] having survived the
    construction of [CommLog]; and at any later time a sweep of either
    stream keeps every entry whose name starts with the other's prefix. *)
Theorem init_streams_share_directory (t1 t2 t3 t4 : Time) (o : OS) (p : Program) :
  init t1 t2 t3 t4 o = InitDone p →
  let la := slg (appLog p) in
  let lc := slg (commLog p) in
  sworker (appLog p) = Running ∧ sworker (commLog p) = Running ∧
  retentionDays la = 60%Z ∧ retentionDays lc = 30%Z ∧
  (∃ fa fc, file la = Some fa ∧ file lc = Some fc ∧ fa ≠ fc ∧
     fds (machine p) !! fa = Some (fileName "AppLog" (Format_date t2)) ∧
     fds (machine p) !! fc = Some (fileName "CommLog" (Format_date t4)) ∧
     is_Some (content (machine p) (fileName "AppLog" (Format_date t2))) ∧
     is_Some (content (machine p) (fileName "CommLog" (Format_date t4)))) ∧
  (∀ now o' n nd, entry o' n = Some nd →
     (HasPrefix n "AppLog_" = true → entry (cleanOldLogs now lc o') n = Some nd) ∧
     (HasPrefix n "CommLog_" = true → entry (cleanOldLogs now la o') n = Some nd)).
Proof.
  unfold init.
  destruct (newLogFunc "c:\log" "AppLog" 60 t1 t2 o) as [|sa] eqn:Ha; [done|].
  destruct (newLogFunc "c:\log" "CommLog" 30 t3 t4 (os sa)) as [|sc] eqn:Hc; [done|].
  intros [= <-]. cbn [appLog commLog machine detach slg sworker].
  destruct (newLogFunc_started _ _ _ _ _ _ _ Ha)
    as (Hra & _ & _ & _ & _ & Hpa & Hreta & fa & Hfa & _ & Hfda & [ca Hca]).
  destruct (newLogFunc_started _ _ _ _ _ _ _ Hc)
    as (Hrc & _ & _ & _ & _ & Hpc & Hretc & fc & Hfc & _ & Hfdc & Hcc).
  split_and!; try done.
  - (* the second construction, step by step *)
    revert Hc. unfold newLogFunc.
    destruct (MkdirAll (os sa)) as [[e|] o1] eqn:Hmk; [done|].
    set (logger := mkLogger _ _ _ _ _ _ _ _).
    destruct (openFile t4 logger (cleanOldLogs t3 logger o1)) as [[[e|] l3] o3] eqn:Hop;
      [done|].
    intros [= <-]. cbn [lg os wg_Add set_wg file] in *.
    destruct (openFile_fd _ _ _ _ _ Hop) as (Hfile3 & Hnext & Hkeep).
    assert (fds o1 = fds (os sa) ∧ next_fd o1 = next_fd (os sa)) as (Hf1 & Hn1).
    { revert Hmk. unfold MkdirAll. cbn [dir called perm].
      destruct (dir (os sa)); [by intros [= <-]|]. destruct (perm (os sa)); by intros [= <-]. }
    destruct (cleanOldLogs_frame t3 logger o1) as (Hf2 & Hn2 & _ & _ & Hk2).
    assert (entry o1 (fileName "AppLog" (Format_date t2)) = Some (File ca)) as Hent1.
    { pose proof (MkdirAll_entry (os sa) (fileName "AppLog" (Format_date t2))) as He.
      rewrite Hmk in He. simpl in He. rewrite He. by apply content_entry. }
    assert (fa < next_fd (os sa)) as Hlt.
    { revert Ha. unfold newLogFunc.
      destruct (MkdirAll o) as [[e|] oa1]; [done|].
      destruct (openFile t2 _ _) as [[[e|] la3] oa3] eqn:Hopa; [done|].
      destruct (openFile_fd _ _ _ _ _ Hopa) as (Hfa3 & Hna & _).
      intros [= <-]. simpl in *. rewrite Hfa3 in Hfa. injection Hfa as <-. lia. }
    rewrite Hfile3 in Hfc. injection Hfc as <-.
    exists fa, (next_fd (cleanOldLogs t3 logger o1)).
    rewrite Hn2, Hn1. split_and!; try done; [by rewrite Hfile3, Hn2, Hn1 | lia | | |].
    + change (fds (print _ o3)) with (fds o3). rewrite Hkeep by (rewrite Hn2, Hn1; lia).
      by rewrite Hf2, Hf1.
    + by rewrite Hn2, Hn1 in Hfdc.
    + change (content (print _ o3) ?n) with (content o3 n).
      exists ca. apply content_entry.
      pose proof (openFile_entry t4 logger (cleanOldLogs t3 logger o1)
                    (fileName "AppLog" (Format_date t2)) (File ca)) as Hk.
      rewrite Hop in Hk. apply Hk. apply Hk2; [done|].
      unfold expired. change (filePrefix logger) with "CommLog".
      by rewrite fileDate_other_prefix.
  - intros now o' n nd Hent. split; intros Hpre.
    + destruct (cleanOldLogs_frame now (lg sc) o') as (_ & _ & _ & _ & Hk).
      apply Hk; [done|]. apply expired_no_prefix. rewrite Hpc.
      by apply AppLog_not_CommLog.
    + destruct (cleanOldLogs_frame now (lg sa) o') as (_ & _ & _ & _ & Hk).
      apply Hk; [done|]. apply expired_no_prefix. rewrite Hpa.
      by apply CommLog_not_AppLog.
Qed.

Lemma init_streams_share_directory_witness :
  ∃ p, init march_first march_first march_first march_first fresh_os = InitDone p ∧
       file (slg (appLog p)) = Some 3 ∧ file (slg (commLog p)) = Some 4 ∧
       is_Some (content (machine p) "AppLog_20250301.txt").
Proof.
  eexists. split; [vm_compute; reflexivity|].
  split; [vm_compute; reflexivity|]. split; [vm_compute; reflexivity|].
  lazymatch goal with
  | |- is_Some (content (machine ?a) _) =>
      destruct (init_streams_share_directory march_first march_first march_first
                  march_first fresh_os a)
        as (_ & _ & _ & _ & (fa & fc & _ & _ & _ & _ & _ & Hc & _) & _)
  end.
  - vm_compute. reflexivity.
  - exact Hc.
Defined.

Section ProgramFacts.
Implicit Types (p : Program) (s : System) (w : which) (a : action).

Lemma pstep_inv w a p p' :
  pstep (w, a) p = Some p' →
  ∃ s d, step a (attach w p) = Steps s d ∧ p' = put w s p.
Proof.
  unfold pstep. simpl. destruct (step a (attach w p)) as [s d| |]; [|done..].
  intros [= <-]. by exists s, d.
Qed.

Lemma attach_put w s p : attach w (put w s p) = s.
Proof. by destruct w, s. Qed.

Lemma stream_put_other w w' s p : w ≠ w' → stream_of w' (put w s p) = stream_of w' p.
Proof. by destruct w, w'. Qed.

Lemma machine_put w s p : machine (put w s p) = os s.
Proof. by destruct w. Qed.

Lemma stream_put w s p : stream_of w (put w s p) = detach s.
Proof. by destruct w. Qed.

Lemma prun_app tr1 : ∀ tr2 p p',
  prun (tr1 ++ tr2) p = Some p' ↔ ∃ q, prun tr1 p = Some q ∧ prun tr2 q = Some p'.
Proof.
  induction tr1 as [|m tr1 IH]; intros tr2 p p'; simpl.
  - split; [intros H; by exists p | by intros (q & [= <-] & H)].
  - destruct (pstep m p) as [p1|]; [apply IH|].
    split; [done | by intros (q & ? & _)].
Qed.

Lemma prun_cons m tr p p' :
  prun (m :: tr) p = Some p' ↔ ∃ q, pstep m p = Some q ∧ prun tr q = Some p'.
Proof.
  simpl. destruct (pstep m p) as [q|].
  - split; [intros H; by exists q | by intros (q' & [= <-] & H)].
  - split; [done | by intros (q & ? & _)].
Qed.

(** [wf] does not look at the machine. *)
Lemma wf_stream l o o' k n n' : wf (mkSys l o k n) → wf (mkSys l o' k n').
Proof. done. Qed.

Lemma pstep_wf m p p' : pwf p → pstep m p = Some p' → pwf p'.
Proof.
  destruct m as [w a]. intros Hwf (s & d & Hstep & ->)%pstep_inv w'.
  destruct (decide (w = w')) as [<-|Hne].
  - rewrite attach_put. eapply step_wf; [apply Hwf | exact Hstep].
  - unfold attach. rewrite stream_put_other by done. eapply wf_stream, (Hwf w').
Qed.

Lemma prun_wf tr : ∀ p p', pwf p → prun tr p = Some p' → pwf p'.
Proof.
  induction tr as [|m tr IH]; intros p p' Hwf; [by intros [= <-]|].
  intros (q & Hstep & Hrun)%prun_cons. eapply IH; [|exact Hrun]. by eapply pstep_wf.
Qed.

Lemma pstep_exited m p p' w k :
  sworker (stream_of w p) = Exited k → pstep m p = Some p' →
  sworker (stream_of w p') = Exited k.
Proof.
  destruct m as [w0 a]. intros Hk (s & d & Hstep & ->)%pstep_inv.
  destruct (decide (w0 = w)) as [->|Hne].
  - rewrite stream_put. simpl. by eapply (step_exited a (attach w p)).
  - by rewrite stream_put_other.
Qed.

Lemma prun_exited tr : ∀ p p' w k,
  sworker (stream_of w p) = Exited k → prun tr p = Some p' →
  sworker (stream_of w p') = Exited k.
Proof.
  induction tr as [|m tr IH]; intros p p' w k Hk; [by intros [= <-]|].
  intros (q & Hstep & Hrun)%prun_cons. eapply IH; [|exact Hrun]. by eapply pstep_exited.
Qed.

(** A closer gets past [wg.Wait()] only after the worker has returned. *)
Lemma wait_done w p p' :
  wf (attach w p) → pstep (w, Wait) p = Some p' →
  sworker (stream_of w p') = Exited Returned.
Proof.
  intros (_ & _ & _ & Hst) (s & d & Hstep & ->)%pstep_inv.
  rewrite stream_put. simpl in *.
  destruct (closeFn_wait_config _ _ _ Hstep) as (_ & -> & _).
  unfold closeFn_wait in Hstep. simpl in *.
  destruct (sworker (stream_of w p)) as [|[|]]; [|done..].
  rewrite Hst in Hstep. done.
Qed.

(** An exited worker of a well-formed stream has left an empty, closed
    queue and a zero counter. *)
Lemma exited_state w p :
  wf (attach w p) → sworker (stream_of w p) = Exited Returned →
  queue w p = [] ∧ Chan.cclosed (msgChan (slg (stream_of w p))) = true ∧
  wg (slg (stream_of w p)) = 0%Z.
Proof.
  intros (_ & _ & _ & Hst) Hk. simpl in Hst. rewrite Hk in Hst.
  by destruct Hst as (? & ? & ?).
Qed.

Lemma step_prefix a s s' d :
  step a s = Steps s' d → filePrefix (lg s') = filePrefix (lg s).
Proof.
  intros Hstep. destruct a; simpl in Hstep.
  - unfold logFn in Hstep. destruct (Chan.send _ _); [|done..]. by simplify_eq.
  - unfold workerRecv in Hstep. destruct (worker s); [|done].
    destruct (Chan.recv _) as [msg c| |]; [| |done].
    + destruct (onMessage_config now msg (set_chan c (lg s)) (os s))
        as ((_ & _ & _ & Hp & _) & _).
      destruct (onMessage _ _ _ _) as [l o sp|l o sp]; simpl in Hp.
      * by simplify_eq.
      * unfold workerExit, runWorker_exit, recoverHandler in Hstep. simpl in Hstep.
        destruct (flushWriter_config l o) as ((_ & _ & _ & Hp' & _) & _).
        destruct (flushWriter l o) as [l1 o1]. simpl in Hp'.
        unfold wg_Done in Hstep. destruct (_ <? _)%Z; [done|].
        simplify_eq. simpl. congruence.
    + unfold workerExit, runWorker_exit, recoverHandler, wg_Done in Hstep.
      destruct (_ <? _)%Z; [done|]. by simplify_eq.
  - unfold workerTick in Hstep. destruct (worker s); [|done].
    destruct (onTick_config (lg s) (os s)) as ((_ & _ & _ & Hp & _) & _).
    destruct (onTick _ _) as [l o]. by simplify_eq.
  - unfold closeFn_close in Hstep. destruct (Chan.close _); [|done]. by simplify_eq.
  - by apply closeFn_wait_config in Hstep as ((_ & _ & _ & Hp & _) & _).
  - unfold sweepRun in Hstep. destruct (sweeps s); [done|]. by simplify_eq.
Qed.

Lemma pstep_prefix m p p' w :
  pstep m p = Some p' →
  filePrefix (slg (stream_of w p')) = filePrefix (slg (stream_of w p)).
Proof.
  destruct m as [w0 a]. intros (s & d & Hstep & ->)%pstep_inv.
  destruct (decide (w0 = w)) as [->|Hne].
  - rewrite stream_put. simpl. by apply step_prefix in Hstep.
  - by rewrite stream_put_other.
Qed.

Lemma prun_prefix tr : ∀ p p' w,
  prun tr p = Some p' →
  filePrefix (slg (stream_of w p')) = filePrefix (slg (stream_of w p)).
Proof.
  induction tr as [|m tr IH]; intros p p' w; [by intros [= <-]|].
  intros (q & Hstep & Hrun)%prun_cons.
  rewrite (IH _ _ _ Hrun). by eapply pstep_prefix.
Qed.

Lemma pstep_console m p p' :
  pstep m p = Some p' → ∃ ext, console (machine p') = console (machine p) ++ ext.
Proof.
  destruct m as [w a]. intros (s & d & Hstep & ->)%pstep_inv.
  rewrite machine_put. by apply step_console in Hstep.
Qed.

Lemma prun_console tr : ∀ p p',
  prun tr p = Some p' → ∃ ext, console (machine p') = console (machine p) ++ ext.
Proof.
  induction tr as [|m tr IH]; intros p p'.
  - intros [= <-]. by apply console_same.
  - intros (q & Hstep & Hrun)%prun_cons.
    destruct (pstep_console _ _ _ Hstep) as (e1 & H1).
    destruct (IH _ _ Hrun) as (e2 & H2). exists (e1 ++ e2).
    by rewrite H2, H1, (assoc_L (++)).
Qed.

(** The line [closeFn] prints is the last thing it does. *)
Lemma wait_console w p p' :
  pstep (w, Wait) p = Some p' →
  console (machine p')
  = console (machine p) ++ [LoggerClosed (filePrefix (slg (stream_of w p)))].
Proof.
  intros (s & d & Hstep & ->)%pstep_inv. rewrite machine_put.
  unfold step, closeFn_wait in Hstep. destruct (_ <? _)%Z; [done|].
  destruct (flushWriter_frame (lg (attach w p)) (os (attach w p)))
    as (_ & _ & _ & _ & Hc & _).
  destruct (flushWriter_config (lg (attach w p)) (os (attach w p)))
    as ((_ & _ & _ & Hp & _) & _).
  destruct (flushWriter _ _) as [l1 o1]. simplify_eq. simpl in *.
  rewrite Hp. f_equal. unfold closeFile. destruct (file l1); simpl; exact Hc.
Qed.

(** A scheduled worker empties a closed queue and returns. *)
Lemma drain_runs w now : ∀ n p,
  wf (attach w p) → sworker (stream_of w p) = Running →
  Chan.cclosed (msgChan (slg (stream_of w p))) = true →
  length (queue w p) = n →
  ∃ p', prun (drain w now n) p = Some p' ∧
        sworker (stream_of w p') = Exited Returned ∧
        ∀ w', w' ≠ w → stream_of w' p' = stream_of w' p.
Proof.
  induction n as [|n IH]; intros p Hwf Hrun Hcl Hlen.
  - destruct (runWorker_exit_runs Returned (slg (stream_of w p)) (machine p))
      as (l' & o' & Hex).
    { destruct Hwf as (_ & _ & _ & Hst). simpl in Hst. rewrite Hrun in Hst. lia. }
    apply nil_length_inv in Hlen. unfold queue in Hlen.
    eexists. split.
    + unfold drain. simpl. unfold pstep. simpl.
      unfold workerRecv. simpl. rewrite Hrun. unfold Chan.recv. rewrite Hlen, Hcl.
      unfold workerExit. simpl. rewrite Hex. reflexivity.
    + split; [by rewrite stream_put|]. intros w' Hne. by rewrite stream_put_other.
  - unfold queue in Hlen.
    destruct (Chan.cbuf (msgChan (slg (stream_of w p)))) as [|msg rest] eqn:Hbuf; [done|].
    set (c := Chan.mkChan rest (Chan.ccap (msgChan (slg (stream_of w p))))
                          (Chan.cclosed (msgChan (slg (stream_of w p))))).
    destruct (onMessage_config now msg (set_chan c (slg (stream_of w p))) (machine p))
      as ((Hch & _) & Hok).
    destruct Hok as (l' & o' & sp & Heq & Hw'); [by destruct Hwf as (_ & _ & ? & _)|].
    rewrite Heq in Hch. simpl in Hch.
    assert (pstep (w, Recv now) p
            = Some (put w (mkSys l' o' Running (spawn sp (ssweeps (stream_of w p)))) p))
      as Hstep.
    { unfold pstep. simpl. unfold workerRecv. simpl. rewrite Hrun.
      unfold Chan.recv. rewrite Hbuf. fold c. by rewrite Heq. }
    destruct (IH (put w (mkSys l' o' Running (spawn sp (ssweeps (stream_of w p)))) p))
      as (p' & Hp' & Hex & Hoth).
    + rewrite attach_put. eapply (step_wf (Recv now) (attach w p)); [done|].
      simpl. unfold workerRecv. simpl. rewrite Hrun. unfold Chan.recv. rewrite Hbuf.
      fold c. by rewrite Heq.
    + by rewrite stream_put.
    + rewrite stream_put. simpl. rewrite Hch. simpl. by rewrite Hcl.
    + unfold queue. rewrite stream_put. simpl. rewrite Hch. simpl.
      simpl in Hlen. lia.
    + exists p'. split; [|split; [done|]].
      * unfold drain in *. change (repeat (w, Recv now) (S (S n)))
          with ((w, Recv now) :: repeat (w, Recv now) (S n)).
        apply prun_cons. eauto.
      * intros w' Hne. rewrite Hoth by done. by rewrite stream_put_other.
Qed.

(** On a well-formed stream with an open queue the closer's first move
    succeeds and leaves the worker running with what was queued. *)
Lemma close_runs w p :
  wf (attach w p) → Chan.cclosed (msgChan (slg (stream_of w p))) = false →
  ∃ p', pstep (w, Close) p = Some p' ∧ wf (attach w p') ∧
        sworker (stream_of w p') = Running ∧
        Chan.cclosed (msgChan (slg (stream_of w p'))) = true ∧
        queue w p' = queue w p ∧
        ∀ w', w' ≠ w → stream_of w' p' = stream_of w' p.
Proof.
  intros Hwf Hcl.
  assert (step Close (attach w p)
          = Steps (mkSys (set_chan (Chan.mkChan (queue w p)
                                      (Chan.ccap (msgChan (slg (stream_of w p)))) true)
                                   (slg (stream_of w p)))
                         (machine p) (sworker (stream_of w p))
                         (ssweeps (stream_of w p))) []) as Hstep.
  { simpl. unfold closeFn_close, Chan.close. simpl. by rewrite Hcl. }
  eexists. split; [unfold pstep; simpl fst; simpl snd; by rewrite Hstep|].
  split; [rewrite attach_put; by eapply step_wf|].
  rewrite stream_put. unfold queue. rewrite stream_put. simpl.
  split_and!; try done.
  - destruct Hwf as (_ & _ & _ & Hst). simpl in Hst.
    destruct (sworker (stream_of w p)) as [|[|]]; [done | | done].
    destruct Hst as (_ & _ & ?). congruence.
  - intros w' Hne. by rewrite stream_put_other.
Qed.

Lemma wait_runs w p :
  sworker (stream_of w p) = Exited Returned → wf (attach w p) →
  ∃ p', pstep (w, Wait) p = Some p' ∧
        ∀ w', w' ≠ w → stream_of w' p' = stream_of w' p.
Proof.
  intros Hk Hwf. destruct (exited_state w p Hwf Hk) as (_ & _ & Hwg).
  destruct (closeFn_wait_returns (attach w p)) as (s' & Hs'); [simpl; lia|].
  exists (put w s' p). split; [unfold pstep; simpl; by rewrite Hs'|].
  intros w' Hne. by rewrite stream_put_other.
Qed.

Lemma init_started t1 t2 t3 t4 o p :
  init t1 t2 t3 t4 o = InitDone p →
  pwf p ∧
  ∀ w, sworker (stream_of w p) = Running ∧
       msgChan (slg (stream_of w p)) = Chan.make 1000 ∧
       filePrefix (slg (stream_of w p)) = stream_name w.
Proof.
  unfold init.
  destruct (newLogFunc "c:\log" "AppLog" 60 t1 t2 o) as [|sa] eqn:Ha; [done|].
  destruct (newLogFunc "c:\log" "CommLog" 30 t3 t4 (os sa)) as [|sc] eqn:Hc; [done|].
  intros [= <-].
  pose proof (newLogFunc_wf _ _ _ _ _ _ _ Ha) as Hwa.
  pose proof (newLogFunc_wf _ _ _ _ _ _ _ Hc) as Hwc.
  destruct (newLogFunc_started _ _ _ _ _ _ _ Ha) as (Hra & _ & Hcha & _ & _ & Hpa & _).
  destruct (newLogFunc_started _ _ _ _ _ _ _ Hc) as (Hrc & _ & Hchc & _ & _ & Hpc & _).
  split; intros [|]; simpl; done.
Qed.
End ProgramFacts.

(** X16. [CloseAllLogs] shuts the streams down one after the other,
    [CommLog] first.  In any run of the program after [init] that
    contains its four moves in order: when the queue of [AppLog] is
    closed, the worker of [CommLog] has already returned; when
    [CloseAllLogs] has returned and ever after, both workers have
    returned, both queues are empty and closed, both counters are zero;
    and the console shows the closing line of [CommLog] before that of
    [AppLog]. *)
Theorem CloseAllLogs_in_order (t1 t2 t3 t4 : Time) (o : OS) (p0 q p : Program)
    (c1 c2 c3 c4 : which * action) (a0 a1 a2 a3 a4 : list (which * action)) :
  init t1 t2 t3 t4 o = InitDone p0 →
  CloseAllLogs = [c1; c2; c3; c4] →
  prun (a0 ++ c1 :: a1 ++ c2 :: a2) p0 = Some q →
  prun (c3 :: a3 ++ c4 :: a4) q = Some p →
  sworker (commLog q) = Exited Returned ∧ queue Comm q = [] ∧
  (∀ w, sworker (stream_of w p) = Exited Returned ∧ queue w p = [] ∧
        Chan.cclosed (msgChan (slg (stream_of w p))) = true ∧
        wg (slg (stream_of w p)) = 0%Z) ∧
  ∃ e1 e2 e3,
    console (machine p)
    = console (machine p0) ++ e1 ++ [LoggerClosed "CommLog"] ++ e2
        ++ [LoggerClosed "AppLog"] ++ e3.
Proof.
  intros Hinit [= <- <- <- <-] Hq Hp.
  destruct (init_started _ _ _ _ _ _ Hinit) as (Hwf0 & Hst0).
  apply prun_app in Hq as (q0 & Hq0 & Hq).
  apply prun_cons in Hq as (q1 & Hc1 & Hq).
  apply prun_app in Hq as (q2 & Hq2 & Hq).
  apply prun_cons in Hq as (q3 & Hc2 & Hq).
  apply prun_cons in Hp as (r1 & Hc3 & Hp).
  apply prun_app in Hp as (r2 & Hr2 & Hp).
  apply prun_cons in Hp as (r3 & Hc4 & Hp).
  pose proof (prun_wf _ _ _ Hwf0 Hq0) as Hwq0.
  pose proof (pstep_wf _ _ _ Hwq0 Hc1) as Hwq1.
  pose proof (prun_wf _ _ _ Hwq1 Hq2) as Hwq2.
  pose proof (pstep_wf _ _ _ Hwq2 Hc2) as Hwq3.
  pose proof (prun_wf _ _ _ Hwq3 Hq) as Hwq.
  pose proof (pstep_wf _ _ _ Hwq Hc3) as Hwr1.
  pose proof (prun_wf _ _ _ Hwr1 Hr2) as Hwr2.
  pose proof (pstep_wf _ _ _ Hwr2 Hc4) as Hwr3.
  pose proof (prun_wf _ _ _ Hwr3 Hp) as Hwp.
  pose proof (wait_done Comm q2 q3 (Hwq2 Comm) Hc2) as Hcx.
  pose proof (prun_exited _ _ _ Comm _ Hcx Hq) as Hcq.
  pose proof (wait_done App r2 r3 (Hwr2 App) Hc4) as Hax.
  split; [exact Hcq|].
  split; [by destruct (exited_state Comm q (Hwq Comm) Hcq)|].
  split.
  - intros w.
    assert (sworker (stream_of w p) = Exited Returned) as Hk.
    { destruct w.
      - by eapply prun_exited.
      - eapply prun_exited; [|exact Hp]. eapply pstep_exited; [|exact Hc4].
        eapply prun_exited; [|exact Hr2]. by eapply pstep_exited. }
    split; [done|]. by apply exited_state.
  - destruct (prun_console _ _ _ Hq0) as (x0 & E0).
    destruct (pstep_console _ _ _ Hc1) as (x1 & E1).
    destruct (prun_console _ _ _ Hq2) as (x2 & E2).
    pose proof (wait_console _ _ _ Hc2) as E3.
    destruct (prun_console _ _ _ Hq) as (x4 & E4).
    destruct (pstep_console _ _ _ Hc3) as (x5 & E5).
    destruct (prun_console _ _ _ Hr2) as (x6 & E6).
    pose proof (wait_console _ _ _ Hc4) as E7.
    destruct (prun_console _ _ _ Hp) as (x8 & E8).
    assert (filePrefix (slg (stream_of Comm q2)) = "CommLog") as Hpc.
    { rewrite (prun_prefix _ _ _ Comm Hq2), (pstep_prefix _ _ _ Comm Hc1),
        (prun_prefix _ _ _ Comm Hq0). apply Hst0. }
    assert (filePrefix (slg (stream_of App r2)) = "AppLog") as Hpa.
    { rewrite (prun_prefix _ _ _ App Hr2), (pstep_prefix _ _ _ App Hc3),
        (prun_prefix _ _ _ App Hq), (pstep_prefix _ _ _ App Hc2),
        (prun_prefix _ _ _ App Hq2), (pstep_prefix _ _ _ App Hc1),
        (prun_prefix _ _ _ App Hq0). apply Hst0. }
    rewrite Hpc in E3. rewrite Hpa in E7.
    exists (x0 ++ x1 ++ x2), (x4 ++ x5 ++ x6), x8.
    rewrite E8, E7, E6, E5, E4, E3, E2, E1, E0.
    by rewrite <- !(assoc_L (++)).
Qed.

Lemma CloseAllLogs_in_order_witness :
  ∃ p0 q p,
    init march_first march_first march_first march_first fresh_os = InitDone p0 ∧
    prun ([(App, Emit "a"); (Comm, Emit "c")] ++ (Comm, Close)
            :: [(Comm, Recv march_first); (Comm, Recv march_first)] ++ (Comm, Wait)
            :: [(App, Tick)]) p0 = Some q ∧
    prun ((App, Close) :: [(App, Recv march_first); (App, Recv march_first)]
            ++ (App, Wait) :: []) q = Some p ∧
    sworker (commLog q) = Exited Returned ∧
    ∀ w, sworker (stream_of w p) = Exited Returned.
Proof.
  eassert (init march_first march_first march_first march_first fresh_os = InitDone _)
    as H0 by (vm_compute; reflexivity).
  lazymatch type of H0 with
  | _ = InitDone ?p0 =>
      eassert (prun ([(App, Emit "a"); (Comm, Emit "c")] ++ (Comm, Close)
                       :: [(Comm, Recv march_first); (Comm, Recv march_first)]
                       ++ (Comm, Wait) :: [(App, Tick)]) p0 = Some _)
        as H1 by (vm_compute; reflexivity)
  end.
  lazymatch type of H1 with
  | _ = Some ?q =>
      eassert (prun ((App, Close) :: [(App, Recv march_first); (App, Recv march_first)]
                       ++ (App, Wait) :: []) q = Some _)
        as H2 by (vm_compute; reflexivity)
  end.
  destruct (CloseAllLogs_in_order _ _ _ _ _ _ _ _ _ _ _ _ _ _ _ _ _ H0 eq_refl H1 H2)
    as (Hq & _ & Hp & _).
  do 3 eexists. split; [exact H0|]. split; [exact H1|]. split; [exact H2|].
  split; [exact Hq|]. intros w. by destruct (Hp w).
Defined.

(** X17. [CloseAllLogs] returns: on two well-formed streams with open
    queues, when each worker is scheduled for every queued message and
    once more before the closer waits for it, all four moves of
    [CloseAllLogs] complete and both workers have returned, whatever the
    queues hold and whatever the machine does to the writes. *)
Theorem CloseAllLogs_returns (p : Program) (now : Time) :
  (∀ w, wf (attach w p) ∧ Chan.cclosed (msgChan (slg (stream_of w p))) = false) →
  ∃ p',
    prun (with_drains now p CloseAllLogs) p = Some p' ∧
    ∀ w, sworker (stream_of w p') = Exited Returned.
Proof.
  intros Hp.
  assert (with_drains now p CloseAllLogs
          = [(Comm, Close)] ++ drain Comm now (length (queue Comm p)) ++ [(Comm, Wait)]
            ++ [(App, Close)] ++ drain App now (length (queue App p)) ++ [(App, Wait)])
    as ->.
  { unfold with_drains, CloseAllLogs. cbn [flat_map is_wait fst snd].
    by rewrite <- !(assoc_L (++)), app_nil_r. }
  destruct (close_runs Comm p) as (p1 & H1 & Hw1 & Hr1 & Hcl1 & Hq1 & Ho1);
    [apply Hp..|].
  destruct (drain_runs Comm now (length (queue Comm p)) p1) as (p2 & H2 & Hx2 & Ho2);
    [done | done | done | by rewrite Hq1 |].
  assert (pwf p1) as Hwf1.
  { intros [|]; [|done]. unfold attach. rewrite Ho1 by done.
    eapply wf_stream, (Hp App). }
  pose proof (prun_wf _ _ _ Hwf1 H2) as Hwf2.
  destruct (wait_runs Comm p2 Hx2 (Hwf2 Comm)) as (p3 & H3 & Ho3).
  assert (pwf p3) as Hwf3 by (by eapply pstep_wf).
  assert (stream_of App p3 = stream_of App p) as Happ
    by (by rewrite Ho3, Ho2, Ho1).
  destruct (close_runs App p3) as (p4 & H4 & Hw4 & Hr4 & Hcl4 & Hq4 & Ho4);
    [apply Hwf3 | rewrite Happ; apply Hp |].
  destruct (drain_runs App now (length (queue App p)) p4) as (p5 & H5 & Hx5 & Ho5);
    [done | done | done | rewrite Hq4; unfold queue; by rewrite Happ |].
  assert (pwf p4) as Hwf4 by (by eapply pstep_wf).
  pose proof (prun_wf _ _ _ Hwf4 H5) as Hwf5.
  destruct (wait_runs App p5 Hx5 (Hwf5 App)) as (p6 & H6 & Ho6).
  exists p6. split.
  - apply prun_app. exists p1. split; [simpl; by rewrite H1|].
    apply prun_app. exists p2. split; [done|].
    apply prun_app. exists p3. split; [simpl; by rewrite H3|].
    apply prun_app. exists p4. split; [simpl; by rewrite H4|].
    apply prun_app. exists p5. split; [done|]. simpl. by rewrite H6.
  - intros [|].
    + eapply pstep_exited; [|exact H6]. done.
    + eapply pstep_exited; [|exact H6]. eapply prun_exited; [|exact H5].
      eapply pstep_exited; [|exact H4]. eapply pstep_exited; [|exact H3]. done.
Qed.

Lemma CloseAllLogs_returns_witness :
  ∃ p0 p1 p',
    init march_first march_first march_first march_first fresh_os = InitDone p0 ∧
    prun [(App, Emit "a"); (App, Emit "b"); (Comm, Emit "c")] p0 = Some p1 ∧
    prun (with_drains march_first p1 CloseAllLogs) p1 = Some p' ∧
    ∀ w, sworker (stream_of w p') = Exited Returned.
Proof.
  eassert (init march_first march_first march_first march_first fresh_os = InitDone _)
    as H0 by (vm_compute; reflexivity).
  lazymatch type of H0 with
  | _ = InitDone ?p0 =>
      eassert (prun [(App, Emit "a"); (App, Emit "b"); (Comm, Emit "c")] p0 = Some _)
        as H1 by (vm_compute; reflexivity)
  end.
  lazymatch type of H1 with
  | _ = Some ?p1 =>
      destruct (CloseAllLogs_returns p1 march_first) as (p' & Hrun & Hx)
  end.
  - intros [|]; (split; [|reflexivity]);
      (split_and!; [reflexivity | simpl; lia | by eexists | reflexivity]).
  - do 3 eexists. split; [exact H0|]. split; [exact H1|]. split; [exact Hrun|]. exact Hx.
Defined.

Section TouchFacts.
Implicit Types (l : internalLogger) (o : OS) (w : Writer) (c : option nat).

Lemma touches_refl pfx c o : touches pfx c o o.
Proof. split_and!; [done | by left | done]. Qed.

Lemma touches_trans pfx c o1 o2 o3 :
  touches pfx c o1 o2 → touches pfx c o2 o3 → touches pfx c o1 o3.
Proof.
  intros (Hn1 & Hf1 & He1) (Hn2 & Hf2 & He2). split_and!; [lia | |].
  - intros g Hg. destruct (Hf2 g ltac:(lia)) as [H2|[Hc H2]]; [|by right].
    rewrite H2. by apply Hf1.
  - intros n Hn. by rewrite He2, He1.
Qed.

Lemma touches_same pfx c o o' :
  fds o' = fds o → next_fd o' = next_fd o → dir o' = dir o → touches pfx c o o'.
Proof.
  intros Hf Hn Hd. split_and!; [lia | intros; left; by rewrite Hf |].
  intros n _. unfold entry. by rewrite Hd.
Qed.

Lemma Write_touches pfx c f data o :
  (∀ n, fds o !! f = Some n → HasPrefix n (pfx +:+ "_") = true) →
  touches pfx c o (Write f data o).2.
Proof.
  intros Hn. destruct (Write_frame f data o) as (_ & Hf & Hnx & _).
  split_and!; [lia | intros; left; by rewrite Hf |].
  intros n Hpre. unfold Write, entry. cbn [fds called dir].
  destruct (fds o !! f) as [name|] eqn:Hfd; [|done].
  destruct (dir o) as [d|] eqn:Hd; [|simpl; by rewrite Hd].
  destruct (d !! name) as [[|cnt]|] eqn:Hl; simpl; rewrite ?Hd; try done.
  rewrite lookup_insert_ne; [done|]. intros ->. by rewrite (Hn _ eq_refl) in Hpre.
Qed.

Lemma Flush_touches pfx c w o :
  (∀ n, fds o !! wfd w = Some n → HasPrefix n (pfx +:+ "_") = true) →
  touches pfx c o (Flush w o).2.
Proof.
  intros Hn. unfold Flush. destruct (werr w); [apply touches_refl|].
  destruct (Buffered w =? 0); [apply touches_refl|].
  pose proof (Write_touches pfx c (wfd w) (wbuf w) o Hn) as Ht.
  by destruct (Write (wfd w) (wbuf w) o) as [[|] o'].
Qed.

Lemma direct_touches pfx c s w o :
  (∀ n, fds o !! wfd w = Some n → HasPrefix n (pfx +:+ "_") = true) →
  touches pfx c o (direct s w o).2.
Proof.
  intros Hn. unfold direct.
  pose proof (Write_touches pfx c (wfd w) s o Hn) as Ht.
  by destruct (Write (wfd w) s o) as [[|] o'].
Qed.

Lemma WriteString_touches pfx c s w o :
  (∀ n, fds o !! wfd w = Some n → HasPrefix n (pfx +:+ "_") = true) →
  touches pfx c o (WriteString s w o).2.
Proof.
  intros Hn. unfold WriteString. destruct (werr w); [apply touches_refl|].
  destruct (_ <=? _); [apply touches_refl|].
  destruct (Buffered w =? 0); [by apply direct_touches|].
  set (w0 := mkWriter _ _ _).
  pose proof (Flush_touches pfx c w0 o Hn) as Ht.
  destruct (Flush_frame w0 o) as (_ & Hf & _ & _ & _ & Hfd & _).
  destruct (Flush w0 o) as [w1 o1]. simpl in *.
  destruct (werr w1); [done|]. destruct (_ <=? _); [done|].
  eapply touches_trans; [exact Ht|]. apply direct_touches.
  rewrite Hfd, Hf. exact Hn.
Qed.

Lemma Close_touches pfx f o : touches pfx (Some f) o (GoOS.Close f o).
Proof.
  split_and!; [done | | done].
  intros g _. unfold GoOS.Close. simpl.
  destruct (decide (g = f)) as [->|Hne].
  - right. by rewrite lookup_delete_eq.
  - left. by rewrite lookup_delete_ne.
Qed.

Lemma closeFile_touches pfx l o : touches pfx (file l) o (closeFile l o).
Proof.
  unfold closeFile. destruct (file l) as [f|]; [apply Close_touches|apply touches_refl].
Qed.

Lemma MkdirAll_touches pfx c o : touches pfx c o (MkdirAll o).2.
Proof.
  split_and!.
  - unfold MkdirAll. cbn [dir called perm]. destruct (dir o); [done|]. by destruct (perm o).
  - intros g _. left. unfold MkdirAll. cbn [dir called perm].
    destruct (dir o); [done|]. by destruct (perm o).
  - intros n _. apply MkdirAll_entry.
Qed.

Lemma OpenFile_touches pfx c name o :
  HasPrefix name (pfx +:+ "_") = true → touches pfx c o (OpenFile name o).2.
Proof.
  intros Hname. unfold OpenFile. cbn [dir called perm next_fd fds].
  destruct (dir o) as [d|] eqn:Hd; [|by apply touches_same].
  destruct (negb (perm o)); [by apply touches_same|].
  destruct (d !! name) as [[|cnt]|] eqn:Hl; [by apply touches_same | |].
  - split_and!; simpl; [lia | |].
    + intros g Hg. left. rewrite lookup_insert_ne; [done|lia].
    + intros n _. unfold entry. simpl. by rewrite Hd.
  - split_and!; simpl; [lia | |].
    + intros g Hg. left. rewrite lookup_insert_ne; [done|lia].
    + intros n Hn. unfold entry. simpl. rewrite Hd.
      rewrite lookup_insert_ne; [done|]. intros ->. by rewrite Hname in Hn.
Qed.

Lemma fileName_prefix pfx d : HasPrefix (fileName pfx d) (pfx +:+ "_") = true.
Proof.
  unfold fileName. rewrite <- str_app_assoc. apply HasPrefix_app.
Qed.

Lemma openFile_touches t l o c :
  touches (filePrefix l) c o (openFile t l o).2.
Proof.
  unfold openFile.
  pose proof (MkdirAll_touches (filePrefix l) c o) as H1.
  pose proof (OpenFile_touches (filePrefix l) c
                (fileName (filePrefix l) (Format_date t)) (MkdirAll o).2
                (fileName_prefix _ _)) as H2.
  destruct (OpenFile _ _) as [[e|f] o2]; simpl in *; by eapply touches_trans.
Qed.

Lemma cleanOldLogs_touches now l o c :
  touches (filePrefix l) c o (cleanOldLogs now l o).
Proof.
  destruct (cleanOldLogs_frame now l o) as (Hf & Hn & _ & _ & Hk).
  split_and!; [lia | intros; left; by rewrite Hf |].
  intros n Hpre. destruct (entry o n) as [nd|] eqn:He.
  - apply Hk; [done|]. by apply expired_no_prefix.
  - by apply cleanOldLogs_absent.
Qed.

(** [owns] only looks at the descriptors and the prefix of the logger,
    and survives whatever any stream may do to the machine. *)
Lemma owns_same l l' o :
  file l' = file l → filePrefix l' = filePrefix l →
  (∀ w', writer l' = Some w' → ∃ w, writer l = Some w ∧ wfd w = wfd w') →
  owns l o → owns l' o.
Proof.
  intros Hf Hp Hw (Hfile & Hwr). split.
  - rewrite Hf. exact Hfile.
  - intros w' Hw'. destruct (Hw w' Hw') as (w & Hw0 & <-). rewrite Hp. by apply Hwr.
Qed.

Lemma owns_touches pfx c l o o' : owns l o → touches pfx c o o' → owns l o'.
Proof.
  intros (Hfile & Hwr) (Hn & Hfd & _). split.
  - intros f Hf. specialize (Hfile f Hf). lia.
  - intros w Hw. destruct (Hwr w Hw) as (Hlt & Hnm). split; [lia|].
    intros n. destruct (Hfd (wfd w) Hlt) as [->|[_ ->]]; [apply Hnm | done].
Qed.


(** The parts of a move. *)
Lemma flushWriter_touches l o c :
  owns l o →
  touches (filePrefix l) c o (flushWriter l o).2 ∧ owns (flushWriter l o).1 (flushWriter l o).2 ∧
  file (flushWriter l o).1 = file l ∧ filePrefix (flushWriter l o).1 = filePrefix l.
Proof.
  intros Hown. unfold flushWriter. destruct (writer l) as [w|] eqn:Hw.
  2:{ split_and!; [apply touches_refl | done..]. }
  pose proof (Flush_touches (filePrefix l) c w o (proj2 (proj2 Hown w Hw))) as Ht.
  destruct (Flush_frame w o) as (_ & _ & _ & _ & _ & Hfd & _).
  destruct (Flush w o) as [w' o']. simpl in *. split_and!; try done.
  eapply owns_touches; [|exact Ht]. eapply owns_same; [| | |exact Hown]; try done.
  simpl. intros ? [= <-]. by exists w.
Qed.

Lemma openFile_owns t l o :
  owns l o →
  owns (openFile t l o).1.2 (openFile t l o).2 ∧
  filePrefix (openFile t l o).1.2 = filePrefix l ∧
  (∀ f, file (openFile t l o).1.2 = Some f → file l = Some f ∨ next_fd o ≤ f).
Proof.
  intros Hown.
  pose proof (openFile_touches t l o None) as Ht.
  destruct (openFile t l o) as [[[e|] l'] o'] eqn:Hop; simpl in *.
  - assert (l' = l) as ->.
    { revert Hop. unfold openFile. destruct (OpenFile _ _) as [[?|?] ?]; by intros [= <- <-]. }
    split_and!; [by eapply owns_touches | done | by left].
  - destruct (openFile_fd _ _ _ _ _ Hop) as (Hfile & Hnext & _).
    destruct (openFile_ok _ _ _ _ _ Hop) as (f & -> & Hfd & _).
    simpl in *. injection Hfile as ->. split_and!; [|done|].
    + split; simpl.
      * intros ? [= <-]. lia.
      * intros ? [= <-]. simpl. split; [lia|]. rewrite Hfd. intros ? [= <-].
        apply fileName_prefix.
    + intros ? [= <-]. by right.
Qed.

Lemma rotate_touches now l o :
  owns l o →
  touches (filePrefix l) (file l) o (rotate now l o).2 ∧
  owns (rotate now l o).1.2 (rotate now l o).2 ∧
  filePrefix (rotate now l o).1.2 = filePrefix l ∧
  (∀ f, file (rotate now l o).1.2 = Some f → next_fd o ≤ f).
Proof.
  intros Hown. unfold rotate.
  destruct (flushWriter_touches l o (file l) Hown) as (Ht1 & Hown1 & Hf1 & Hp1).
  destruct (flushWriter l o) as [l1 o1]. simpl in *.
  pose proof (closeFile_touches (filePrefix l) l1 o1) as Ht2. rewrite Hf1 in Ht2.
  set (o2 := closeFile l1 o1) in *. set (l2 := set_file None l1).
  assert (owns l2 o2) as Hown2.
  { eapply owns_touches; [|exact Ht2]. destruct Hown1 as (_ & Hw). split; [done|exact Hw]. }
  pose proof (openFile_touches now l2 o2 (file l)) as Ht3.
  change (filePrefix l2) with (filePrefix l1) in Ht3. rewrite Hp1 in Ht3.
  destruct (openFile_owns now l2 o2 Hown2) as (Hown3 & Hp3 & Hf3).
  split_and!; [| done | by rewrite Hp3 |].
  - eapply touches_trans; [exact Ht1|]. eapply touches_trans; [exact Ht2|exact Ht3].
  - intros f Hf. destruct (Hf3 f Hf) as [?|Hle]; [done|].
    destruct Ht1 as (? & _). destruct Ht2 as (? & _). lia.
Qed.

Lemma writeLine_touches now msg l o sp c :
  owns l o →
  touches (filePrefix l) c o (iteration_os (writeLine now msg l o sp)) ∧
  owns (iteration_logger (writeLine now msg l o sp)) (iteration_os (writeLine now msg l o sp)) ∧
  file (iteration_logger (writeLine now msg l o sp)) = file l ∧
  filePrefix (iteration_logger (writeLine now msg l o sp)) = filePrefix l.
Proof.
  intros Hown. unfold writeLine. destruct (writer l) as [w|] eqn:Hw.
  2:{ split_and!; [apply touches_refl | done..]. }
  pose proof (WriteString_touches (filePrefix l) c (logLine (Format_stamp now) msg) w o
                (proj2 (proj2 Hown w Hw))) as Ht.
  destruct (WriteString_frame (logLine (Format_stamp now) msg) w o)
    as (_ & _ & _ & _ & Hfd & _).
  destruct (WriteString _ w o) as [w' o']. simpl in *. split_and!; try done.
  eapply owns_touches; [|exact Ht]. eapply owns_same; [| | |exact Hown]; try done.
  simpl. intros ? [= <-]. by exists w.
Qed.

Lemma touches_print pfx c o o' x : touches pfx c o o' → touches pfx c o (print x o').
Proof. intros H. eapply touches_trans; [exact H|]. by apply touches_same. Qed.

Lemma owns_print l o x : owns l o → owns l (print x o).
Proof. done. Qed.

Lemma onMessage_touches now msg l o :
  owns l o →
  touches (filePrefix l) (file l) o (iteration_os (onMessage now msg l o)) ∧
  owns (iteration_logger (onMessage now msg l o)) (iteration_os (onMessage now msg l o)) ∧
  filePrefix (iteration_logger (onMessage now msg l o)) = filePrefix l ∧
  (∀ f, file (iteration_logger (onMessage now msg l o)) = Some f →
     file l = Some f ∨ next_fd o ≤ f).
Proof.
  intros Hown. unfold onMessage. destruct (needsRotation now l).
  - destruct (rotate_touches now l o Hown) as (Ht & Hown3 & Hp3 & Hf3).
    destruct (rotate now l o) as [[[e|] l3] o3]; simpl in *.
    + split_and!; [by do 2 apply touches_print | done | done | intros; right; eauto].
    + set (o4 := print _ o3).
      destruct (writeLine_touches now msg l3 o4 true (file l) (owns_print _ _ _ Hown3))
        as (Ht4 & Hown4 & Hf4 & Hp4).
      rewrite Hp3 in Ht4. split_and!; [| done | congruence |].
      * eapply touches_trans; [|exact Ht4]. by apply touches_print.
      * rewrite Hf4. intros; right; eauto.
  - destruct (writeLine_touches now msg l o false (file l) Hown) as (Ht & Hown' & Hf & Hp).
    split_and!; try done. rewrite Hf. by left.
Qed.

Lemma onTick_touches l o c :
  owns l o →
  touches (filePrefix l) c o (onTick l o).2 ∧ owns (onTick l o).1 (onTick l o).2 ∧
  file (onTick l o).1 = file l ∧ filePrefix (onTick l o).1 = filePrefix l.
Proof.
  intros Hown. unfold onTick. destruct (writer l) as [w|] eqn:Hw.
  2:{ split_and!; [apply touches_refl | done..]. }
  destruct (0 <? Buffered w). 2:{ split_and!; [apply touches_refl | done..]. }
  pose proof (Flush_touches (filePrefix l) c w o (proj2 (proj2 Hown w Hw))) as Ht.
  destruct (Flush_frame w o) as (_ & _ & _ & _ & _ & Hfd & _).
  destruct (Flush w o) as [w' o']. simpl in *. split_and!; try done.
  eapply owns_touches; [|exact Ht]. eapply owns_same; [| | |exact Hown]; try done.
  simpl. intros ? [= <-]. by exists w.
Qed.

Lemma runWorker_exit_touches k l o l' o' c :
  owns l o → runWorker_exit k l o = Some (l', o') →
  touches (filePrefix l) c o o' ∧ owns l' o' ∧ file l' = file l ∧
  filePrefix l' = filePrefix l.
Proof.
  intros Hown. unfold runWorker_exit, recoverHandler, wg_Done. destruct k.
  - destruct (_ <? _)%Z; [done|]. intros [= <- <-].
    split_and!; [apply touches_refl | done..].
  - destruct (flushWriter_touches l o c Hown) as (Ht & Hown1 & Hf1 & Hp1).
    destruct (flushWriter l o) as [l1 o1]. simpl in *.
    destruct (_ <? _)%Z; [done|]. intros [= <- <-]. simpl.
    assert (touches (filePrefix l) c o1
              match file l1 with Some f => Sync f o1 | None => o1 end) as Hs.
    { destruct (file l1); [by apply touches_same | apply touches_refl]. }
    split_and!; [by eapply touches_trans | | done | done].
    eapply (owns_touches _ c); [|exact Hs]. exact Hown1.
Qed.

(** A completed move of a stream closes at most the descriptor the
    logger held, changes only entries named with its prefix, and leaves
    the logger with what it held or with a descriptor handed out by the
    move. *)
Lemma step_touches a s s' d :
  owns (lg s) (os s) → step a s = Steps s' d →
  touches (filePrefix (lg s)) (file (lg s)) (os s) (os s') ∧
  owns (lg s') (os s') ∧ filePrefix (lg s') = filePrefix (lg s) ∧
  (∀ f, file (lg s') = Some f → file (lg s) = Some f ∨ next_fd (os s) ≤ f).
Proof.
  intros Hown Hstep. destruct a; simpl in Hstep.
  - unfold logFn in Hstep. destruct (Chan.send _ _); [|done..]. simplify_eq.
    split_and!; [apply touches_refl | done | done | by left].
  - unfold workerRecv in Hstep. destruct (worker s); [|done].
    destruct (Chan.recv _) as [msg c| |]; [| |done].
    + destruct (onMessage_touches now msg (set_chan c (lg s)) (os s) Hown)
        as (Ht & Hown' & Hp & Hf).
      destruct (onMessage _ _ _ _) as [l o sp|l o sp]; simpl in *.
      * by simplify_eq.
      * unfold workerExit in Hstep. simpl in Hstep.
        destruct (runWorker_exit _ _ _) as [[l1 o1]|] eqn:Hex; [|done].
        destruct (runWorker_exit_touches _ _ _ _ _ (file (lg s)) Hown' Hex)
          as (Ht1 & Hown1 & Hf1 & Hp1).
        simplify_eq. simpl. rewrite Hp in Ht1.
        split_and!; [by eapply touches_trans | done | congruence |].
        rewrite Hf1. exact Hf.
    + unfold workerExit in Hstep.
      destruct (runWorker_exit _ _ _) as [[l1 o1]|] eqn:Hex; [|done].
      destruct (runWorker_exit_touches _ _ _ _ _ (file (lg s)) Hown Hex)
        as (Ht1 & Hown1 & Hf1 & Hp1).
      simplify_eq. simpl. split_and!; try done. rewrite Hf1. by left.
  - unfold workerTick in Hstep. destruct (worker s); [|done].
    destruct (onTick_touches (lg s) (os s) (file (lg s)) Hown) as (Ht & Hown' & Hf & Hp).
    destruct (onTick _ _) as [l o]. simplify_eq. simpl in *.
    split_and!; try done. rewrite Hf. by left.
  - unfold closeFn_close in Hstep. destruct (Chan.close _); [|done]. simplify_eq.
    split_and!; [apply touches_refl | done | done | by left].
  - unfold closeFn_wait in Hstep. destruct (_ <? _)%Z; [done|].
    destruct (flushWriter_touches (lg s) (os s) (file (lg s)) Hown)
      as (Ht1 & Hown1 & Hf1 & Hp1).
    destruct (flushWriter _ _) as [l1 o1]. simplify_eq. simpl in *.
    pose proof (closeFile_touches (filePrefix (lg s)) l1 o1) as Ht2. rewrite Hf1 in Ht2.
    split_and!; [| | done | rewrite Hf1; by left].
    + apply touches_print. by eapply touches_trans.
    + apply owns_print. by eapply owns_touches.
  - unfold sweepRun in Hstep. destruct (sweeps s); [done|]. simplify_eq. simpl.
    pose proof (cleanOldLogs_touches now (lg s) (os s) (file (lg s))) as Ht.
    split_and!; [done | by eapply owns_touches | done | by left].
Qed.

Lemma exec_touches tr : ∀ s s' d,
  owns (lg s) (os s) → exec tr s = Some (s', d) →
  owns (lg s') (os s') ∧ filePrefix (lg s') = filePrefix (lg s) ∧
  ∀ n, HasPrefix n (filePrefix (lg s) +:+ "_") = false →
       entry (os s') n = entry (os s) n.
Proof.
  induction tr as [|a tr IH]; intros s s' d Hown Hex.
  - simpl in Hex. by simplify_eq.
  - apply exec_cons in Hex as (s1 & d1 & d2 & Hstep & Hex & _). simpl in Hex.
    destruct (step_touches _ _ _ _ Hown Hstep) as ((_ & _ & He) & Hown1 & Hp1 & _).
    destruct (IH _ _ _ Hown1 Hex) as (Hown' & Hp' & He').
    split_and!; [done | congruence |].
    intros n Hn. rewrite He' by (by rewrite Hp1). by apply He.
Qed.

Lemma newLogFunc_touches dirPath prefix ret tc topen o s :
  newLogFunc dirPath prefix ret tc topen o = InitOk s →
  touches prefix None o (os s) ∧ owns (lg s) (os s) ∧
  ∃ f, file (lg s) = Some f ∧ next_fd o ≤ f.
Proof.
  unfold newLogFunc.
  pose proof (MkdirAll_touches prefix None o) as Ht1.
  destruct (MkdirAll o) as [[e|] o1]; [done|]. simpl in Ht1.
  set (logger := mkLogger _ _ _ _ _ _ _ _).
  pose proof (cleanOldLogs_touches tc logger o1 None) as Ht2.
  pose proof (openFile_touches topen logger (cleanOldLogs tc logger o1) None) as Ht3.
  change (filePrefix logger) with prefix in Ht2, Ht3.
  assert (owns logger (cleanOldLogs tc logger o1)) as Hown by (by split).
  destruct (openFile_owns topen logger _ Hown) as (Hown3 & _ & Hf3).
  destruct (openFile topen logger _) as [[[e|] l3] o3] eqn:Hop; [done|].
  destruct (openFile_ok _ _ _ _ _ Hop) as (f & Hl3 & _).
  intros [= <-]. simpl in *. split_and!.
  - apply touches_print. eapply touches_trans; [exact Ht1|]. by eapply touches_trans.
  - apply owns_print. eapply owns_same; [| | |exact Hown3]; eauto.
  - exists f. subst l3. simpl. split; [done|].
    destruct (Hf3 f eq_refl) as [?|Hle]; [done|].
    destruct Ht1 as (? & _). destruct Ht2 as (? & _). lia.
Qed.
End TouchFacts.

Section IsolationFacts.
Implicit Types (p : Program) (w : which).




End IsolationFacts.



(** X19. A stream only touches files named with its prefix: from the call
    of [newLogFunc] on, through every completed move of its goroutines
    (emitting, writing, rotating, sweeping, closing), each directory
    entry whose name does not start with the prefix and an underscore is
    what it was before the call: never created, changed or removed. *)
Theorem stream_touches_own_files (dirPath prefix : string) (ret : Z) (tc topen : Time)
    (o : OS) (s0 s : System) (tr : list action) (d : list (Time * string)) (n : string) :
  newLogFunc dirPath prefix ret tc topen o = InitOk s0 →
  exec tr s0 = Some (s, d) →
  HasPrefix n (prefix +:+ "_") = false →
  entry (os s) n = entry o n.
Proof.
  intros Hnew Hex Hn.
  destruct (newLogFunc_touches _ _ _ _ _ _ _ Hnew) as ((_ & _ & He0) & Hown & _).
  destruct (newLogFunc_started _ _ _ _ _ _ _ Hnew) as (_ & _ & _ & _ & _ & Hp & _).
  destruct (exec_touches _ _ _ _ Hown Hex) as (_ & _ & He).
  rewrite He by (by rewrite Hp). by apply He0.
Qed.

Lemma stream_touches_own_files_witness :
  ∃ s0 s d,
    newLogFunc "c:\log" "CommLog" 30 march_first march_first retention_os = InitOk s0 ∧
    exec [Emit "a"; Recv march_second; Sweep march_second; Close;
          Recv march_second; Wait] s0 = Some (s, d) ∧
    entry (os s) "AppLog_20250129.txt" = Some (File "old").
Proof.
  eassert (newLogFunc "c:\log" "CommLog" 30 march_first march_first retention_os
           = InitOk _) as H0 by (vm_compute; reflexivity).
  lazymatch type of H0 with
  | _ = InitOk ?s0 =>
      eassert (exec [Emit "a"; Recv march_second; Sweep march_second; Close;
                     Recv march_second; Wait] s0 = Some (_, _))
        as H1 by (vm_compute; reflexivity)
  end.
  do 3 eexists. split; [exact H0|]. split; [exact H1|].
  rewrite (stream_touches_own_files _ _ _ _ _ _ _ _ _ _ "AppLog_20250129.txt" H0 H1);
    reflexivity.
Defined.

Section TwoStreamFacts.
Implicit Types (p : Program) (w : which) (o : OS).









End TwoStreamFacts.


